(** * FlexiMart ETL pipeline: a shallow embedding of [etl_pipeline.py]

    The file has three parts.
    - The embedding, in the order of the Python module: the field
      normalisers ([parse_date], [normalise_phone], [normalise_city],
      [normalise_category]), the [QualityCounts] ledger, the three cleaners
      ([transform_customers], [transform_products], [transform_sales]),
      the load helpers over an explicit store, the report writer and
      [main].
    - The rules the specification states, worded on their own, and a few
      sample tables.
    - The properties: the cleaners and the load against those rules.

    Modelling conventions.
    - A CSV cell read with [dtype=str] is a string or missing (NaN):
      [cell := option string].
    - Text is ASCII: [str.strip], [str.lower], [str.title] and
      [str.isdigit] are modelled on the code points 0..127; the other
      byte values are caseless symbols.
    - A DataFrame is the list of its rows in index order.
    - Python integers are [Z].
    - The numeric values pandas computes with, and its permissive date
      parser, are library code: they are the interface [Pandas] below.
      Its values stand for the floats other than NaN, the two infinities
      included; a float cell that is NaN is [None].  An [int64] of a numpy
      column is a [Z] within the range of [int64]. *)

From Stdlib Require Import ZArith Ascii String List Bool Lia QArith Qround.
From Stdlib Require Import Sorting.Sorted.
From Stdlib Require DecimalString.
From stdpp Require Import base option list strings gmap.

Open Scope Z_scope.

(** ** Text primitives *)

Module Text.

Definition code (c : ascii) : N := N_of_ascii c.

(** [str.isspace] on ASCII: TAB..CR, FS..US and the space. *)
Definition isspace (c : ascii) : bool :=
  let n := code c in
  ((9 <=? n) && (n <=? 13) || (28 <=? n) && (n <=? 32))%N.

(** [str.isdigit] on ASCII. *)
Definition isdigit (c : ascii) : bool :=
  let n := code c in ((48 <=? n) && (n <=? 57))%N.

Definition isupper (c : ascii) : bool :=
  let n := code c in ((65 <=? n) && (n <=? 90))%N.

Definition islower (c : ascii) : bool :=
  let n := code c in ((97 <=? n) && (n <=? 122))%N.

Definition iscased (c : ascii) : bool := isupper c || islower c.

Definition lower_char (c : ascii) : ascii :=
  if isupper c then ascii_of_N (code c + 32) else c.

Definition upper_char (c : ascii) : ascii :=
  if islower c then ascii_of_N (code c - 32) else c.

Fixpoint lower (s : string) : string :=
  match s with
  | EmptyString => EmptyString
  | String c r => String (lower_char c) (lower r)
  end.

Fixpoint lstrip (s : string) : string :=
  match s with
  | EmptyString => EmptyString
  | String c r => if isspace c then lstrip r else s
  end.

Fixpoint rstrip (s : string) : string :=
  match s with
  | EmptyString => EmptyString
  | String c r =>
      match rstrip r with
      | EmptyString => if isspace c then EmptyString else String c EmptyString
      | r' => String c r'
      end
  end.

(** [s.strip()] *)
Definition strip (s : string) : string := rstrip (lstrip s).

(** [str.title]: a cased character is upper-cased when the previous
    character is not cased and lower-cased when it is. *)
Fixpoint title_from (prev_cased : bool) (s : string) : string :=
  match s with
  | EmptyString => EmptyString
  | String c r =>
      String (if prev_cased then lower_char c else upper_char c)
             (title_from (iscased c) r)
  end.

Definition title (s : string) : string := title_from false s.

(** ["".join(ch for ch in s if p(ch))] *)
Fixpoint sfilter (p : ascii -> bool) (s : string) : string :=
  match s with
  | EmptyString => EmptyString
  | String c r => if p c then String c (sfilter p r) else sfilter p r
  end.

Definition slen (s : string) : nat := String.length s.

(** [s[-n:]] for [n > 0] *)
Definition last_n (n : nat) (s : string) : string :=
  String.substring (slen s - n) n s.

Definition is_empty (s : string) : bool :=
  match s with EmptyString => true | _ => false end.

Definition str_eqb (a b : string) : bool := bool_decide (a = b).

End Text.

Import Text.

(** A cell of a DataFrame read with [dtype=str]: a string, or missing. *)
Definition cell : Type := option string.

(** [str(x)] on a cell that comes straight from the reader: a missing value
    there is the float NaN, which prints as [nan]. *)
Definition py_str (c : cell) : string :=
  match c with
  | Some s => s
  | None => "nan"
  end.

(** The cell-wise [lambda x: x.strip() if isinstance(x, str) else x]. *)
Definition strip_cell (c : cell) : cell := strip <$> c.

(** [s == "" or s.lower() in {"nan", "none", "null"}] *)
Definition is_sentinel (s : string) : bool :=
  is_empty s
  || str_eqb (lower s) "nan" || str_eqb (lower s) "none" || str_eqb (lower s) "null".

(** [df[col].replace({"": None})] on one cell. *)
Definition replace_empty (c : cell) : cell :=
  match c with
  | Some s => if is_empty s then None else Some s
  | None => None
  end.

(** ** Calendar dates *)

Record date := mkdate { year : Z; month : Z; day : Z }.

Global Instance date_eq_dec : EqDecision date.
Proof. solve_decision. Defined.

Definition is_leap (y : Z) : bool :=
  (y mod 4 =? 0) && (negb (y mod 100 =? 0) || (y mod 400 =? 0)).

Definition days_in_month (y m : Z) : Z :=
  if m =? 2 then (if is_leap y then 29 else 28)
  else if (m =? 4) || (m =? 6) || (m =? 9) || (m =? 11) then 30
  else 31.

(** The constructor [datetime.date(y, m, d)], which raises [ValueError]
    outside the calendar. *)
Definition make_date (y m d : Z) : option date :=
  if (1 <=? y) && (y <=? 9999) && (1 <=? m) && (m <=? 12)
     && (1 <=? d) && (d <=? days_in_month y m)
  then Some (mkdate y m d) else None.

(** ** The library interface

    [pd.to_numeric(errors="coerce")], the float column operations and
    [pd.to_datetime(errors="coerce", dayfirst=...)] are pandas code.  The
    cleaners are written against this interface; [num] stands for the
    values of a float column other than NaN, the two infinities included
    ([pd.to_numeric] reads the text [inf]), and NaN is [None].  An
    operation whose result can be NaN on such values returns an option. *)
Class Pandas := {
  num : Type;
  (** [pd.to_numeric(x, errors="coerce")] on one string *)
  to_numeric : string -> option num;
  (** [math.isfinite(x)]: neither of the two infinities *)
  num_finite : num -> bool;
  (** [x > 0] *)
  num_pos : num -> bool;
  (** [x >= 0] *)
  num_nonneg : num -> bool;
  (** [x <= y], the order used to sort a group for its median *)
  num_leb : num -> num -> bool;
  (** mean of the two middle values of an even-sized group; NaN for the
      two infinities of opposite signs *)
  num_mean2 : num -> num -> option num;
  (** [x * y]; NaN for an infinity times zero *)
  num_mul : num -> num -> option num;
  (** [x.round(2)] *)
  num_round2 : num -> num;
  (** [f"{x:.2f}"] *)
  num_fmt2 : num -> string;
  (** The integer part of a finite value, toward zero: what [int(x)]
      returns when [x] is finite. *)
  num_to_int : num -> Z;
  (** The cast of a finite value to [int64], as [astype(int)] does it
      cell by cell. *)
  num_cast_int64 : num -> Z;
  (** [pd.to_datetime(s, errors="coerce", dayfirst=b)], [None] when the
      result is NaT or the call raises *)
  to_datetime : bool -> string -> option date;
  (** the text ["0"], which [fillna("0")] writes, is the number zero *)
  to_numeric_zero :
    exists z, to_numeric "0" = Some z /\ num_finite z = true
              /\ num_to_int z = 0;
  (** among the values other than NaN, [<=] is a total preorder *)
  num_leb_total : forall a b, num_leb a b = true \/ num_leb b a = true;
  num_leb_trans :
    forall a b c, num_leb a b = true -> num_leb b c = true ->
                  num_leb a c = true;
  (** the mean and the product of finite values are not NaN *)
  num_mean2_finite :
    forall a b, num_finite a = true -> num_finite b = true ->
                is_Some (num_mean2 a b);
  num_mul_finite :
    forall a b, num_finite a = true -> num_finite b = true ->
                is_Some (num_mul a b);
  (** a cast stays within [int64], and is the integer part when that
      fits *)
  num_cast_int64_range :
    forall x, - 2 ^ 63 <= num_cast_int64 x < 2 ^ 63;
  num_cast_int64_exact :
    forall x, num_finite x = true ->
              - 2 ^ 63 <= num_to_int x < 2 ^ 63 ->
              num_cast_int64 x = num_to_int x
}.

(** ** Field normalisers *)

Module Strptime.

(** The directives and literals of the entries of [DATE_FORMATS]. *)
Inductive tok := TY | Tm | Td | TLit (c : ascii).

Definition digit_val (c : ascii) : Z := Z.of_N (code c) - 48.

Record fields := mkfields { fY : Z; fm : Z; fd : Z }.

Definition is_in (lo hi : ascii) (c : ascii) : bool :=
  ((code lo <=? code c) && (code c <=? code hi))%N.

(** Two-character alternative [a b] of a directive's pattern. *)
Definition two (pa pb : ascii -> bool) (s : string) : list (Z * string) :=
  match s with
  | String a (String b r) =>
      if pa a && pb b then [(10 * digit_val a + digit_val b, r)] else []
  | _ => []
  end.

(** One-character alternative [[1-9]]. *)
Definition one (s : string) : list (Z * string) :=
  match s with
  | String a r => if is_in "1" "9" a then [(digit_val a, r)] else []
  | _ => []
  end.

(** [%m] is [(1[0-2]|0[1-9]|[1-9])]: the matches, in the order the
    backtracking matcher tries them. *)
Definition match_m (s : string) : list (Z * string) :=
  two (is_in "1" "1") (is_in "0" "2") s
  ++ two (is_in "0" "0") (is_in "1" "9") s
  ++ one s.

(** [%d] is [(3[0-1]|[1-2]\d|0[1-9]|[1-9]| [1-9])]. *)
Definition match_d (s : string) : list (Z * string) :=
  two (is_in "3" "3") (is_in "0" "1") s
  ++ two (is_in "1" "2") isdigit s
  ++ two (is_in "0" "0") (is_in "1" "9") s
  ++ one s
  ++ match s with
     | String " " r => one r
     | _ => []
     end.

(** [%Y] is [(\d\d\d\d)]. *)
Definition match_Y (s : string) : list (Z * string) :=
  match s with
  | String a (String b (String c (String d r))) =>
      if isdigit a && isdigit b && isdigit c && isdigit d
      then [(1000 * digit_val a + 100 * digit_val b
             + 10 * digit_val c + digit_val d, r)]
      else []
  | _ => []
  end.

(** All the ways the compiled format matches a prefix of [s], first
    choice first. *)
Fixpoint matches (fmt : list tok) (acc : fields) (s : string)
  : list (fields * string) :=
  match fmt with
  | [] => [(acc, s)]
  | TY :: k =>
      flat_map (fun '(v, r) => matches k (mkfields v (fm acc) (fd acc)) r)
               (match_Y s)
  | Tm :: k =>
      flat_map (fun '(v, r) => matches k (mkfields (fY acc) v (fd acc)) r)
               (match_m s)
  | Td :: k =>
      flat_map (fun '(v, r) => matches k (mkfields (fY acc) (fm acc) v) r)
               (match_d s)
  | TLit c :: k =>
      match s with
      | String a r => if bool_decide (a = c) then matches k acc r else []
      | EmptyString => []
      end
  end.

(** [datetime.strptime(s, fmt).date()]; [None] stands for [ValueError]:
    no match, unconverted data after the match, or a day that is not in
    the calendar. *)
Definition strptime (s : string) (fmt : list tok) : option date :=
  match matches fmt (mkfields 1900 1 1) s with
  | (f, rest) :: _ =>
      if is_empty rest then make_date (fY f) (fm f) (fd f) else None
  | [] => None
  end.

End Strptime.

Import Strptime.

Definition fmt_Ymd : list tok := [TY; TLit "-"; Tm; TLit "-"; Td].
Definition fmt_dmY_slash : list tok := [Td; TLit "/"; Tm; TLit "/"; TY].
Definition fmt_mdY : list tok := [Tm; TLit "-"; Td; TLit "-"; TY].
Definition fmt_mdY_slash : list tok := [Tm; TLit "/"; Td; TLit "/"; TY].
Definition fmt_dmY : list tok := [Td; TLit "-"; Tm; TLit "-"; TY].

Definition DATE_FORMATS : list (list tok) :=
  [fmt_Ymd; fmt_dmY_slash; fmt_mdY; fmt_mdY_slash; fmt_dmY].

(** The [for fmt in DATE_FORMATS: try: return ... except ValueError: pass]
    loop: [None] when the loop falls through. *)
Fixpoint try_formats (s : string) (fmts : list (list tok)) : option date :=
  match fmts with
  | [] => None
  | fmt :: rest =>
      match strptime s fmt with
      | Some d => Some d
      | None => try_formats s rest
      end
  end.

Section Normalisers.

Context `{P : Pandas}.

Definition parse_date (value : cell) : option date :=
  let s := strip (py_str value) in
  if is_sentinel s then None
  else
    match try_formats s DATE_FORMATS with
    | Some d => Some d
    | None =>
        match to_datetime false s with
        | Some d => Some d
        | None => to_datetime true s
        end
    end.

Definition normalise_phone (phone : cell) : option string :=
  let s := strip (py_str phone) in
  if is_sentinel s then None
  else
    let digits := sfilter isdigit s in
    if (slen digits <? 10)%nat then None
    else Some ("+91-" +:+ last_n 10 digits).

Definition normalise_city (city : cell) : option string :=
  let s := strip (py_str city) in
  if is_sentinel s then None else Some (title s).

(** [CATEGORY_MAP.get(key, s.title() if s else "Unknown")] *)
Definition normalise_category (cat : cell) : string :=
  let s := strip (py_str cat) in
  let key := lower s in
  if str_eqb key "electronics" then "Electronics"
  else if str_eqb key "fashion" then "Fashion"
  else if str_eqb key "groceries" then "Groceries"
  else if is_empty s then "Unknown" else title s.

End Normalisers.

(** ** Reporting structure *)

Record QualityCounts := mkQC {
  rows_read : Z;
  duplicates_removed : Z;
  rows_dropped : Z;
  missing_filled : Z;
  loaded : Z;
  notes : list string
}.

(** [QualityCounts(rows_read=n)] *)
Definition new_qc (n : Z) : QualityCounts := mkQC n 0 0 0 0 [].

Definition add_dropped (k : Z) (qc : QualityCounts) : QualityCounts :=
  mkQC (rows_read qc) (duplicates_removed qc) (rows_dropped qc + k)
       (missing_filled qc) (loaded qc) (notes qc).

Definition add_duplicates (k : Z) (qc : QualityCounts) : QualityCounts :=
  mkQC (rows_read qc) (duplicates_removed qc + k) (rows_dropped qc)
       (missing_filled qc) (loaded qc) (notes qc).

Definition add_filled (k : Z) (qc : QualityCounts) : QualityCounts :=
  mkQC (rows_read qc) (duplicates_removed qc) (rows_dropped qc)
       (missing_filled qc + k) (loaded qc) (notes qc).

Definition set_loaded (k : Z) (qc : QualityCounts) : QualityCounts :=
  mkQC (rows_read qc) (duplicates_removed qc) (rows_dropped qc)
       (missing_filled qc) k (notes qc).

(** [if k: qc.notes.append(note)] *)
Definition note_if (k : Z) (note : string) (qc : QualityCounts) : QualityCounts :=
  if k =? 0 then qc
  else mkQC (rows_read qc) (duplicates_removed qc) (rows_dropped qc)
            (missing_filled qc) (loaded qc) (notes qc ++ [note]).

(** [str(n)] for an integer, as the f-strings of the notes print it. *)
Definition string_of_Z (n : Z) : string :=
  DecimalString.NilZero.string_of_int (Z.to_int n).

Definition len {A} (l : list A) : Z := Z.of_nat (length l).

(** ** DataFrame operations *)

(** [df.drop_duplicates(subset=[key], keep="first")]: a row survives when
    no earlier row has its key; missing keys compare equal. *)
Fixpoint dedup_from {A K} `{EqDecision K} (key : A -> K) (seen : list K)
  (l : list A) : list A :=
  match l with
  | [] => []
  | x :: r =>
      if bool_decide (key x ∈ seen) then dedup_from key seen r
      else x :: dedup_from key (key x :: seen) r
  end.

Definition drop_duplicates {A K} `{EqDecision K} (key : A -> K) (l : list A)
  : list A :=
  dedup_from key [] l.

(** [col.notna()] on one cell. *)
Definition notna {A} (c : option A) : bool :=
  match c with Some _ => true | None => false end.

(** ** Transform: customers *)

Record RawCustomer := mkRawCustomer {
  rc_customer_id : cell;
  rc_first_name : cell;
  rc_last_name : cell;
  rc_email : cell;
  rc_phone : cell;
  rc_city : cell;
  rc_registration_date : cell
}.

(** A customer row once its columns are standardised; the raw identifier is
    still attached. *)
Record CustomerRow := mkCustomerRow {
  cr_customer_id : cell;
  cr_first_name : cell;
  cr_last_name : cell;
  cr_email : cell;
  cr_phone : option string;
  cr_city : option string;
  cr_registration_date : option date
}.

(** The six columns kept for insertion. *)
Record Customer := mkCustomer {
  first_name : cell;
  last_name : cell;
  email : cell;
  phone : option string;
  city : option string;
  registration_date : option date
}.

Global Instance Customer_eq_dec : EqDecision Customer.
Proof. solve_decision. Defined.

Definition customer_columns (r : CustomerRow) : Customer :=
  mkCustomer (cr_first_name r) (cr_last_name r) (cr_email r)
             (cr_phone r) (cr_city r) (cr_registration_date r).

Definition note_missing_email (k : Z) : string :=
  "Dropped " +:+ string_of_Z k
  +:+ " customer rows due to missing email (NOT NULL constraint).".

Section Customers.

Context `{P : Pandas}.

(** The trim of every cell followed by the four column assignments. *)
Definition standardise_customer (r : RawCustomer) : CustomerRow :=
  mkCustomerRow
    (strip_cell (rc_customer_id r))
    (strip_cell (rc_first_name r))
    (strip_cell (rc_last_name r))
    (replace_empty (strip_cell (rc_email r)))
    (normalise_phone (strip_cell (rc_phone r)))
    (normalise_city (strip_cell (rc_city r)))
    (parse_date (strip_cell (rc_registration_date r))).

(** [raw_to_email[str(row["customer_id"]).strip()] = row["email"]] over
    the rows in order; every row that reaches the loop has an email. *)
Definition build_raw_to_email (rows : list CustomerRow) : gmap string string :=
  fold_left
    (fun m r =>
       match cr_email r with
       | Some e => <[strip (py_str (cr_customer_id r)) := e]> m
       | None => m
       end)
    rows ∅.

(** [has_customer_id] is ["customer_id" in df.columns]. *)
Definition transform_customers (has_customer_id : bool) (df : list RawCustomer)
  : list Customer * QualityCounts * gmap string string :=
  let qc := new_qc (len df) in
  let df1 := map standardise_customer df in
  let df2 := List.filter (fun r => notna (cr_email r)) df1 in
  let dropped_missing_email := len df1 - len df2 in
  let qc := add_dropped dropped_missing_email qc in
  let qc := note_if dropped_missing_email
                    (note_missing_email dropped_missing_email) qc in
  let df3 := drop_duplicates cr_email df2 in
  let qc := add_duplicates (len df2 - len df3) qc in
  let raw_to_email :=
    if has_customer_id then build_raw_to_email df3 else ∅ in
  (map customer_columns df3, qc, raw_to_email).

End Customers.

(** ** Frames and tables

    The rows that carry numbers are parameterised by the type [N] of the
    values of a float column; the cleaners use them at [num]. *)

Inductive Source := CUSTOMERS_CSV | PRODUCTS_CSV | SALES_CSV.

Inductive exn :=
| FileNotFoundError (path : Source)
| MySQLError (msg : string)
| ValueError
| OverflowError
| IntCastingNaNError.

Record Table (A : Type) := mkTable { tbl_rows : list (Z * A); tbl_next : Z }.
Arguments mkTable {A} _ _.
Arguments tbl_rows {A} _.
Arguments tbl_next {A} _.

(** [TRUNCATE TABLE t] empties the table and resets its counter. *)
Definition truncated {A} : Table A := mkTable [] 1.

(** [INSERT INTO t ...]: the row gets the next identifier. *)
Definition inserted {A} (x : A) (t : Table A) : Table A :=
  mkTable (tbl_rows t ++ [(tbl_next t, x)]) (tbl_next t + 1).

Section Frames.

Variable N : Type.

(** The four columns of a cleaned product; [price] is a float column,
    where [None] is NaN. *)
Record Product := mkProduct {
  product_name : string;
  category : string;
  price : option N;
  stock_quantity : Z
}.

(** A sales row while it is cleaned: the raw columns and the columns the
    cleaner adds, in the order it adds them. *)
Record SaleRow := mkSaleRow {
  sr_transaction_id : cell;
  sr_customer_id : cell;
  sr_product_id : cell;
  sr_status : cell;
  sr_quantity : cell;
  sr_unit_price : cell;
  sr_order_date : option date;
  sr_quantity_num : option N;
  sr_unit_price_num : option N
}.

(** The nine columns of the cleaned sales frame; the numeric ones are
    float columns, where [None] is NaN. *)
Record Sale := mkSale {
  transaction_id : cell;
  customer_id : cell;
  product_id : cell;
  order_date : option date;
  status : cell;
  quantity : option N;
  unit_price : option N;
  subtotal : option N;
  total_amount : option N
}.

(** A row of [orders], without its identifier. *)
Record Order := mkOrder {
  o_customer_id : Z;
  o_order_date : option date;
  o_total_amount : option N;
  o_status : cell
}.

(** A row of [order_items], without its identifier. *)
Record OrderItem := mkOrderItem {
  i_order_id : Z;
  i_product_id : Z;
  i_quantity : Z;
  i_unit_price : option N;
  i_subtotal : option N
}.

(** The four tables and the number of requests served so far. *)
Record Store := mkStore {
  customers : Table Customer;
  products : Table Product;
  orders : Table Order;
  order_items : Table OrderItem;
  requests : nat
}.

(** What a computation on the store ends with. *)
Inductive result (A : Type) :=
| Ok (a : A) (st : Store)
| Raise (e : exn).

End Frames.

Arguments mkProduct {N} _ _ _ _.
Arguments product_name {N} _.
Arguments category {N} _.
Arguments price {N} _.
Arguments stock_quantity {N} _.
Arguments mkSaleRow {N} _ _ _ _ _ _ _ _ _.
Arguments sr_transaction_id {N} _.
Arguments sr_customer_id {N} _.
Arguments sr_product_id {N} _.
Arguments sr_status {N} _.
Arguments sr_quantity {N} _.
Arguments sr_unit_price {N} _.
Arguments sr_order_date {N} _.
Arguments sr_quantity_num {N} _.
Arguments sr_unit_price_num {N} _.
Arguments mkSale {N} _ _ _ _ _ _ _ _ _.
Arguments transaction_id {N} _.
Arguments customer_id {N} _.
Arguments product_id {N} _.
Arguments order_date {N} _.
Arguments status {N} _.
Arguments quantity {N} _.
Arguments unit_price {N} _.
Arguments subtotal {N} _.
Arguments total_amount {N} _.
Arguments mkOrder {N} _ _ _ _.
Arguments o_customer_id {N} _.
Arguments o_order_date {N} _.
Arguments o_total_amount {N} _.
Arguments o_status {N} _.
Arguments mkOrderItem {N} _ _ _ _ _.
Arguments i_order_id {N} _.
Arguments i_product_id {N} _.
Arguments i_quantity {N} _.
Arguments i_unit_price {N} _.
Arguments i_subtotal {N} _.
Arguments mkStore {N} _ _ _ _ _.
Arguments customers {N} _.
Arguments products {N} _.
Arguments orders {N} _.
Arguments order_items {N} _.
Arguments requests {N} _.
Arguments Ok {N A} _ _.
Arguments Raise {N A} _.

(** ** Transform: products *)

Record RawProduct := mkRawProduct {
  rp_product_id : cell;
  rp_product_name : cell;
  rp_category : cell;
  rp_price : cell;
  rp_stock_quantity : cell
}.

Record RawSale := mkRawSale {
  rs_transaction_id : cell;
  rs_customer_id : cell;
  rs_product_id : cell;
  rs_quantity : cell;
  rs_unit_price : cell;
  rs_transaction_date : cell;
  rs_status : cell
}.

(** [df.map(lambda x: x.strip() if isinstance(x, str) else x)] on a sales
    row. *)
Definition strip_sale (r : RawSale) : RawSale :=
  mkRawSale (strip_cell (rs_transaction_id r)) (strip_cell (rs_customer_id r))
            (strip_cell (rs_product_id r)) (strip_cell (rs_quantity r))
            (strip_cell (rs_unit_price r)) (strip_cell (rs_transaction_date r))
            (strip_cell (rs_status r)).

(** A product row while it is cleaned: name and category are normalised,
    price and stock are still text. *)
Record ProductRow := mkProductRow {
  pr_product_id : cell;
  pr_product_name : string;
  pr_category : string;
  pr_price : cell;
  pr_stock_quantity : cell
}.

Definition set_price (v : cell) (r : ProductRow) : ProductRow :=
  mkProductRow (pr_product_id r) (pr_product_name r) (pr_category r) v
               (pr_stock_quantity r).

Definition note_missing_price (k : Z) : string :=
  "Dropped " +:+ string_of_Z k
  +:+ " product rows due to missing price not recoverable from sales.".

(** [fillna(v)] on one cell. *)
Definition fillna {A} (v : A) (c : option A) : option A :=
  match c with Some x => Some x | None => Some v end.

(** [(col == "")] on one cell. *)
Definition is_empty_cell (c : cell) : bool :=
  match c with Some s => is_empty s | None => false end.

Definition count {A} (p : A -> bool) (l : list A) : Z := len (List.filter p l).

Section Products.

Context `{P : Pandas}.

(** [pd.to_numeric(col, errors="coerce")] on one cell. *)
Definition to_numeric_cell (c : cell) : option num := c ≫= to_numeric.

(** Insertion into a list sorted by [num_leb]. *)
Fixpoint insert_sorted (x : num) (l : list num) : list num :=
  match l with
  | [] => [x]
  | y :: r => if num_leb x y then x :: l else y :: insert_sorted x r
  end.

Definition sort_nums (l : list num) : list num := foldr insert_sorted [] l.

(** The median of a group with its NaN removed; NaN ([None]) for an
    empty group, and when the mean of the two middle values is NaN. *)
Definition median (vals : list num) : option num :=
  let s := sort_nums vals in
  let n := length s in
  if (n =? 0)%nat then None
  else if Nat.odd n then s !! (n / 2)%nat
  else
    match s !! (n / 2 - 1)%nat, s !! (n / 2)%nat with
    | Some a, Some b => num_mean2 a b
    | _, _ => None
    end.

(** The rows of the price source: trimmed, with a product identifier. *)
Definition sales_prices (df_sales : list RawSale) : list RawSale :=
  List.filter
    (fun r => notna (rs_product_id r) && negb (is_empty_cell (rs_product_id r)))
    (map strip_sale df_sales).

(** [groupby("product_id")["unit_price_num"]]: the coerced prices of each
    identifier, in row order. *)
Definition group_prices (rows : list RawSale) : gmap string (list (option num)) :=
  fold_left
    (fun g r =>
       let k := py_str (rs_product_id r) in
       <[k := default [] (g !! k) ++ [to_numeric_cell (rs_unit_price r)]]> g)
    rows ∅.

(** [....median().to_dict()]: NaN values are skipped by the median. *)
Definition median_by_pid (df_sales : list RawSale) : gmap string (option num) :=
  (fun vs => median (omap id vs)) <$> group_prices (sales_prices df_sales).

Definition trim_product (r : RawProduct) : ProductRow :=
  mkProductRow (strip_cell (rp_product_id r))
               (strip (py_str (strip_cell (rp_product_name r))))
               (normalise_category (strip_cell (rp_category r)))
               (strip_cell (rp_price r))
               (strip_cell (rp_stock_quantity r)).

Definition fill_stock (r : ProductRow) : ProductRow :=
  mkProductRow (pr_product_id r) (pr_product_name r) (pr_category r)
               (pr_price r)
               (fillna "0" (replace_empty (pr_stock_quantity r))).

(** The body of the imputation loop for one row of the missing-price
    mask: the row after the assignment, and whether it was filled. *)
Definition impute_price (medians : gmap string (option num)) (r : ProductRow)
  : ProductRow * bool :=
  match pr_price r with
  | Some _ => (r, false)
  | None =>
      let pid := strip (py_str (pr_product_id r)) in
      match mjoin (medians !! pid) with
      | Some med => (set_price (Some (num_fmt2 med)) r, true)
      | None => (r, false)
      end
  end.

Definition build_raw_to_name (rows : list ProductRow) : gmap string string :=
  fold_left
    (fun m r => <[strip (py_str (pr_product_id r)) := pr_product_name r]> m)
    rows ∅.

(** [astype(int)] raises [IntCastingNaNError] on a column that holds a
    value that is not finite; after [fillna(0)] that is an infinity. *)
Definition stock_castable (r : ProductRow) : bool :=
  match to_numeric_cell (pr_stock_quantity r) with
  | Some x => num_finite x
  | None => true
  end.

(** The four columns of a row once the numeric conversions are done:
    [pd.to_numeric] on the price, [pd.to_numeric(...).fillna(0)] and the
    cast to [int64] on the stock. *)
Definition product_columns (r : ProductRow) : Product num :=
  mkProduct (pr_product_name r) (pr_category r)
            (to_numeric_cell (pr_price r))
            (match to_numeric_cell (pr_stock_quantity r) with
             | Some x => num_cast_int64 x
             | None => 0
             end).

Definition blank_price (r : ProductRow) : ProductRow :=
  set_price (replace_empty (pr_price r)) r.

(** The product frame when the imputation loop ends, each row with the
    flag that says whether the loop filled it. *)
Definition impute_prices (df_products : list RawProduct)
  (df_sales : list RawSale) : list (ProductRow * bool) :=
  let df1 := map trim_product df_products in
  let df2 := map fill_stock df1 in
  let df3 := map blank_price df2 in
  let medians := median_by_pid df_sales in
  map (impute_price medians) df3.

(** [inl] is the exception that leaves the function. *)
Definition transform_products (df_products : list RawProduct)
  (df_sales : list RawSale)
  : exn + list (Product num) * QualityCounts * gmap string string :=
  let qc := new_qc (len df_products) in
  let df1 := map trim_product df_products in
  let before_missing_stock :=
    count (fun r => negb (notna (pr_stock_quantity r))) df1
    + count (fun r => is_empty_cell (pr_stock_quantity r)) df1 in
  let qc := add_filled before_missing_stock qc in
  let imputed := impute_prices df_products df_sales in
  let df4 := map fst imputed in
  let filled := count snd imputed in
  let qc := add_filled filled qc in
  let df5 := List.filter (fun r => notna (pr_price r)) df4 in
  let dropped_missing_price := len df4 - len df5 in
  let qc := add_dropped dropped_missing_price qc in
  let qc := note_if dropped_missing_price
                    (note_missing_price dropped_missing_price) qc in
  let df6 := drop_duplicates pr_product_id df5 in
  let qc := add_duplicates (len df5 - len df6) qc in
  let raw_to_name := build_raw_to_name df6 in
  if forallb stock_castable df6
  then inr (map product_columns df6, qc, raw_to_name)
  else inl IntCastingNaNError.

End Products.

(** ** Transform: sales *)

Definition note_missing_ids (k : Z) : string :=
  "Dropped " +:+ string_of_Z k
  +:+ " sales rows due to missing customer_id/product_id.".

Definition note_invalid_sale (k : Z) : string :=
  "Dropped " +:+ string_of_Z k
  +:+ " sales rows due to invalid date/quantity/unit_price.".

Section Sales.

Context `{P : Pandas}.

(** Parse the date, blank identifiers to missing. *)
Definition stage_sale (r : RawSale) : SaleRow num :=
  mkSaleRow (rs_transaction_id r)
            (replace_empty (rs_customer_id r))
            (replace_empty (rs_product_id r))
            (rs_status r) (rs_quantity r) (rs_unit_price r)
            (parse_date (rs_transaction_date r))
            None None.

Definition coerce_sale (r : SaleRow num) : SaleRow num :=
  mkSaleRow (sr_transaction_id r) (sr_customer_id r) (sr_product_id r)
            (sr_status r) (sr_quantity r) (sr_unit_price r) (sr_order_date r)
            (to_numeric_cell (sr_quantity r))
            (to_numeric_cell (sr_unit_price r)).

(** A comparison on a float cell is false on NaN. *)
Definition holds (p : num -> bool) (c : option num) : bool :=
  match c with Some x => p x | None => false end.

Definition has_ids (r : SaleRow num) : bool :=
  notna (sr_customer_id r) && notna (sr_product_id r).

Definition is_valid (r : SaleRow num) : bool :=
  notna (sr_order_date r)
  && notna (sr_quantity_num r) && holds num_pos (sr_quantity_num r)
  && notna (sr_unit_price_num r) && holds num_nonneg (sr_unit_price_num r).

(** [(q * p).round(2)] on float cells. *)
Definition line_total (q p : option num) : option num :=
  match q, p with
  | Some a, Some b => num_round2 <$> num_mul a b
  | _, _ => None
  end.

Definition sale_columns (r : SaleRow num) : Sale num :=
  let sub := line_total (sr_quantity_num r) (sr_unit_price_num r) in
  mkSale (sr_transaction_id r) (sr_customer_id r) (sr_product_id r)
         (sr_order_date r) (sr_status r)
         (sr_quantity_num r) (sr_unit_price_num r) sub sub.

Definition transform_sales (df_sales : list RawSale)
  : list (Sale num) * QualityCounts :=
  let qc := new_qc (len df_sales) in
  let df1 := map strip_sale df_sales in
  let df2 := drop_duplicates rs_transaction_id df1 in
  let qc := add_duplicates (len df1 - len df2) qc in
  let df3 := map stage_sale df2 in
  let df4 := List.filter has_ids df3 in
  let dropped_missing_ids := len df3 - len df4 in
  let qc := add_dropped dropped_missing_ids qc in
  let qc := note_if dropped_missing_ids
                    (note_missing_ids dropped_missing_ids) qc in
  let df5 := map coerce_sale df4 in
  let df6 := List.filter is_valid df5 in
  let dropped_invalid := len df5 - len df6 in
  let qc := add_dropped dropped_invalid qc in
  let qc := note_if dropped_invalid (note_invalid_sale dropped_invalid) qc in
  (map sale_columns df6, qc).

End Sales.

(** ** The store

    The MySQL server is an explicit state: four tables with their
    AUTO_INCREMENT counters.  Every round trip ([connect], [execute],
    [commit], [close]) is a [request]; the oracle [faults] says which
    request, counted from the start of the run, raises
    [mysql.connector.Error] and with what message. *)

Section Load.

Context `{P : Pandas}.

Definition DB (A : Type) : Type := Store num -> result num A.

Definition ret {A} (a : A) : DB A := fun st => Ok a st.

Definition bind {A B} (c : DB A) (k : A -> DB B) : DB B :=
  fun st =>
    match c st with
    | Ok a st' => k a st'
    | Raise e => Raise e
    end.

Definition raise {A} (e : exn) : DB A := fun _ => Raise e.

Notation "x <- c ;; k" := (bind c (fun x => k))
  (at level 100, c at next level, right associativity).
Notation "c ;;; k" := (bind c (fun _ => k))
  (at level 100, right associativity).

Variable faults : nat -> option string.

Definition request : DB unit :=
  fun st =>
    match faults (requests st) with
    | Some msg => Raise (MySQLError msg)
    | None =>
        Ok tt (mkStore (customers st) (products st) (orders st)
                       (order_items st) (S (requests st)))
    end.

(** [cur.execute(stmt)] for a statement whose effect on the tables is
    [upd]. *)
Definition execute (upd : Store num -> Store num) : DB unit :=
  request ;;; (fun st => Ok tt (upd st)).

Definition commit : DB unit := request.

Definition connect_db : DB unit := request.

Definition conn_close : DB unit := request.

Fixpoint repeat_db (n : nat) (c : DB unit) : DB unit :=
  match n with
  | O => ret tt
  | S k => c ;;; repeat_db k c
  end.

(** The four [CREATE TABLE IF NOT EXISTS] statements and the commit. *)
Definition ensure_schema : DB unit :=
  repeat_db 4 (execute (fun st => st)) ;;; commit.

Definition truncate_tables : DB unit :=
  execute (fun st => st) ;;;
  execute (fun st => mkStore (customers st) (products st) (orders st)
                             truncated (requests st)) ;;;
  execute (fun st => mkStore (customers st) (products st) truncated
                             (order_items st) (requests st)) ;;;
  execute (fun st => mkStore (customers st) truncated (orders st)
                             (order_items st) (requests st)) ;;;
  execute (fun st => mkStore truncated (products st) (orders st)
                             (order_items st) (requests st)) ;;;
  execute (fun st => st) ;;;
  commit.

Fixpoint insert_customers_loop (df : list Customer) (rows : Z) : DB Z :=
  match df with
  | [] => ret rows
  | r :: rest =>
      execute (fun st => mkStore (inserted r (customers st)) (products st)
                                 (orders st) (order_items st) (requests st)) ;;;
      insert_customers_loop rest (rows + 1)
  end.

Definition insert_customers (df : list Customer) : DB Z :=
  rows <- insert_customers_loop df 0 ;;
  commit ;;;
  ret rows.

Fixpoint insert_products_loop (df : list (Product num)) (rows : Z) : DB Z :=
  match df with
  | [] => ret rows
  | r :: rest =>
      execute (fun st => mkStore (customers st) (inserted r (products st))
                                 (orders st) (order_items st) (requests st)) ;;;
      insert_products_loop rest (rows + 1)
  end.

Definition insert_products (df : list (Product num)) : DB Z :=
  rows <- insert_products_loop df 0 ;;
  commit ;;;
  ret rows.

(** [{email: int(cid) for (cid, email) in cur.fetchall()}]; the column
    is NOT NULL, so every fetched row has an email. *)
Definition email_index (rows : list (Z * Customer)) : gmap string Z :=
  fold_left
    (fun m '(cid, c) =>
       match email c with
       | Some e => <[e := cid]> m
       | None => m
       end)
    rows ∅.

(** [{name: int(pid) for (pid, name) in cur.fetchall()}] *)
Definition name_index (rows : list (Z * Product num)) : gmap string Z :=
  fold_left (fun m '(pid, p) => <[product_name p := pid]> m) rows ∅.

Definition fetch_customer_email_to_dbid : DB (gmap string Z) :=
  execute (fun st => st) ;;;
  fun st => Ok (email_index (tbl_rows (customers st))) st.

Definition fetch_product_name_to_dbid : DB (gmap string Z) :=
  execute (fun st => st) ;;;
  fun st => Ok (name_index (tbl_rows (products st))) st.

(** [not x or x not in keys] for the result of [dict.get]: the lookup
    fails, or gives the empty string, or gives a name the store does not
    know.  [Some key] is the surrogate key otherwise. *)
Definition resolve (found : option string) (keys : gmap string Z) : option Z :=
  match found with
  | None => None
  | Some x => if is_empty x then None else keys !! x
  end.

(** [r["status"] or "Pending"] *)
Definition status_or_pending (c : cell) : cell :=
  match c with
  | Some s => if is_empty s then Some "Pending" else Some s
  | None => None
  end.

(** [int(r["quantity"])], which raises [ValueError] on NaN and
    [OverflowError] on an infinity. *)
Definition int_of_cell (c : option num) : DB Z :=
  match c with
  | Some q => if num_finite q then ret (num_to_int q) else raise OverflowError
  | None => raise ValueError
  end.

Definition insert_order (o : Order num) : DB Z :=
  execute (fun st => mkStore (customers st) (products st)
                             (inserted o (orders st)) (order_items st)
                             (requests st)) ;;;
  fun st => Ok (tbl_next (orders st) - 1) st.

Definition insert_item (i : OrderItem num) : DB unit :=
  execute (fun st => mkStore (customers st) (products st) (orders st)
                             (inserted i (order_items st)) (requests st)).

Section Reconcile.

Variable raw_customer_to_email : gmap string string.
Variable email_to_db_customer_id : gmap string Z.
Variable raw_product_to_name : gmap string string.
Variable name_to_db_product_id : gmap string Z.

Fixpoint insert_orders_loop (sales : list (Sale num)) (n_orders n_items dropped_fk : Z)
  : DB (Z * Z * Z) :=
  match sales with
  | [] => ret (n_orders, n_items, dropped_fk)
  | r :: rest =>
      let raw_cid := strip (py_str (customer_id r)) in
      let raw_pid := strip (py_str (product_id r)) in
      let email := raw_customer_to_email !! raw_cid in
      let prod_name := raw_product_to_name !! raw_pid in
      match resolve email email_to_db_customer_id with
      | None => insert_orders_loop rest n_orders n_items (dropped_fk + 1)
      | Some db_cid =>
          match resolve prod_name name_to_db_product_id with
          | None => insert_orders_loop rest n_orders n_items (dropped_fk + 1)
          | Some db_pid =>
              order_id <- insert_order
                            (mkOrder db_cid (order_date r) (total_amount r)
                                     (status_or_pending (status r))) ;;
              qty <- int_of_cell (quantity r) ;;
              insert_item (mkOrderItem order_id db_pid qty (unit_price r)
                                       (subtotal r)) ;;;
              insert_orders_loop rest (n_orders + 1) (n_items + 1) dropped_fk
          end
      end
  end.

Definition insert_orders_and_items (sales : list (Sale num)) : DB (Z * Z * Z) :=
  res <- insert_orders_loop sales 0 0 0 ;;
  commit ;;;
  ret res.

End Reconcile.

(** ** Report writer *)

Definition section_lines (title : string) (qc : QualityCounts) : list string :=
  ["== " +:+ title +:+ " ==";
   "Rows read: " +:+ string_of_Z (rows_read qc);
   "Duplicates removed: " +:+ string_of_Z (duplicates_removed qc);
   "Missing values filled: " +:+ string_of_Z (missing_filled qc);
   "Rows dropped: " +:+ string_of_Z (rows_dropped qc);
   "Rows loaded: " +:+ string_of_Z (loaded qc)]
  ++ match notes qc with
     | [] => []
     | ns => "Notes:" :: map (fun n => "- " +:+ n) ns
     end
  ++ [""].

(** The lines [write_report] joins and writes to [REPORT_PATH]; [now] is
    the formatted [datetime.now()]. *)
Definition write_report (now : string)
  (customer_qc product_qc sales_qc : QualityCounts) (extra_notes : list string)
  : list string :=
  ["FlexiMart ETL Data Quality Report"; "Generated on: " +:+ now; ""]
  ++ section_lines "customers_raw.csv" customer_qc
  ++ section_lines "products_raw.csv" product_qc
  ++ section_lines "sales_raw.csv" sales_qc
  ++ match extra_notes with
     | [] => []
     | ns => "== Additional Notes ==" :: map (fun n => "- " +:+ n) ns ++ [""]
     end.

(** ** Main *)

(** What a run of [main] ends with: an exception that leaves [main], or
    the call [write_report(customer_qc, product_qc, sales_qc, extra_notes)]. *)
Inductive Outcome :=
| Raised (e : exn)
| Written (customer_qc product_qc sales_qc : QualityCounts)
          (extra_notes : list string).

(** The three files of [DATA_DIR]; [None] when [path.exists()] is false.
    The customers frame carries ["customer_id" in df.columns]. *)
Record Files := mkFiles {
  customers_raw : option (bool * list RawCustomer);
  products_raw : option (list RawProduct);
  sales_raw : option (list RawSale)
}.

Definition read_csv {A} (path : Source) (file : option A) : exn + A :=
  match file with
  | Some df => inr df
  | None => inl (FileNotFoundError path)
  end.

Definition note_unmapped (k : Z) : string :=
  "Dropped " +:+ string_of_Z k
  +:+ " sales rows during load because customer/product could not be mapped "
  +:+ "(e.g., customers dropped due to missing email).".

(** The [except Error as e] clause: only [mysql.connector.Error] is
    caught. *)
Definition on_error (e : exn)
  (customer_qc product_qc sales_qc : QualityCounts) (extra_notes : list string)
  : Outcome :=
  match e with
  | MySQLError msg =>
      Written customer_qc product_qc sales_qc
              (extra_notes ++ ["MySQL Error: " +:+ msg])
  | _ => Raised e
  end.

Definition main (files : Files) (st0 : Store num) : Outcome :=
  let extra_notes : list string := [] in
  match read_csv CUSTOMERS_CSV (customers_raw files) with
  | inl e => Raised e
  | inr (has_customer_id, customers_raw) =>
  match read_csv PRODUCTS_CSV (products_raw files) with
  | inl e => Raised e
  | inr products_raw =>
  match read_csv SALES_CSV (sales_raw files) with
  | inl e => Raised e
  | inr sales_raw =>
  let '(sales_clean, sales_qc) := transform_sales sales_raw in
  let '(customers_clean, customer_qc, raw_customer_to_email) :=
    transform_customers has_customer_id customers_raw in
  match transform_products products_raw sales_raw with
  | inl e => Raised e
  | inr (products_clean, product_qc, raw_product_to_name) =>
  match (connect_db ;;; ensure_schema ;;; truncate_tables ;;;
         insert_customers customers_clean) st0 with
  | Raise e => on_error e customer_qc product_qc sales_qc extra_notes
  | Ok n st1 =>
  let customer_qc := set_loaded n customer_qc in
  match insert_products products_clean st1 with
  | Raise e => on_error e customer_qc product_qc sales_qc extra_notes
  | Ok n st2 =>
  let product_qc := set_loaded n product_qc in
  match (email_to_db_customer_id <- fetch_customer_email_to_dbid ;;
         name_to_db_product_id <- fetch_product_name_to_dbid ;;
         insert_orders_and_items raw_customer_to_email email_to_db_customer_id
                                 raw_product_to_name name_to_db_product_id
                                 sales_clean) st2 with
  | Raise e => on_error e customer_qc product_qc sales_qc extra_notes
  | Ok (orders_loaded, items_loaded, dropped_fk) st3 =>
  let sales_qc := set_loaded (len sales_clean - dropped_fk) sales_qc in
  let sales_qc :=
    if dropped_fk =? 0 then sales_qc else add_dropped dropped_fk sales_qc in
  let extra_notes :=
    if dropped_fk =? 0 then extra_notes
    else extra_notes ++ [note_unmapped dropped_fk] in
  let extra_notes :=
    extra_notes ++ ["Orders inserted: " +:+ string_of_Z orders_loaded] in
  let extra_notes :=
    extra_notes ++ ["Order items inserted: " +:+ string_of_Z items_loaded] in
  match conn_close st3 with
  | Raise e => on_error e customer_qc product_qc sales_qc extra_notes
  | Ok _ _ => Written customer_qc product_qc sales_qc extra_notes
  end end end end end end end end.

(** The requests of the [try] block, in sequence: what the store is asked
    during a run. *)
Definition load_stage (customers_clean : list Customer)
  (products_clean : list (Product num)) (sales_clean : list (Sale num))
  (raw_customer_to_email raw_product_to_name : gmap string string)
  : DB (Z * Z * (Z * Z * Z)) :=
  connect_db ;;; ensure_schema ;;; truncate_tables ;;;
  n_customers <- insert_customers customers_clean ;;
  n_products <- insert_products products_clean ;;
  email_to_db_customer_id <- fetch_customer_email_to_dbid ;;
  name_to_db_product_id <- fetch_product_name_to_dbid ;;
  res <- insert_orders_and_items raw_customer_to_email email_to_db_customer_id
                                 raw_product_to_name name_to_db_product_id
                                 sales_clean ;;
  conn_close ;;;
  ret (n_customers, n_products, res).

End Load.


(** ** A reference instance of the library interface

    Exact decimal arithmetic on plain decimal literals
    ([[+-]digits[.digits]]), on which it agrees with float64 whenever the
    values involved are exactly representable, with the two infinities,
    written [inf], [+inf] and [-inf]; a cast out of the range of [int64]
    gives the least [int64]; its permissive date parser recognises
    nothing.  It is used to run the cleaners on concrete tables. *)

Module Decimal.

(** The leading digits of [s]: their value after [acc], how many there
    are, and the rest of [s]. *)
Fixpoint read_digits (acc : Z) (n : nat) (s : string) : Z * nat * string :=
  match s with
  | String c r =>
      if isdigit c then read_digits (10 * acc + digit_val c) (S n) r
      else (acc, n, s)
  | EmptyString => (acc, n, s)
  end.

Definition parse_unsigned (s : string) : option Q :=
  let '(ip, n1, rest) := read_digits 0 0 s in
  match rest with
  | EmptyString => if (n1 =? 0)%nat then None else Some (inject_Z ip)
  | String "." r =>
      let '(v, n2, rest') := read_digits ip 0 r in
      if is_empty rest' && negb ((n1 + n2 =? 0)%nat)
      then Some (Qred (v # Pos.of_nat (Z.to_nat (10 ^ Z.of_nat n2))))
      else None
  | _ => None
  end.

Definition parse (s : string) : option Q :=
  match s with
  | String "-" r => (fun q => Qred (- q)) <$> parse_unsigned r
  | String "+" r => parse_unsigned r
  | _ => parse_unsigned s
  end.

(** The integer nearest to [q], ties to even. *)
Definition round_half_even (q : Q) : Z :=
  let f := Qfloor q in
  let r := (q - inject_Z f)%Q in
  match (r ?= 1 # 2)%Q with
  | Lt => f
  | Gt => f + 1
  | Eq => if Z.even f then f else f + 1
  end.

Definition cents (q : Q) : Z := round_half_even (q * inject_Z 100)%Q.

Definition round2 (q : Q) : Q := Qred (cents q # 100).

Definition two_digits (n : Z) : string :=
  (if n <? 10 then "0" else "") +:+ string_of_Z n.

Definition fmt2 (q : Q) : string :=
  let c := Z.abs (cents q) in
  (if Qle_bool 0 q then "" else "-")
  +:+ string_of_Z (c / 100) +:+ "." +:+ two_digits (c mod 100).

Definition to_int (q : Q) : Z := Z.quot (Qnum q) (Zpos (Qden q)).

(** A value of a float column other than NaN. *)
Inductive ext := Fin (q : Q) | PosInf | NegInf.

Definition parse_ext (s : string) : option ext :=
  if str_eqb s "inf" || str_eqb s "+inf" then Some PosInf
  else if str_eqb s "-inf" then Some NegInf
  else Fin <$> parse s.

Definition finite (x : ext) : bool :=
  match x with Fin _ => true | _ => false end.

Definition pos (x : ext) : bool :=
  match x with
  | Fin q => negb (Qle_bool q 0)
  | PosInf => true
  | NegInf => false
  end.

Definition nonneg (x : ext) : bool :=
  match x with
  | Fin q => Qle_bool 0 q
  | PosInf => true
  | NegInf => false
  end.

Definition leb (x y : ext) : bool :=
  match x, y with
  | NegInf, _ => true
  | _, PosInf => true
  | Fin a, Fin b => Qle_bool a b
  | _, _ => false
  end.

Definition mean2 (x y : ext) : option ext :=
  match x, y with
  | Fin a, Fin b => Some (Fin (Qred ((a + b) / inject_Z 2)))
  | PosInf, NegInf | NegInf, PosInf => None
  | PosInf, _ | _, PosInf => Some PosInf
  | NegInf, _ | _, NegInf => Some NegInf
  end.

(** An infinity times a finite value. *)
Definition scale_inf (positive : bool) (q : Q) : option ext :=
  match (q ?= 0)%Q with
  | Eq => None
  | Gt => Some (if positive then PosInf else NegInf)
  | Lt => Some (if positive then NegInf else PosInf)
  end.

Definition mul (x y : ext) : option ext :=
  match x, y with
  | Fin a, Fin b => Some (Fin (Qred (a * b)))
  | PosInf, Fin q | Fin q, PosInf => scale_inf true q
  | NegInf, Fin q | Fin q, NegInf => scale_inf false q
  | PosInf, PosInf | NegInf, NegInf => Some PosInf
  | PosInf, NegInf | NegInf, PosInf => Some NegInf
  end.

Definition round2_ext (x : ext) : ext :=
  match x with Fin q => Fin (round2 q) | _ => x end.

Definition fmt2_ext (x : ext) : string :=
  match x with
  | Fin q => fmt2 q
  | PosInf => "inf"
  | NegInf => "-inf"
  end.

Definition to_int_ext (x : ext) : Z :=
  match x with Fin q => to_int q | _ => 0 end.

Definition cast_int64 (x : ext) : Z :=
  match x with
  | Fin q =>
      let z := to_int q in
      if (- 2 ^ 63 <=? z) && (z <? 2 ^ 63) then z else - 2 ^ 63
  | _ => - 2 ^ 63
  end.

Lemma zero_is_read :
  exists z, parse_ext "0" = Some z /\ finite z = true /\ to_int_ext z = 0.
Proof. exists (Fin (inject_Z 0)). repeat split. Qed.

Lemma leb_total a b : leb a b = true \/ leb b a = true.
Proof.
  destruct a as [x| |], b as [y| |]; cbn; auto.
  destruct (Qlt_le_dec y x) as [H|H].
  - right. apply Qle_bool_iff. now apply Qlt_le_weak.
  - left. now apply Qle_bool_iff.
Qed.

Lemma leb_trans a b c : leb a b = true -> leb b c = true -> leb a c = true.
Proof.
  destruct a as [x| |], b as [y| |], c as [z| |]; cbn; auto;
    try discriminate.
  rewrite !Qle_bool_iff. apply Qle_trans.
Qed.

Lemma mean2_finite a b :
  finite a = true -> finite b = true -> is_Some (mean2 a b).
Proof. destruct a, b; cbn; try discriminate; eauto. Qed.

Lemma mul_finite a b :
  finite a = true -> finite b = true -> is_Some (mul a b).
Proof. destruct a, b; cbn; try discriminate; eauto. Qed.

Lemma cast_int64_range x : - 2 ^ 63 <= cast_int64 x < 2 ^ 63.
Proof.
  unfold cast_int64. destruct x as [q| |]; [|split; reflexivity || discriminate..].
  destruct (_ && _) eqn:E; [|split; reflexivity || discriminate].
  apply andb_true_iff in E as [E1 E2]. split; [now apply Z.leb_le|].
  now apply Z.ltb_lt.
Qed.

Lemma cast_int64_exact x :
  finite x = true -> - 2 ^ 63 <= to_int_ext x < 2 ^ 63 ->
  cast_int64 x = to_int_ext x.
Proof.
  destruct x as [q| |]; try discriminate. intros _ [H1 H2].
  unfold cast_int64, to_int_ext in *.
  apply Z.leb_le in H1. apply Z.ltb_lt in H2. now rewrite H1, H2.
Qed.

Definition instance : Pandas := {|
  num := ext;
  to_numeric := parse_ext;
  num_finite := finite;
  num_pos := pos;
  num_nonneg := nonneg;
  num_leb := leb;
  num_mean2 := mean2;
  num_mul := mul;
  num_round2 := round2_ext;
  num_fmt2 := fmt2_ext;
  num_to_int := to_int_ext;
  num_cast_int64 := cast_int64;
  to_datetime := fun _ _ => None;
  to_numeric_zero := zero_is_read;
  num_leb_total := leb_total;
  num_leb_trans := leb_trans;
  num_mean2_finite := mean2_finite;
  num_mul_finite := mul_finite;
  num_cast_int64_range := cast_int64_range;
  num_cast_int64_exact := cast_int64_exact
|}.

End Decimal.

(** * The rules of the specification, and sample data

    The definitions of this part are not translated from the code: they
    word the rules the properties compare the code with, name the steps of
    a run for the proofs, and give small tables to run the cleaners on. *)

(** The rule as the specification words it: drop what is not a digit, give
    up below ten digits, keep the last ten behind the fixed prefix. *)
Definition phone_rule (text : string) : option string :=
  let digits := sfilter isdigit text in
  if (slen digits <? 10)%nat then None
  else Some ("+91-" +:+ last_n 10 digits).

(** The first present result of a list of attempts. *)
Fixpoint first_success (attempts : list (option date)) : option date :=
  match attempts with
  | [] => None
  | Some d :: _ => Some d
  | None :: rest => first_success rest
  end.

(** The table after [TRUNCATE] and the insertion of [l], row by row. *)
Definition loaded_table {A} (l : list A) : Table A :=
  fold_left (fun t x => inserted x t) l truncated.


Section Rules.

Context `{P : Pandas}.

(** The rule as the specification words it: absent on an empty text or a
    sentinel token; otherwise the five formats in their priority order,
    then the permissive parser month-first, then day-first. *)
Definition parse_date_rule (text : string) : option date :=
  let s := strip text in
  if bool_decide (s = "" \/ lower s = "nan" \/ lower s = "none" \/ lower s = "null")
  then None
  else
    first_success
      [ strptime s [TY; TLit "-"; Tm; TLit "-"; Td];
        strptime s [Td; TLit "/"; Tm; TLit "/"; TY];
        strptime s [Tm; TLit "-"; Td; TLit "-"; TY];
        strptime s [Tm; TLit "/"; Td; TLit "/"; TY];
        strptime s [Td; TLit "-"; Tm; TLit "-"; TY];
        to_datetime false s;
        to_datetime true s ].

(** The acceptance rule as the specification words it, on a trimmed row:
    both identifiers are given, the date parses, the quantity is a number
    above zero and the unit price a number not below zero. *)
Definition sale_accepted (r : RawSale) : bool :=
  negb (is_empty (py_str (rs_customer_id r))) && notna (rs_customer_id r)
  && negb (is_empty (py_str (rs_product_id r))) && notna (rs_product_id r)
  && notna (parse_date (rs_transaction_date r))
  && holds num_pos (to_numeric_cell (rs_quantity r))
  && holds num_nonneg (to_numeric_cell (rs_unit_price r)).

(** The cleaned row of an accepted trimmed row. *)
Definition clean_sale (r : RawSale) : Sale num :=
  sale_columns (coerce_sale (stage_sale r)).

(** One step of [group_prices]. *)
Definition group_step (g : gmap string (list (option num))) (r : RawSale)
  : gmap string (list (option num)) :=
  let k := py_str (rs_product_id r) in
  <[k := default [] (g !! k) ++ [to_numeric_cell (rs_unit_price r)]]> g.

(** The prices the specification aggregates for a product key: the unit
    prices that coerce to a number, over every sales row whose trimmed
    product identifier is that key. *)
Definition referencing_prices (df_sales : list RawSale) (pid : string)
  : list num :=
  omap (fun s =>
          if bool_decide (strip_cell (rs_product_id s) = Some pid)
             && negb (is_empty pid)
          then to_numeric_cell (strip_cell (rs_unit_price s))
          else None)
       df_sales.

(** The price cell of a raw product is absent or empty. *)
Definition price_missing (raw : RawProduct) : bool :=
  match rp_price raw with
  | None => true
  | Some txt => is_empty (strip txt)
  end.

(** The key under which the sales are searched for a product. *)
Definition product_key (raw : RawProduct) : string :=
  strip (py_str (rp_product_id raw)).

(** The median of the referencing sales, to two decimals. *)
Definition imputed_text (df_sales : list RawSale) (raw : RawProduct) : cell :=
  num_fmt2 <$> median (referencing_prices df_sales (product_key raw)).

(** The price text of a product when the imputation loop ends. *)
Definition price_text (df_sales : list RawSale) (raw : RawProduct) : cell :=
  if price_missing raw then imputed_text df_sales raw
  else strip_cell (rp_price raw).

(** The number the stock cell of a raw product stands for: none for an
    absent or empty cell and for a text that is not a number. *)
Definition stock_number (raw : RawProduct) : option num :=
  match rp_stock_quantity raw with
  | None => None
  | Some txt => if is_empty (strip txt) then None else to_numeric (strip txt)
  end.

(** The stock of a product as the specification words it: 0 for an empty
    cell, 0 for a text that is not a number, the number as an [int64]
    otherwise. *)
Definition stock_rule (raw : RawProduct) : Z :=
  match stock_number raw with
  | Some v => num_cast_int64 v
  | None => 0
  end.

(** The stock cell stands for an infinity. *)
Definition stock_infinite (raw : RawProduct) : bool :=
  match stock_number raw with
  | Some v => negb (num_finite v)
  | None => false
  end.

(** How many values of [l] are below [x], and how many are not above it,
    in the order [num_leb]. *)
Definition rank_below (x : num) (l : list num) : nat :=
  length (List.filter (fun v => num_leb v x && negb (num_leb x v)) l).

Definition rank_upto (x : num) (l : list num) : nat :=
  length (List.filter (fun v => num_leb v x) l).

(** [x] is a value of [l] that stands at position [k], counted from 0,
    when [l] is put in increasing order. *)
Definition kth_smallest (k : nat) (x : num) (l : list num) : Prop :=
  In x l /\ (rank_below x l <= k)%nat /\ (k < rank_upto x l)%nat.

(** The median as the specification means it, without reference to a
    sorting procedure: the middle value of an odd number of values, the
    mean of the two middle values of an even number, when that mean is a
    number. *)
Definition is_median (l : list num) (med : num) : Prop :=
  let n := length l in
  if Nat.odd n then kth_smallest (n / 2) med l
  else exists a b,
         kth_smallest (n / 2 - 1) a l /\ kth_smallest (n / 2) b l
         /\ num_mean2 a b = Some med.

(** The stock cell of a raw product is absent or empty. *)
Definition stock_missing (raw : RawProduct) : bool :=
  match rp_stock_quantity raw with
  | None => true
  | Some txt => is_empty (strip txt)
  end.

(** A product row when the imputation loop starts. *)
Definition prepared (raw : RawProduct) : ProductRow :=
  blank_price (fill_stock (trim_product raw)).

(** A product row when the imputation loop ends, with its flag. *)
Definition imputed_row (df_sales : list RawSale) (raw : RawProduct)
  : ProductRow * bool :=
  impute_price (median_by_pid df_sales) (prepared raw).

(** The product frame before the numeric conversions: the rows with a
    price text, one per product identifier. *)
Definition products_frame (df_products : list RawProduct)
  (df_sales : list RawSale) : list ProductRow :=
  drop_duplicates pr_product_id
    (List.filter (fun r => notna (pr_price r))
                 (map fst (impute_prices df_products df_sales))).

(** The ledger of the product cleaner when it returns. *)
Definition products_ledger (df_products : list RawProduct)
  (df_sales : list RawSale) : QualityCounts :=
  let df1 := map trim_product df_products in
  let imputed := impute_prices df_products df_sales in
  let df4 := map fst imputed in
  let df5 := List.filter (fun r => notna (pr_price r)) df4 in
  let df6 := drop_duplicates pr_product_id df5 in
  add_duplicates (len df5 - len df6)
    (note_if (len df4 - len df5) (note_missing_price (len df4 - len df5))
       (add_dropped (len df4 - len df5)
          (add_filled (count snd imputed)
             (add_filled
                (count (fun r => negb (notna (pr_stock_quantity r))) df1
                 + count (fun r => is_empty_cell (pr_stock_quantity r)) df1)
                (new_qc (len df_products)))))).

(** A cell of a float column holds a finite number. *)
Definition finite_cell (c : option num) : bool := holds num_finite c.

(** What [int] raises on a cell; [None] when it returns. *)
Definition refusal (c : option num) : option exn :=
  match c with
  | None => Some ValueError
  | Some q => if num_finite q then None else Some OverflowError
  end.

(** A computation that can only fail with [mysql.connector.Error]. *)
Definition only_db_errors {A} (c : DB A) : Prop :=
  forall st e, c st = Raise e -> exists msg, e = MySQLError msg.

(** The store after one more request. *)
Definition tick (st : Store num) : Store num :=
  mkStore (customers st) (products st) (orders st) (order_items st)
          (S (requests st)).

Section Stages.

Variable faults : nat -> option string.

(** The first part of the [try] block: connection, schema, truncation
    and the customers. *)
Definition stage_customers (customers_clean : list Customer) : DB Z :=
  bind (connect_db faults) (fun _ =>
  bind (ensure_schema faults) (fun _ =>
  bind (truncate_tables faults) (fun _ =>
  insert_customers faults customers_clean))).

(** The third part: the two key maps and the orders. *)
Definition stage_orders (sales_clean : list (Sale num))
  (raw_customer_to_email raw_product_to_name : gmap string string)
  : DB (Z * Z * Z) :=
  bind (fetch_customer_email_to_dbid faults) (fun email_to_db_customer_id =>
  bind (fetch_product_name_to_dbid faults) (fun name_to_db_product_id =>
  insert_orders_and_items faults raw_customer_to_email email_to_db_customer_id
                          raw_product_to_name name_to_db_product_id
                          sales_clean)).

End Stages.

Section Reconciled.

Variable raw_customer_to_email : gmap string string.
Variable email_to_db_customer_id : gmap string Z.
Variable raw_product_to_name : gmap string string.
Variable name_to_db_product_id : gmap string Z.

(** The surrogate keys of a cleaned sale, when both references resolve. *)
Definition reconcile (r : Sale num) : option (Z * Z) :=
  match resolve (raw_customer_to_email !! strip (py_str (customer_id r)))
                email_to_db_customer_id,
        resolve (raw_product_to_name !! strip (py_str (product_id r)))
                name_to_db_product_id with
  | Some db_cid, Some db_pid => Some (db_cid, db_pid)
  | _, _ => None
  end.




(** The rows a fault-free run appends to [orders] and [order_items],
    given the next free identifier of each table. *)
Fixpoint new_rows (next_order next_item : Z) (sales : list (Sale num))
  : list (Z * Order num) * list (Z * OrderItem num) :=
  match sales with
  | [] => ([], [])
  | r :: rest =>
      match reconcile r with
      | Some (db_cid, db_pid) =>
          let rows := new_rows (next_order + 1) (next_item + 1) rest in
          ((next_order,
            mkOrder db_cid (order_date r) (total_amount r)
                    (status_or_pending (status r))) :: fst rows,
           (next_item,
            mkOrderItem next_order db_pid
                        (default 0 (num_to_int <$> quantity r))
                        (unit_price r) (subtotal r)) :: snd rows)
      | None => new_rows next_order next_item rest
      end
  end.

(** The rows that the reconciler skips. *)
Definition unmapped (sales : list (Sale num)) : Z :=
  count (fun r => negb (notna (reconcile r))) sales.



End Reconciled.

End Rules.

(** A freshly created database. *)
Definition empty_store `{P : Pandas} : Store num :=
  mkStore truncated truncated truncated truncated 0.

(** A small customers file: the second row has no email, the third repeats
    the email of the first. *)
Definition demo_customers : list RawCustomer :=
  [ mkRawCustomer (Some "C001") (Some "Asha") (Some "Rao")
      (Some "asha@example.com") (Some "+91 98765-43210") (Some " mumbai ")
      (Some "2024-01-15");
    mkRawCustomer (Some "C002") (Some "Ravi") (Some "Iyer")
      (Some "  ") (Some "98765") None (Some "15/01/2024");
    mkRawCustomer (Some "C003") (Some "Other") (Some "Person")
      (Some "asha@example.com") None (Some "pune") (Some "01-02-2024") ].

(** The cleaned form of the first row of [demo_customers]. *)
Definition demo_customer : Customer :=
  mkCustomer (Some "Asha") (Some "Rao") (Some "asha@example.com")
             (Some "+91-9876543210") (Some "Mumbai")
             (Some (mkdate 2024 1 15)).

(** A small products file: [P200] has no price, [P100] has a negative
    price and a negative stock, [P300] has no price either. *)
Definition demo_products : list RawProduct :=
  [ mkRawProduct (Some "P200") (Some "Widget") (Some "electronics")
                 (Some "") (Some "");
    mkRawProduct (Some "P100") (Some "Kurta") (Some "FASHION")
                 (Some "-5.00") (Some "-3");
    mkRawProduct (Some "P300") (Some "Rice") (Some "groceries")
                 None (Some "7") ].

(** The sales that go with it: three priced sales of [P200], one of them
    written with blanks around the identifier, one sale of [P200] without a
    numeric price, and a sale of [P100] that repeats a transaction
    identifier.  No sale references [P300]. *)
Definition demo_sales : list RawSale :=
  [ mkRawSale (Some "T001") (Some "C001") (Some "P200") (Some "2")
              (Some "10.00") (Some "2024-01-15") (Some "Completed");
    mkRawSale (Some "T002") (Some "C001") (Some "P200") (Some "1")
              (Some "12.00") (Some "15/01/2024") (Some "Completed");
    mkRawSale (Some "T003") (Some "C002") (Some " P200 ") (Some "1")
              (Some "14.00") (Some "01-02-2024") (Some "");
    mkRawSale (Some "T004") (Some "C001") (Some "P200") (Some "3")
              (Some "free") (Some "2024-02-01") (Some "Pending");
    mkRawSale (Some "T004") (Some "C001") (Some "P100") (Some "1")
              (Some "5.00") (Some "2024-02-01") (Some "Pending") ].

(** Three priced sales of [P200] that do not come in the order of their
    prices, and two of them. *)
Definition demo_unsorted_sales : list RawSale :=
  [ mkRawSale (Some "U001") (Some "C001") (Some "P200") (Some "1")
              (Some "14.00") (Some "2024-01-15") (Some "Completed");
    mkRawSale (Some "U002") (Some "C001") (Some "P200") (Some "1")
              (Some "10.00") (Some "2024-01-16") (Some "Completed");
    mkRawSale (Some "U003") (Some "C001") (Some "P200") (Some "1")
              (Some "12.00") (Some "2024-01-17") (Some "Completed") ].

Definition demo_even_sales : list RawSale :=
  [ mkRawSale (Some "E001") (Some "C001") (Some "P200") (Some "1")
              (Some "14.00") (Some "2024-01-15") (Some "Completed");
    mkRawSale (Some "E002") (Some "C001") (Some "P200") (Some "1")
              (Some "10.00") (Some "2024-01-16") (Some "Completed") ].

(** A product whose stock cell reads as an infinity, and one whose stock
    does not fit in 64 bits. *)
Definition demo_infinite_stock : list RawProduct :=
  [ mkRawProduct (Some "P400") (Some "Lamp") (Some "electronics")
                 (Some "5.00") (Some "inf") ].

Definition demo_huge_stock : list RawProduct :=
  [ mkRawProduct (Some "P400") (Some "Lamp") (Some "electronics")
                 (Some "5.00") (Some "99999999999999999999") ].

(** The first row of [demo_sales], trimmed. *)
Definition demo_first_sale : RawSale :=
  mkRawSale (Some "T001") (Some "C001") (Some "P200") (Some "2")
            (Some "10.00") (Some "2024-01-15") (Some "Completed").

(** The three sample files. *)
Definition demo_files : Files :=
  mkFiles (Some (true, demo_customers)) (Some demo_products) (Some demo_sales).

(** The server refuses the connection: the first request fails. *)
Definition connection_refused (n : nat) : option string :=
  match n with
  | O => Some "2003: Can't connect to MySQL server on 'localhost:3306'"
  | S _ => None
  end.

(** The connection is lost while the products are inserted: the request
    of index 16 fails, after the customers are committed and one product
    is inserted. *)
Definition connection_lost (n : nat) : option string :=
  if (n =? 16)%nat
  then Some "2013: Lost connection to MySQL server during query"
  else None.

(** The raw maps and the key maps of a store with one customer and two
    products, one of them stored under the empty name. *)
Definition demo_raw_to_email : gmap string string :=
  {[ "C001" := "asha@example.com" ]}.

Definition demo_email_to_key : gmap string Z :=
  {[ "asha@example.com" := 1 ]}.

Definition demo_raw_to_name : gmap string string :=
  <[ "P200" := "Widget" ]> {[ "P777" := "" ]}.

Definition demo_name_to_key : gmap string Z :=
  <[ "Widget" := 2 ]> {[ "" := 7 ]}.

(** A cleaned sale of the product with the empty name. *)
Definition demo_sale_blank_name : Sale Decimal.ext :=
  mkSale (Some "T900") (Some "C001") (Some "P777") (Some (mkdate 2024 1 15))
         (Some "Completed") (Some (Decimal.Fin (1 # 1)))
         (Some (Decimal.Fin (10 # 1))) (Some (Decimal.Fin (10 # 1)))
         (Some (Decimal.Fin (10 # 1))).

(** A cleaned sale of the other product, with a blank status. *)
Definition demo_sale_widget : Sale Decimal.ext :=
  mkSale (Some "T901") (Some "C001") (Some "P200") (Some (mkdate 2024 1 16))
         (Some "") (Some (Decimal.Fin (2 # 1)))
         (Some (Decimal.Fin (12 # 1))) (Some (Decimal.Fin (24 # 1)))
         (Some (Decimal.Fin (24 # 1))).

(** A cleaned sale of the same product whose quantity is an infinity. *)
Definition demo_sale_infinite : Sale Decimal.ext :=
  mkSale (Some "T902") (Some "C001") (Some "P200") (Some (mkdate 2024 1 16))
         (Some "Pending") (Some Decimal.PosInf) (Some (Decimal.Fin (12 # 1)))
         (Some Decimal.PosInf) (Some Decimal.PosInf).

(** Three files where the stock of the only product reads as an
    infinity, and three files where the quantity of the only sale does. *)
Definition infinite_stock_files : Files :=
  mkFiles (Some (true, demo_customers)) (Some demo_infinite_stock)
          (Some demo_sales).

Definition infinite_quantity_files : Files :=
  mkFiles
    (Some (true, demo_customers)) (Some demo_products)
    (Some [mkRawSale (Some "T001") (Some "C001") (Some "P100") (Some "inf")
                     (Some "5.00") (Some "2024-01-15") (Some "Completed")]).

(** Three files where the only product has a blank name. *)
Definition blank_name_files : Files :=
  mkFiles
    (Some (true,
           [mkRawCustomer (Some "C001") (Some "Asha") (Some "Rao")
                          (Some "asha@example.com") None None None]))
    (Some [mkRawProduct (Some "P777") (Some "  ") (Some "fashion")
                        (Some "10.00") (Some "1")])
    (Some [mkRawSale (Some "T900") (Some "C001") (Some "P777") (Some "1")
                     (Some "10.00") (Some "2024-01-15") (Some "Completed")]).


(** * Further rules

    Rules worded for the properties of the last part. *)

(** Every character of [s] is a digit. *)
Fixpoint all_digits (s : string) : bool :=
  match s with
  | EmptyString => true
  | String c r => isdigit c && all_digits r
  end.

(** The character [title] writes in the place of [c]. *)
Definition title_char (prev_cased : bool) (c : ascii) : ascii :=
  if prev_cased then lower_char c else upper_char c.

(** The character of the decimal digit [k]. *)
Definition digit_char (k : Z) : ascii := ascii_of_N (Z.to_N (48 + k)).

(** [f"{n:02d}"] for [0 <= n <= 99]. *)
Definition pad2 (n : Z) : string :=
  String (digit_char (n / 10)) (String (digit_char (n mod 10)) "").

(** [f"{y:04d}"] for [0 <= y <= 9999]. *)
Definition pad4 (y : Z) : string :=
  String (digit_char (y / 1000))
    (String (digit_char (y / 100 mod 10))
       (String (digit_char (y / 10 mod 10))
          (String (digit_char (y mod 10)) ""))).

(** The two separators of [DATE_FORMATS]. *)
Inductive sep := Dash | Slash.

Definition sep_char (s : sep) : ascii :=
  match s with Dash => "-"%char | Slash => "/"%char end.

Definition other_sep (s : sep) : sep :=
  match s with Dash => Slash | Slash => Dash end.

(** Two two-digit fields and a four-digit year, as [aa-bb-yyyy] or
    [aa/bb/yyyy]. *)
Definition short_date_text (s : sep) (a b y : Z) : string :=
  pad2 a +:+ String (sep_char s) (pad2 b +:+ String (sep_char s) (pad4 y)).

(** [date.isoformat()]: [yyyy-mm-dd]. *)
Definition iso_text (y m d : Z) : string :=
  pad4 y +:+ String "-" (pad2 m +:+ String "-" (pad2 d)).

Definition set_Y (v : Z) (acc : fields) : fields := mkfields v (fm acc) (fd acc).
Definition set_m (v : Z) (acc : fields) : fields := mkfields (fY acc) v (fd acc).
Definition set_d (v : Z) (acc : fields) : fields := mkfields (fY acc) (fm acc) v.

(** No character of the text is white space. *)
Fixpoint no_blank (s : string) : bool :=
  match s with
  | EmptyString => true
  | String c r => negb (isspace c) && no_blank r
  end.

(** The rows of a list with consecutive identifiers from [n] on. *)
Fixpoint number_from {A} (n : Z) (l : list A) : list (Z * A) :=
  match l with
  | [] => []
  | x :: r => (n, x) :: number_from (n + 1) r
  end.

(** The lines a list of notes takes in the report: a header and one line
    per note, or nothing for no note. *)
Definition note_lines (ns : list string) : nat :=
  match ns with
  | [] => 0
  | _ => S (length ns)
  end.

(** * Properties *)

(** ** Text lemmas *)

Ltac ascii_cases c := destruct c as [[] [] [] [] [] [] [] []].

Lemma isspace_not_digit c : isspace c = true -> isdigit c = false.
Proof. ascii_cases c; vm_compute; congruence. Qed.

Lemma isdigit_lower_char c : isdigit (lower_char c) = isdigit c.
Proof. ascii_cases c; reflexivity. Qed.

Lemma lower_char_digit c : isdigit c = true -> lower_char c = c.
Proof. ascii_cases c; vm_compute; congruence. Qed.

Lemma sfilter_lstrip s : sfilter isdigit (lstrip s) = sfilter isdigit s.
Proof.
  induction s as [|c r IH]; simpl; [reflexivity|].
  destruct (isspace c) eqn:Hs.
  - rewrite (isspace_not_digit _ Hs). exact IH.
  - reflexivity.
Qed.

Lemma sfilter_rstrip s : sfilter isdigit (rstrip s) = sfilter isdigit s.
Proof.
  induction s as [|c r IH]; simpl; [reflexivity|].
  destruct (rstrip r) as [|c' r'] eqn:Hr.
  - simpl in IH. rewrite <- IH.
    destruct (isspace c) eqn:Hs.
    + now rewrite (isspace_not_digit _ Hs).
    + simpl. now destruct (isdigit c).
  - simpl. simpl in IH. rewrite <- IH. reflexivity.
Qed.

Lemma sfilter_strip s : sfilter isdigit (strip s) = sfilter isdigit s.
Proof. unfold strip. now rewrite sfilter_rstrip, sfilter_lstrip. Qed.

Lemma sfilter_lower s : sfilter isdigit (lower s) = sfilter isdigit s.
Proof.
  induction s as [|c r IH]; simpl; [reflexivity|].
  rewrite isdigit_lower_char. destruct (isdigit c) eqn:Hd.
  - now rewrite (lower_char_digit _ Hd), IH.
  - exact IH.
Qed.

Lemma str_eqb_eq a b : str_eqb a b = true -> a = b.
Proof. unfold str_eqb. intros H. now apply bool_decide_eq_true in H. Qed.

(** A sentinel text carries no digit. *)
Lemma sentinel_no_digit s : is_sentinel s = true -> sfilter isdigit s = "".
Proof.
  unfold is_sentinel. intros H.
  rewrite !orb_true_iff in H. destruct H as [[[H|H]|H]|H].
  - destruct s; [reflexivity|discriminate].
  - apply str_eqb_eq in H. now rewrite <- sfilter_lower, H.
  - apply str_eqb_eq in H. now rewrite <- sfilter_lower, H.
  - apply str_eqb_eq in H. now rewrite <- sfilter_lower, H.
Qed.

Lemma substring_all n s : n = String.length s -> String.substring 0 n s = s.
Proof.
  revert n. induction s as [|c r IH]; intros n ->; simpl; [reflexivity|].
  now rewrite IH.
Qed.

(** [last_n] cuts a text in two, the second part of the requested size. *)
Lemma last_n_suffix n s :
  (n <= slen s)%nat ->
  exists pre, s = pre +:+ last_n n s /\ slen (last_n n s) = n.
Proof.
  unfold last_n, slen. revert n.
  induction s as [|c r IH]; intros n Hn; simpl in *.
  - assert (n = 0)%nat as -> by lia. exists "". split; reflexivity.
  - destruct (Nat.eq_dec n (S (String.length r))) as [->|Hne].
    + rewrite Nat.sub_diag. exists "". simpl.
      rewrite substring_all by reflexivity. split; reflexivity.
    + destruct (IH n) as [pre [Hpre Hlen]]; [lia|].
      replace (S (String.length r) - n)%nat
        with (S (String.length r - n))%nat by lia.
      exists (String c pre). split; [|exact Hlen].
      change (String c pre +:+ ?x) with (String c (pre +:+ x)).
      now rewrite <- Hpre.
Qed.

(** ** Phone numbers *)

(** C9.  On every text [normalise_phone] keeps the digits only, is absent
    when fewer than ten remain and otherwise gives [+91-] followed by the
    last ten of them (a suffix of the digit string, of length ten);
    ["+91 98765-43210"] becomes ["+91-9876543210"]. *)
Theorem normalise_phone_last_ten_digits :
  forall (P : Pandas) (text : string),
    normalise_phone (Some text) = phone_rule text
    /\ (forall out, phone_rule text = Some out ->
         exists pre last10,
           sfilter isdigit text = pre +:+ last10
           /\ slen last10 = 10%nat
           /\ out = "+91-" +:+ last10)
    /\ (phone_rule text = None <-> (slen (sfilter isdigit text) < 10)%nat)
    /\ normalise_phone (Some "+91 98765-43210") = Some "+91-9876543210".
Proof.
  intros P text. repeat split.
  - unfold normalise_phone, phone_rule. simpl py_str.
    destruct (is_sentinel (strip text)) eqn:Hs.
    + apply sentinel_no_digit in Hs. rewrite sfilter_strip in Hs.
      now rewrite Hs.
    + now rewrite sfilter_strip.
  - unfold phone_rule. intros out H.
    destruct (slen (sfilter isdigit text) <? 10)%nat eqn:Hlen; [discriminate|].
    apply Nat.ltb_ge in Hlen.
    destruct (last_n_suffix 10 _ Hlen) as [pre [Hpre Hl]].
    exists pre, (last_n 10 (sfilter isdigit text)).
    repeat split; try assumption. congruence.
  - unfold phone_rule.
    destruct (slen (sfilter isdigit text) <? 10)%nat eqn:Hlen; [|discriminate].
    intros _. now apply Nat.ltb_lt.
  - unfold phone_rule. intros H. apply Nat.ltb_lt in H. now rewrite H.
Qed.

Lemma normalise_phone_last_ten_digits_witness :
  exists pre last10,
    sfilter isdigit "0091 98765 43210" = pre +:+ last10
    /\ slen last10 = 10%nat
    /\ "+91-9876543210" = "+91-" +:+ last10.
Proof.
  apply (proj1 (proj2 (normalise_phone_last_ten_digits
                         Decimal.instance "0091 98765 43210"))).
  reflexivity.
Defined.

(** ** Dates *)

Section DateRule.

Context `{P : Pandas}.

Lemma is_sentinel_rule s :
  is_sentinel s
  = bool_decide (s = "" \/ lower s = "nan" \/ lower s = "none" \/ lower s = "null").
Proof.
  unfold is_sentinel, str_eqb.
  destruct s as [|c r].
  - cbn [is_empty orb]. symmetry. apply bool_decide_eq_true_2. now left.
  - cbn [is_empty orb].
    apply eq_true_iff_eq.
    rewrite !orb_true_iff, !bool_decide_eq_true.
    intuition discriminate.
Qed.

End DateRule.

(** C3.  [parse_date] is absent on an empty text and on the tokens
    nan/none/null in any case; otherwise it is the first success among
    YYYY-MM-DD, DD/MM/YYYY, MM-DD-YYYY, MM/DD/YYYY, DD-MM-YYYY, the
    permissive parser month-first and the permissive parser day-first, in
    that order; ["01-02-2024"] is the 2nd of January 2024. *)
Theorem parse_date_priority_order :
  forall (P : Pandas) (text : string),
    parse_date (Some text) = parse_date_rule text
    /\ parse_date None = None
    /\ parse_date (Some "") = None
    /\ parse_date (Some "01-02-2024") = Some (mkdate 2024 1 2).
Proof.
  intros P text. split; [|repeat split; reflexivity].
  unfold parse_date, parse_date_rule. simpl py_str.
  rewrite is_sentinel_rule.
  destruct (bool_decide _); [reflexivity|].
  unfold DATE_FORMATS, fmt_Ymd, fmt_dmY_slash, fmt_mdY, fmt_mdY_slash, fmt_dmY.
  simpl try_formats. simpl first_success.
  repeat (match goal with |- context [strptime ?s ?f] =>
            destruct (strptime s f); [reflexivity|] end).
  destruct (to_datetime false (strip text)); [reflexivity|].
  now destruct (to_datetime true (strip text)).
Qed.

(** ** Keep-first deduplication *)

Section Dedup.

Context {A K : Type} `{EqDecision K}.
Variable key : A -> K.

Lemma dedup_from_In seen l x :
  In x (dedup_from key seen l) -> In x l /\ ~ In (key x) seen.
Proof.
  revert seen. induction l as [|y r IH]; intros seen; simpl; [tauto|].
  case_bool_decide as Hy.
  - intros Hx. destruct (IH _ Hx). tauto.
  - intros [<-|Hx].
    + split; [now left|]. now rewrite <- list_elem_of_In.
    + destruct (IH _ Hx) as [H1 H2]. split; [now right|].
      intros Hin. apply H2. now right.
Qed.

Lemma dedup_from_NoDup seen l :
  List.NoDup (map key (dedup_from key seen l)).
Proof.
  revert seen. induction l as [|y r IH]; intros seen; simpl.
  - constructor.
  - case_bool_decide as Hy; [apply IH|].
    simpl. constructor; [|apply IH].
    intros Hin. apply in_map_iff in Hin. destruct Hin as [z [Hz Hin]].
    apply dedup_from_In in Hin. destruct Hin as [_ Hn].
    apply Hn. rewrite Hz. now left.
Qed.

Lemma dedup_from_length seen l :
  (length (dedup_from key seen l) <= length l)%nat.
Proof.
  revert seen. induction l as [|y r IH]; intros seen; simpl; [lia|].
  case_bool_decide; simpl.
  - specialize (IH seen). lia.
  - specialize (IH (key y :: seen)). lia.
Qed.

(** A survivor is the first row of the frame that has its key. *)
Lemma dedup_from_first seen l x :
  In x (dedup_from key seen l) ->
  exists i, nth_error l i = Some x
            /\ forall j y, (j < i)%nat -> nth_error l j = Some y -> key y <> key x.
Proof.
  revert seen. induction l as [|y r IH]; intros seen; simpl; [tauto|].
  case_bool_decide as Hy.
  - intros Hx. destruct (dedup_from_In _ _ _ Hx) as [_ Hns].
    destruct (IH _ Hx) as [i [Hi Hfirst]].
    exists (S i). split; [exact Hi|].
    intros [|j] z Hj Hz; simpl in Hz.
    + injection Hz as <-. intros Heq. apply Hns. rewrite <- Heq.
      now rewrite <- list_elem_of_In.
    + apply (Hfirst j); [lia|exact Hz].
  - intros [<-|Hx].
    + exists 0%nat. split; [reflexivity|]. intros j z Hj. lia.
    + destruct (dedup_from_In _ _ _ Hx) as [_ Hns].
      destruct (IH _ Hx) as [i [Hi Hfirst]].
      exists (S i). split; [exact Hi|].
      intros [|j] z Hj Hz; simpl in Hz.
      * injection Hz as <-. intros Heq. apply Hns. rewrite <- Heq. now left.
      * apply (Hfirst j); [lia|exact Hz].
Qed.

(** Every key of the frame keeps a survivor. *)
Lemma dedup_from_complete seen l x :
  In x l -> ~ In (key x) seen ->
  exists y, In y (dedup_from key seen l) /\ key y = key x.
Proof.
  revert seen. induction l as [|z r IH]; intros seen; simpl; [tauto|].
  intros [->|Hx] Hns.
  - rewrite bool_decide_eq_false_2 by now rewrite list_elem_of_In.
    exists x. split; [now left|reflexivity].
  - case_bool_decide as Hz; [now apply IH|].
    destruct (decide (key z = key x)) as [Heq|Hne].
    + exists z. split; [now left|exact Heq].
    + destruct (IH (key z :: seen) Hx) as [y [Hy Hk]].
      * intros [H1|H1]; [congruence|tauto].
      * exists y. split; [now right|exact Hk].
Qed.

End Dedup.

Lemma filter_length_le {A} (p : A -> bool) (l : list A) :
  (length (List.filter p l) <= length l)%nat.
Proof. induction l as [|x r IH]; simpl; [lia|]. destruct (p x); simpl; lia. Qed.

Lemma nth_error_map_inv {A B} (f : A -> B) l i y :
  nth_error (map f l) i = Some y -> exists x, nth_error l i = Some x /\ y = f x.
Proof.
  rewrite nth_error_map. destruct (nth_error l i) as [x|]; simpl; [|discriminate].
  intros [= <-]. now exists x.
Qed.

(** A row found in a filtered frame sits in the frame, after the same rows
    at least. *)
Lemma nth_error_filter_inv {A} (p : A -> bool) l i x :
  nth_error (List.filter p l) i = Some x ->
  exists k, nth_error l k = Some x /\ p x = true
            /\ forall j y, (j < k)%nat -> nth_error l j = Some y -> p y = true ->
                 exists j', (j' < i)%nat /\ nth_error (List.filter p l) j' = Some y.
Proof.
  revert i. induction l as [|z r IH]; intros i; simpl.
  - destruct i; discriminate.
  - destruct (p z) eqn:Hz.
    + destruct i as [|i]; simpl.
      * intros [= ->]. exists 0%nat. repeat split; try assumption.
        intros j y Hj. lia.
      * intros Hx. destruct (IH _ Hx) as [k [Hk [Hp Hbefore]]].
        exists (S k). repeat split; try assumption.
        intros [|j] y Hj Hy Hpy; simpl in Hy.
        -- injection Hy as <-. exists 0%nat. split; [lia|reflexivity].
        -- destruct (Hbefore j y) as [j' [Hj' Hy']]; [lia|assumption|assumption|].
           exists (S j'). split; [lia|exact Hy'].
    + intros Hx. destruct (IH _ Hx) as [k [Hk [Hp Hbefore]]].
      exists (S k). repeat split; try assumption.
      intros [|j] y Hj Hy Hpy; simpl in Hy.
      * injection Hy as <-. congruence.
      * apply (Hbefore j y); [lia|assumption|assumption].
Qed.

Lemma filter_map_comm {A B} (f : A -> B) (p : B -> bool) (l : list A) :
  List.filter p (map f l) = map f (List.filter (fun x => p (f x)) l).
Proof.
  induction l as [|x r IH]; simpl; [reflexivity|].
  destruct (p (f x)); simpl; now rewrite IH.
Qed.

Lemma filter_filter_and {A} (p q : A -> bool) (l : list A) :
  List.filter p (List.filter q l) = List.filter (fun x => q x && p x) l.
Proof.
  induction l as [|x r IH]; simpl; [reflexivity|].
  destruct (q x); simpl; [destruct (p x); simpl|]; now rewrite IH.
Qed.

Lemma filter_split_length {A} (p : A -> bool) (l : list A) :
  len (List.filter p l) + len (List.filter (fun x => negb (p x)) l) = len l.
Proof.
  unfold len. induction l as [|x r IH]; simpl; [reflexivity|].
  destruct (p x); simpl; lia.
Qed.

Lemma note_if_counts k n qc :
  rows_read (note_if k n qc) = rows_read qc
  /\ duplicates_removed (note_if k n qc) = duplicates_removed qc
  /\ rows_dropped (note_if k n qc) = rows_dropped qc
  /\ missing_filled (note_if k n qc) = missing_filled qc
  /\ loaded (note_if k n qc) = loaded qc.
Proof. unfold note_if. destruct (k =? 0); simpl; tauto. Qed.

Ltac note_if_simpl :=
  repeat match goal with
    | |- context [rows_read (note_if ?k ?n ?qc)] =>
        rewrite (proj1 (note_if_counts k n qc))
    | |- context [duplicates_removed (note_if ?k ?n ?qc)] =>
        rewrite (proj1 (proj2 (note_if_counts k n qc)))
    | |- context [rows_dropped (note_if ?k ?n ?qc)] =>
        rewrite (proj1 (proj2 (proj2 (note_if_counts k n qc))))
    | |- context [missing_filled (note_if ?k ?n ?qc)] =>
        rewrite (proj1 (proj2 (proj2 (proj2 (note_if_counts k n qc)))))
    | |- context [loaded (note_if ?k ?n ?qc)] =>
        rewrite (proj2 (proj2 (proj2 (proj2 (note_if_counts k n qc)))))
    end.

(** ** Customers *)

Section CustomerProperties.

Context `{P : Pandas}.

Lemma replace_empty_Some c e : replace_empty c = Some e -> e <> "".
Proof.
  destruct c as [s|]; simpl; [|discriminate].
  destruct s; simpl; [discriminate|]. intros [= <-]. discriminate.
Qed.

Lemma transform_customers_rows has_id df :
  fst (fst (transform_customers has_id df))
  = map customer_columns
        (drop_duplicates cr_email
           (List.filter (fun r => notna (cr_email r))
                        (map standardise_customer df))).
Proof. reflexivity. Qed.

Lemma transform_customers_conserves has_id df :
  let '(cleaned, qc, _) := transform_customers has_id df in
  rows_read qc = duplicates_removed qc + rows_dropped qc + len cleaned.
Proof.
  unfold transform_customers. cbv zeta.
  cbn [add_duplicates add_dropped rows_read duplicates_removed rows_dropped].
  note_if_simpl. cbn. unfold len. rewrite !length_map. lia.
Qed.

End CustomerProperties.

(** C5.  Every cleaned customer has a non-empty email, no two cleaned
    customers share an email, and a cleaned customer is the standardised
    form of the first row of the input that carries its email. *)
Theorem transform_customers_unique_email_keep_first :
  forall (P : Pandas) (has_customer_id : bool) (df : list RawCustomer),
    let cleaned := fst (fst (transform_customers has_customer_id df)) in
    (forall c, In c cleaned -> exists e, email c = Some e /\ e <> "")
    /\ List.NoDup (map email cleaned)
    /\ (forall c, In c cleaned ->
          exists i r,
            nth_error df i = Some r
            /\ c = customer_columns (standardise_customer r)
            /\ forall j r', (j < i)%nat -> nth_error df j = Some r' ->
                 cr_email (standardise_customer r') <> email c).
Proof.
  intros P has_id df cleaned. subst cleaned.
  rewrite transform_customers_rows. unfold drop_duplicates.
  set (df1 := map standardise_customer df).
  set (df2 := List.filter (fun r => notna (cr_email r)) df1).
  assert (Hemail : forall x, In x (dedup_from cr_email [] df2) ->
                     exists e, cr_email x = Some e /\ e <> ""
                               /\ exists r, In r df /\ x = standardise_customer r).
  { intros x Hx. apply dedup_from_In in Hx. destruct Hx as [Hx _].
    apply filter_In in Hx. destruct Hx as [Hx Hn].
    apply in_map_iff in Hx. destruct Hx as [r [<- Hr]].
    destruct (cr_email (standardise_customer r)) as [e|] eqn:He; [|discriminate].
    exists e. repeat split; [|now exists r].
    simpl in He. now apply replace_empty_Some in He. }
  repeat split.
  - intros c Hc. apply in_map_iff in Hc. destruct Hc as [x [<- Hx]].
    destruct (Hemail x Hx) as [e [He [Hne _]]]. now exists e.
  - rewrite map_map. change (fun x => email (customer_columns x)) with cr_email.
    apply dedup_from_NoDup.
  - intros c Hc. apply in_map_iff in Hc. destruct Hc as [x [<- Hx]].
    destruct (Hemail x Hx) as [e [He _]].
    destruct (dedup_from_first _ _ _ _ Hx) as [i2 [Hi2 Hfirst]].
    destruct (nth_error_filter_inv _ _ _ _ Hi2) as [k [Hk [_ Hbefore]]].
    destruct (nth_error_map_inv _ _ _ _ Hk) as [r [Hr ->]].
    exists k, r. repeat split; [exact Hr|].
    intros j r' Hj Hr'. cbn [email customer_columns].
    assert (Hj1 : nth_error df1 j = Some (standardise_customer r')).
    { unfold df1. now rewrite nth_error_map, Hr'. }
    destruct (notna (cr_email (standardise_customer r'))) eqn:Hp.
    + destruct (Hbefore j _ Hj Hj1 Hp) as [j' [Hj' Hy]].
      now apply (Hfirst j').
    + rewrite He. destruct (cr_email (standardise_customer r')); [discriminate|].
      discriminate.
Qed.

Lemma transform_customers_unique_email_keep_first_witness :
  exists i r,
    nth_error demo_customers i = Some r
    /\ demo_customer
       = customer_columns (standardise_customer (P := Decimal.instance) r)
    /\ forall j r', (j < i)%nat -> nth_error demo_customers j = Some r' ->
         cr_email (standardise_customer (P := Decimal.instance) r')
         <> email demo_customer.
Proof.
  apply (proj2 (proj2 (transform_customers_unique_email_keep_first
                         Decimal.instance true demo_customers))
           demo_customer).
  vm_compute. left. reflexivity.
Defined.

(** ** Sales *)

Section SaleProperties.

Context `{P : Pandas}.

Lemma notna_replace_empty c :
  notna (replace_empty c) = negb (is_empty (py_str c)) && notna c.
Proof. destruct c as [[|a s]|]; reflexivity. Qed.

Lemma sale_accepted_stages r :
  has_ids (stage_sale r) && is_valid (coerce_sale (stage_sale r))
  = sale_accepted r.
Proof.
  unfold has_ids, is_valid, sale_accepted, coerce_sale, stage_sale.
  cbn [sr_customer_id sr_product_id sr_order_date sr_quantity_num
       sr_unit_price_num sr_quantity sr_unit_price].
  rewrite !notna_replace_empty.
  destruct (to_numeric_cell (rs_quantity r)) as [q|];
    destruct (to_numeric_cell (rs_unit_price r)) as [u|]; simpl;
    rewrite ?andb_true_r, ?andb_false_r, ?andb_assoc; reflexivity.
Qed.

Lemma transform_sales_rows df :
  fst (transform_sales df)
  = map clean_sale
        (List.filter sale_accepted
           (drop_duplicates rs_transaction_id (map strip_sale df))).
Proof.
  unfold transform_sales. cbv zeta. cbn [fst].
  rewrite (filter_map_comm stage_sale), (filter_map_comm coerce_sale).
  rewrite filter_map_comm, filter_filter_and, !map_map.
  f_equal. apply filter_ext. intros r. apply sale_accepted_stages.
Qed.

Lemma transform_sales_dropped df :
  rows_dropped (snd (transform_sales df))
  = len (List.filter (fun r => negb (sale_accepted r))
           (drop_duplicates rs_transaction_id (map strip_sale df))).
Proof.
  pose proof (transform_sales_rows df) as Hrows.
  unfold transform_sales in *. cbv zeta in *. cbn [fst snd] in *.
  note_if_simpl. cbn [add_dropped rows_dropped]. note_if_simpl.
  cbn [add_dropped add_duplicates new_qc rows_dropped].
  set (kept := drop_duplicates rs_transaction_id (map strip_sale df)) in *.
  pose proof (filter_split_length sale_accepted kept) as Hsplit.
  apply (f_equal (@length _)) in Hrows. rewrite !length_map in Hrows.
  unfold len in *. rewrite !length_map. lia.
Qed.

Lemma transform_sales_conserves df :
  let '(cleaned, qc) := transform_sales df in
  rows_read qc = duplicates_removed qc + rows_dropped qc + len cleaned.
Proof.
  unfold transform_sales. cbv zeta.
  note_if_simpl. cbn [add_dropped rows_dropped rows_read duplicates_removed].
  note_if_simpl. cbn. unfold len. rewrite !length_map.
  pose proof (dedup_from_length rs_transaction_id [] (map strip_sale df)) as H.
  unfold drop_duplicates. rewrite length_map in H. lia.
Qed.

Lemma clean_sale_valid r :
  sale_accepted r = true ->
  exists q u d,
    quantity (clean_sale r) = Some q /\ num_pos q = true
    /\ unit_price (clean_sale r) = Some u /\ num_nonneg u = true
    /\ order_date (clean_sale r) = Some d
    /\ subtotal (clean_sale r) = num_round2 <$> num_mul q u
    /\ (num_finite q = true -> num_finite u = true ->
        is_Some (subtotal (clean_sale r)))
    /\ total_amount (clean_sale r) = subtotal (clean_sale r).
Proof.
  unfold sale_accepted, clean_sale, sale_columns, coerce_sale, stage_sale.
  cbn [sr_order_date sr_quantity_num sr_unit_price_num sr_quantity
       sr_unit_price quantity unit_price order_date subtotal total_amount].
  rewrite !andb_true_iff. intros [[[_ Hd] Hq] Hu].
  destruct (parse_date (rs_transaction_date r)) as [d|]; [|discriminate].
  destruct (to_numeric_cell (rs_quantity r)) as [q|]; [|discriminate].
  destruct (to_numeric_cell (rs_unit_price r)) as [u|]; [|discriminate].
  exists q, u, d. cbn [line_total holds notna] in *.
  repeat split; try assumption.
  intros Hfq Hfu. destruct (num_mul_finite q u Hfq Hfu) as [t ->].
  cbn. eauto.
Qed.

End SaleProperties.

(** C6.  Every cleaned sale has a quantity above zero, a unit price not
    below zero, a date, a subtotal equal to the rounded product (a number
    whenever quantity and price are finite; the product of an infinity and
    zero is NaN, and so is its rounding) and a total equal to the
    subtotal; the cleaned sales are exactly the accepted rows of the
    deduplicated input, and [rows_dropped] counts the others. *)
Theorem transform_sales_valid_rows :
  forall (P : Pandas) (df : list RawSale),
    let cleaned := fst (transform_sales df) in
    let qc := snd (transform_sales df) in
    let kept := drop_duplicates rs_transaction_id (map strip_sale df) in
    (forall s, In s cleaned ->
       exists q u d,
         quantity s = Some q /\ num_pos q = true
         /\ unit_price s = Some u /\ num_nonneg u = true
         /\ order_date s = Some d
         /\ subtotal s = num_round2 <$> num_mul q u
         /\ (num_finite q = true -> num_finite u = true ->
             is_Some (subtotal s))
         /\ total_amount s = subtotal s)
    /\ cleaned = map clean_sale (List.filter sale_accepted kept)
    /\ rows_dropped qc = len (List.filter (fun r => negb (sale_accepted r)) kept).
Proof.
  intros P df cleaned qc kept. subst cleaned qc kept.
  rewrite transform_sales_rows. repeat split.
  - intros s Hs. apply in_map_iff in Hs. destruct Hs as [r [<- Hr]].
    apply filter_In in Hr. destruct Hr as [_ Hacc].
    now apply clean_sale_valid.
  - apply transform_sales_dropped.
Qed.

Lemma transform_sales_valid_rows_witness :
  exists q u d,
    quantity (clean_sale (P := Decimal.instance) demo_first_sale) = Some q
    /\ num_pos q = true
    /\ unit_price (clean_sale (P := Decimal.instance) demo_first_sale) = Some u
    /\ num_nonneg u = true
    /\ order_date (clean_sale (P := Decimal.instance) demo_first_sale) = Some d
    /\ subtotal (clean_sale (P := Decimal.instance) demo_first_sale)
       = num_round2 <$> num_mul q u
    /\ (num_finite q = true -> num_finite u = true ->
        is_Some (subtotal (clean_sale (P := Decimal.instance)
                             demo_first_sale)))
    /\ total_amount (clean_sale (P := Decimal.instance) demo_first_sale)
       = subtotal (clean_sale (P := Decimal.instance) demo_first_sale).
Proof.
  apply (proj1 (transform_sales_valid_rows Decimal.instance demo_sales)).
  vm_compute. left. reflexivity.
Defined.

(** ** Products *)

Section ProductProperties.

Context `{P : Pandas}.

(** What [groupby] holds under a key: the coerced prices of the rows with
    that key, in row order. *)
Lemma group_fold_lookup rows g k :
  fold_left group_step rows g !! k
  = match map (fun r => to_numeric_cell (rs_unit_price r))
              (List.filter (fun r => bool_decide (py_str (rs_product_id r) = k))
                           rows) with
    | [] => g !! k
    | vs => Some (default [] (g !! k) ++ vs)
    end.
Proof.
  revert g. induction rows as [|r rest IH]; intros g; [reflexivity|].
  cbn [fold_left List.filter]. rewrite IH. unfold group_step at 1 2.
  case_bool_decide as Hk.
  - rewrite Hk, lookup_insert_eq. cbn [map from_option id].
    destruct (map _ (List.filter _ rest)) as [|v vs]; [reflexivity|].
    now rewrite <- app_assoc.
  - now rewrite lookup_insert_ne.
Qed.

Lemma median_nil : median [] = None.
Proof. reflexivity. Qed.

Lemma omap_cons {A B} (f : A -> option B) x l :
  omap f (x :: l)
  = match f x with Some y => y :: omap f l | None => omap f l end.
Proof. reflexivity. Qed.

Lemma sales_prices_group df_sales pid :
  omap id
    (map (fun r => to_numeric_cell (rs_unit_price r))
         (List.filter (fun r => bool_decide (py_str (rs_product_id r) = pid))
                      (sales_prices df_sales)))
  = referencing_prices df_sales pid.
Proof.
  unfold sales_prices, referencing_prices.
  induction df_sales as [|s rest IH]; [reflexivity|].
  rewrite (omap_cons _ s rest), <- IH. clear IH.
  cbn [map List.filter].
  assert (Hp : rs_product_id (strip_sale s) = strip_cell (rs_product_id s))
    by reflexivity.
  assert (Hu : rs_unit_price (strip_sale s) = strip_cell (rs_unit_price s))
    by reflexivity.
  revert Hp Hu. generalize (strip_sale s). intros s' Hp Hu.
  rewrite Hp. destruct (strip_cell (rs_product_id s)) as [[|a t]|] eqn:Hx;
    cbn [notna is_empty_cell is_empty negb andb].
  - destruct pid as [|b u].
    + now rewrite andb_false_r.
    + rewrite bool_decide_eq_false_2 by congruence. reflexivity.
  - cbn [List.filter]. rewrite Hp, <- Hu. cbn [py_str].
    destruct (decide (String a t = pid)) as [<-|Hne].
    + rewrite !bool_decide_eq_true_2 by reflexivity.
      cbn [is_empty negb andb map]. rewrite omap_cons. unfold id at 1.
      now destruct (to_numeric_cell (rs_unit_price s')).
    + rewrite !bool_decide_eq_false_2 by congruence. reflexivity.
  - rewrite bool_decide_eq_false_2 by discriminate. reflexivity.
Qed.

(** [median_by_pid.get(pid)], when it is a number, is the median of the
    prices that reference [pid]. *)
Lemma median_by_pid_lookup df_sales pid :
  mjoin (median_by_pid df_sales !! pid)
  = median (referencing_prices df_sales pid).
Proof.
  unfold median_by_pid, group_prices. rewrite lookup_fmap.
  change (fold_left _ (sales_prices df_sales) ∅)
    with (fold_left group_step (sales_prices df_sales) ∅).
  rewrite group_fold_lookup, lookup_empty, <- sales_prices_group.
  destruct (map _ (List.filter _ (sales_prices df_sales))) as [|v vs];
    reflexivity.
Qed.

End ProductProperties.

(** ** The median is the middle value *)

Section MedianSpec.

Context `{P : Pandas}.

Lemma num_leb_refl x : num_leb x x = true.
Proof. now destruct (num_leb_total x x). Qed.

Lemma insert_sorted_perm x l : Permutation (insert_sorted x l) (x :: l).
Proof.
  induction l as [|y r IH]; cbn [insert_sorted]; [reflexivity|].
  destruct (num_leb x y); [reflexivity|].
  rewrite IH. apply perm_swap.
Qed.

Lemma sort_nums_perm l : Permutation (sort_nums l) l.
Proof.
  induction l as [|x r IH]; [reflexivity|].
  unfold sort_nums in *. cbn [foldr].
  rewrite insert_sorted_perm. now apply perm_skip.
Qed.

Lemma sort_nums_length l : length (sort_nums l) = length l.
Proof. apply Permutation_length, sort_nums_perm. Qed.

Lemma insert_sorted_sorted x l :
  StronglySorted (fun a b => num_leb a b = true) l ->
  StronglySorted (fun a b => num_leb a b = true) (insert_sorted x l).
Proof.
  induction l as [|y r IH]; intros Hs; cbn [insert_sorted].
  - repeat constructor.
  - apply StronglySorted_inv in Hs as [Hr Hy].
    destruct (num_leb x y) eqn:Hxy.
    + constructor; [now constructor|].
      constructor; [exact Hxy|].
      eapply List.Forall_impl; [|exact Hy].
      intros v Hv. exact (num_leb_trans _ _ _ Hxy Hv).
    + constructor; [now apply IH|].
      eapply Permutation_Forall; [symmetry; apply insert_sorted_perm|].
      constructor; [|exact Hy].
      destruct (num_leb_total x y) as [H|H]; [congruence|exact H].
Qed.

Lemma sort_nums_sorted l :
  StronglySorted (fun a b => num_leb a b = true) (sort_nums l).
Proof.
  induction l as [|x r IH]; [constructor|].
  unfold sort_nums in *. cbn [foldr]. now apply insert_sorted_sorted.
Qed.

Lemma filter_length_perm {A} (p : A -> bool) l l' :
  Permutation l l' ->
  length (List.filter p l) = length (List.filter p l').
Proof.
  induction 1 as [|x l l' _ IH|x y l|l l' l'' _ IH1 _ IH2];
    cbn [List.filter]; [reflexivity| | |congruence].
  - destruct (p x); cbn [length]; congruence.
  - destruct (p x), (p y); reflexivity.
Qed.

Lemma sorted_middle s1 x s2 :
  StronglySorted (fun a b => num_leb a b = true) (s1 ++ x :: s2) ->
  List.Forall (fun v => num_leb v x = true) s1
  /\ List.Forall (fun v => num_leb x v = true) s2.
Proof.
  induction s1 as [|y r IH]; cbn [app]; intros Hs.
  - apply StronglySorted_inv in Hs as [_ Hx]. split; [constructor|exact Hx].
  - apply StronglySorted_inv in Hs as [Hr Hy].
    destruct (IH Hr) as [H1 H2]. split; [|exact H2].
    constructor; [|exact H1].
    apply List.Forall_app in Hy as [_ Hy].
    now apply List.Forall_cons_iff in Hy as [Hy _].
Qed.

Lemma filter_all {A} (p : A -> bool) l :
  List.Forall (fun v => p v = true) l -> List.filter p l = l.
Proof.
  induction 1 as [|x r Hx _ IH]; cbn [List.filter]; [reflexivity|].
  now rewrite Hx, IH.
Qed.

Lemma filter_none {A} (p : A -> bool) l :
  List.Forall (fun v => p v = false) l -> List.filter p l = [].
Proof.
  induction 1 as [|x r Hx _ IH]; cbn [List.filter]; [reflexivity|].
  now rewrite Hx, IH.
Qed.

(** In a sorted list the value at position [k] has rank [k]. *)
Lemma sorted_lookup_kth s k x :
  StronglySorted (fun a b => num_leb a b = true) s ->
  s !! k = Some x -> kth_smallest k x s.
Proof.
  intros Hs Hk.
  pose proof (take_drop_middle s k x Hk) as Hsplit.
  assert (Hlen : length (take k s) = k).
  { apply length_take_le. apply lookup_lt_Some in Hk. lia. }
  rewrite <- Hsplit in Hs |- *.
  destruct (sorted_middle _ _ _ Hs) as [H1 H2].
  revert Hlen H1 H2. generalize (take k s) (drop (S k) s).
  intros s1 s2 Hlen H1 H2.
  split; [apply in_or_app; right; now left|].
  unfold rank_below, rank_upto.
  rewrite !List.filter_app. cbn [List.filter].
  rewrite (num_leb_refl x). cbn [andb negb].
  rewrite (filter_all (fun v => num_leb v x) s1 H1).
  rewrite (filter_none (fun v => num_leb v x && negb (num_leb x v)) s2).
  2:{ eapply List.Forall_impl; [|exact H2].
      intros v Hv. cbv beta. rewrite Hv. apply andb_false_r. }
  rewrite !length_app. cbn [length].
  pose proof (filter_length_le
                (fun v => num_leb v x && negb (num_leb x v)) s1).
  lia.
Qed.

Lemma kth_smallest_perm k x l l' :
  Permutation l l' -> kth_smallest k x l -> kth_smallest k x l'.
Proof.
  intros Hp (Hin & Hb & Hu). unfold kth_smallest, rank_below, rank_upto in *.
  rewrite <- (filter_length_perm _ l l' Hp).
  rewrite <- (filter_length_perm _ l l' Hp).
  split; [|split; assumption].
  eapply Permutation_in; eassumption.
Qed.

(** The two middle positions of a list that is not empty. *)
Lemma middle_lookups l :
  l <> [] ->
  exists a b,
    sort_nums l !! (length l / 2 - 1)%nat = Some a
    /\ sort_nums l !! (length l / 2)%nat = Some b.
Proof.
  intros Hne.
  assert (Hpos : (0 < length l)%nat)
    by (destruct l; [contradiction|cbn; lia]).
  assert (H2 : (length l / 2 < length (sort_nums l))%nat)
    by (rewrite sort_nums_length; apply Nat.div_lt; lia).
  assert (H1 : (length l / 2 - 1 < length (sort_nums l))%nat) by lia.
  apply lookup_lt_is_Some in H2 as [b Hb].
  apply lookup_lt_is_Some in H1 as [a Ha].
  now exists a, b.
Qed.

(** What [median] computes is the median. *)
Lemma median_is_median l med : median l = Some med -> is_median l med.
Proof.
  unfold median, is_median. rewrite sort_nums_length.
  destruct (length l =? 0)%nat eqn:E; [discriminate|].
  destruct (Nat.odd (length l)).
  - intros Hk. apply (kth_smallest_perm _ _ _ _ (sort_nums_perm l)).
    apply sorted_lookup_kth; [apply sort_nums_sorted|exact Hk].
  - destruct (sort_nums l !! (length l / 2 - 1)%nat) as [a|] eqn:Ha;
      [|discriminate].
    destruct (sort_nums l !! (length l / 2)%nat) as [b|] eqn:Hb;
      [|discriminate].
    intros Hm. exists a, b. split; [|split; [|exact Hm]];
      apply (kth_smallest_perm _ _ _ _ (sort_nums_perm l));
      (apply sorted_lookup_kth; [apply sort_nums_sorted|assumption]).
Qed.

(** There is no median only for no value, or when the mean of the two
    middle values is NaN. *)
Lemma median_None l :
  median l = None ->
  l = []
  \/ (Nat.odd (length l) = false
      /\ exists a b,
           kth_smallest (length l / 2 - 1) a l
           /\ kth_smallest (length l / 2) b l
           /\ num_mean2 a b = None).
Proof.
  destruct l as [|v vs] eqn:El; [now left|].
  assert (Hne : l <> []) by (rewrite El; discriminate).
  rewrite <- El in *. clear El v vs. intros Hm. right.
  destruct (middle_lookups l Hne) as (a & b & Ha & Hb).
  unfold median in Hm. rewrite sort_nums_length in Hm.
  destruct (length l =? 0)%nat eqn:E0.
  { apply Nat.eqb_eq in E0. destruct l; [contradiction|discriminate]. }
  destruct (Nat.odd (length l)) eqn:Hodd.
  - congruence.
  - split; [reflexivity|].
    rewrite Ha, Hb in Hm. exists a, b.
    split; [|split; [|exact Hm]];
      apply (kth_smallest_perm _ _ _ _ (sort_nums_perm l));
      (apply sorted_lookup_kth; [apply sort_nums_sorted|assumption]).
Qed.

(** Finite values always have a median. *)
Lemma median_finite l :
  l <> [] -> List.Forall (fun v => num_finite v = true) l ->
  is_Some (median l).
Proof.
  intros Hne Hfin. destruct (median l) as [m|] eqn:Hm; [eauto|].
  apply median_None in Hm as [->|(_ & a & b & (Ha & _) & (Hb & _) & Hab)];
    [contradiction|].
  rewrite List.Forall_forall in Hfin.
  destruct (num_mean2_finite a b (Hfin a Ha) (Hfin b Hb)) as [m Hm'].
  congruence.
Qed.

End MedianSpec.

Section ProductRows.

Context `{P : Pandas}.

Lemma impute_prices_map df_products df_sales :
  impute_prices df_products df_sales = map (imputed_row df_sales) df_products.
Proof. unfold impute_prices. cbv zeta. now rewrite !map_map. Qed.

Lemma strip_idem_lstrip s : lstrip (rstrip (lstrip s)) = rstrip (lstrip s).
Proof.
  assert (Hl : forall t c r, lstrip t = String c r -> isspace c = false).
  { induction t as [|a t IH]; simpl; [discriminate|].
    intros c r. destruct (isspace a) eqn:Ha; [apply IH|]. now intros [= <- _]. }
  assert (Hr : forall t c r, rstrip t = String c r -> exists r', t = String c r').
  { intros [|a t] c r; simpl; [discriminate|].
    destruct (rstrip t); [destruct (isspace a); [discriminate|]|];
      intros [= <- _]; eauto. }
  destruct (rstrip (lstrip s)) as [|c r] eqn:Hs; [reflexivity|].
  destruct (Hr _ _ _ Hs) as [r' Hr']. apply Hl in Hr'.
  simpl. now rewrite Hr'.
Qed.

Lemma rstrip_idem s : rstrip (rstrip s) = rstrip s.
Proof.
  induction s as [|c r IH]; [reflexivity|]. simpl.
  destruct (rstrip r) as [|a t] eqn:Hr.
  - destruct (isspace c) eqn:Hc; [reflexivity|]. simpl. now rewrite Hc.
  - simpl in *. rewrite IH. reflexivity.
Qed.

(** [strip] is idempotent: the second trim of a product identifier does
    nothing. *)
Lemma strip_idem s : strip (strip s) = strip s.
Proof. unfold strip. now rewrite strip_idem_lstrip, rstrip_idem. Qed.

Lemma prepared_key raw :
  strip (py_str (pr_product_id (prepared raw))) = product_key raw.
Proof.
  unfold prepared, product_key. cbn.
  destruct (rp_product_id raw) as [x|]; cbn; [apply strip_idem|reflexivity].
Qed.

Lemma prepared_price raw :
  pr_price (prepared raw)
  = if price_missing raw then None else strip_cell (rp_price raw).
Proof.
  unfold prepared, price_missing. cbn.
  destruct (rp_price raw) as [x|]; cbn; [|reflexivity].
  now destruct (strip x).
Qed.

Lemma imputed_row_price df_sales raw :
  pr_price (fst (imputed_row df_sales raw)) = price_text df_sales raw.
Proof.
  unfold imputed_row, impute_price, price_text, imputed_text.
  rewrite prepared_key, median_by_pid_lookup.
  pose proof (prepared_price raw) as Hp.
  destruct (price_missing raw) eqn:Hm.
  - rewrite Hp. destruct (median _); [reflexivity|exact Hp].
  - destruct (pr_price (prepared raw)) as [x|] eqn:Hx;
      [cbn [fst]; congruence|].
    unfold price_missing in Hm.
    destruct (rp_price raw); [discriminate Hp|discriminate Hm].
Qed.

Lemma imputed_row_flag df_sales raw :
  snd (imputed_row df_sales raw)
  = price_missing raw && notna (imputed_text df_sales raw).
Proof.
  unfold imputed_row, impute_price, imputed_text.
  rewrite prepared_key, median_by_pid_lookup.
  pose proof (prepared_price raw) as Hp.
  destruct (price_missing raw) eqn:Hm.
  - rewrite Hp. destruct (median _); reflexivity.
  - destruct (pr_price (prepared raw)) as [x|] eqn:Hx; [reflexivity|].
    unfold price_missing in Hm.
    destruct (rp_price raw); [discriminate Hp|discriminate Hm].
Qed.

(** The number in the stock cell of a row when the loop ends: the number
    of the raw cell, or what [fillna("0")] wrote. *)
Lemma imputed_row_stock_cell df_sales raw :
  match stock_number raw with
  | Some v =>
      to_numeric_cell (pr_stock_quantity (fst (imputed_row df_sales raw)))
      = Some v
  | None =>
      to_numeric_cell (pr_stock_quantity (fst (imputed_row df_sales raw)))
      = None
      \/ exists z,
           to_numeric_cell (pr_stock_quantity (fst (imputed_row df_sales raw)))
           = Some z
           /\ num_finite z = true /\ num_to_int z = 0
  end.
Proof.
  assert (Hs : pr_stock_quantity (fst (imputed_row df_sales raw))
               = fillna "0" (replace_empty (strip_cell (rp_stock_quantity raw)))).
  { unfold imputed_row, impute_price.
    destruct (pr_price (prepared raw)); [reflexivity|].
    destruct (mjoin _); reflexivity. }
  rewrite Hs. unfold stock_number.
  destruct to_numeric_zero as (z & Hz & Hfin & Hint).
  destruct (rp_stock_quantity raw) as [x|]; cbn.
  - destruct (strip x) as [|a t]; cbn.
    + right. exists z. auto.
    + destruct (to_numeric (String a t)); [reflexivity|now left].
  - right. exists z. auto.
Qed.

Lemma imputed_row_stock df_sales raw :
  stock_quantity (product_columns (fst (imputed_row df_sales raw)))
  = stock_rule raw.
Proof.
  pose proof (imputed_row_stock_cell df_sales raw) as H.
  unfold product_columns, stock_rule. cbn [stock_quantity].
  destruct (stock_number raw) as [v|].
  - now rewrite H.
  - destruct H as [->|(z & -> & Hfin & Hint)]; [reflexivity|].
    rewrite (num_cast_int64_exact z Hfin); [exact Hint|].
    rewrite Hint. split; [discriminate|reflexivity].
Qed.

Lemma imputed_row_castable df_sales raw :
  stock_castable (fst (imputed_row df_sales raw)) = negb (stock_infinite raw).
Proof.
  pose proof (imputed_row_stock_cell df_sales raw) as H.
  unfold stock_castable, stock_infinite.
  destruct (stock_number raw) as [v|].
  - rewrite H. now rewrite negb_involutive.
  - destruct H as [->|(z & -> & Hfin & _)]; [reflexivity|exact Hfin].
Qed.

(** The cleaner in one step: the conversions of the frame, or the
    exception of the cast. *)
Lemma transform_products_unfold df_products df_sales :
  transform_products df_products df_sales
  = if forallb stock_castable (products_frame df_products df_sales)
    then inr (map product_columns (products_frame df_products df_sales),
              products_ledger df_products df_sales,
              build_raw_to_name (products_frame df_products df_sales))
    else inl IntCastingNaNError.
Proof. reflexivity. Qed.

Lemma transform_products_inr df_products df_sales cleaned qc m :
  transform_products df_products df_sales = inr (cleaned, qc, m) ->
  forallb stock_castable (products_frame df_products df_sales) = true
  /\ cleaned = map product_columns (products_frame df_products df_sales)
  /\ qc = products_ledger df_products df_sales
  /\ m = build_raw_to_name (products_frame df_products df_sales).
Proof.
  rewrite transform_products_unfold.
  destruct (forallb _ _); [|discriminate]. intros [= <- <- <-]. auto.
Qed.

Lemma transform_products_inl df_products df_sales e :
  transform_products df_products df_sales = inl e ->
  e = IntCastingNaNError
  /\ forallb stock_castable (products_frame df_products df_sales) = false.
Proof.
  rewrite transform_products_unfold.
  destruct (forallb _ _); [discriminate|]. intros [= <-]. auto.
Qed.

(** A row of the frame is the row of a raw product whose price text is
    present when the imputation loop ends. *)
Lemma frame_row_origin df_products df_sales r :
  In r (products_frame df_products df_sales) ->
  exists raw,
    In raw df_products
    /\ r = fst (imputed_row df_sales raw)
    /\ notna (price_text df_sales raw) = true.
Proof.
  unfold products_frame. rewrite impute_prices_map, map_map.
  intros Hr. apply dedup_from_In in Hr. destruct Hr as [Hr _].
  apply filter_In in Hr. destruct Hr as [Hr Hn].
  apply in_map_iff in Hr. destruct Hr as [raw [<- Hraw]].
  exists raw. repeat split; [assumption|]. now rewrite <- imputed_row_price.
Qed.

(** Every cleaned product comes from a raw row whose price text is
    present when the imputation loop ends. *)
Lemma cleaned_product_origin df_products df_sales p :
  In p (map product_columns (products_frame df_products df_sales)) ->
  exists raw,
    In raw df_products
    /\ p = product_columns (fst (imputed_row df_sales raw))
    /\ notna (price_text df_sales raw) = true.
Proof.
  intros Hp. apply in_map_iff in Hp. destruct Hp as [r [<- Hr]].
  apply frame_row_origin in Hr as (raw & Hraw & -> & Hn). eauto.
Qed.

Lemma forallb_exists_false {A} (p : A -> bool) (l : list A) :
  forallb p l = false -> exists x, In x l /\ p x = false.
Proof.
  induction l as [|x r IH]; [discriminate|]. cbn.
  destruct (p x) eqn:Hx; cbn.
  - intros H. destruct (IH H) as (y & Hy & Hpy). exists y. auto.
  - intros _. exists x. auto.
Qed.

Lemma count_map {A B} (f : A -> B) (p : B -> bool) (l : list A) :
  count p (map f l) = count (fun x => p (f x)) l.
Proof. unfold count, len. now rewrite filter_map_comm, length_map. Qed.

Lemma count_ext {A} (p q : A -> bool) (l : list A) :
  (forall x, p x = q x) -> count p l = count q l.
Proof. intros H. unfold count. now rewrite (filter_ext _ _ H). Qed.

Lemma count_or_disjoint {A} (p q : A -> bool) (l : list A) :
  (forall x, p x = true -> q x = false) ->
  count p l + count q l = count (fun x => p x || q x) l.
Proof.
  intros H. unfold count, len. induction l as [|x r IH]; [reflexivity|].
  simpl. specialize (H x).
  destruct (p x), (q x); simpl in *;
    try lia; specialize (H eq_refl); discriminate.
Qed.

(** [missing_filled] counts the absent and empty stocks and the prices the
    loop filled. *)
Lemma products_ledger_filled df_products df_sales :
  missing_filled (products_ledger df_products df_sales)
  = count stock_missing df_products
    + count snd (impute_prices df_products df_sales).
Proof.
  unfold products_ledger. cbv zeta.
  cbn [add_duplicates missing_filled]. note_if_simpl.
  cbn [add_dropped add_filled new_qc missing_filled].
  rewrite !count_map, count_or_disjoint.
  - f_equal. rewrite Z.add_0_l. apply count_ext. intros raw.
    unfold stock_missing, trim_product. cbn.
    destruct (rp_stock_quantity raw) as [x|]; reflexivity.
  - intros raw. unfold trim_product. cbn.
    destruct (rp_stock_quantity raw); cbn; congruence.
Qed.

Lemma products_ledger_conserves df_products df_sales :
  let qc := products_ledger df_products df_sales in
  rows_read qc
  = duplicates_removed qc + rows_dropped qc
    + len (products_frame df_products df_sales).
Proof.
  unfold products_ledger, products_frame. cbv zeta.
  cbn [add_duplicates rows_read duplicates_removed rows_dropped].
  note_if_simpl. cbn. unfold len.
  rewrite impute_prices_map, !length_map. lia.
Qed.

(** The row of a product when the imputation loop ends, against the
    median of the prices that reference it. *)
Lemma imputed_row_median df_sales raw :
  let row := fst (imputed_row df_sales raw) in
  let flag := snd (imputed_row df_sales raw) in
  let prices := referencing_prices df_sales (product_key raw) in
  (price_missing raw = false ->
   pr_price row = strip_cell (rp_price raw) /\ flag = false
   /\ exists txt, pr_price row = Some txt /\ txt <> "")
  /\ (price_missing raw = true ->
      (forall txt,
         pr_price row = Some txt ->
         flag = true /\ exists med, is_median prices med /\ txt = num_fmt2 med)
      /\ (pr_price row = None ->
          flag = false
          /\ (prices = []
              \/ (Nat.odd (length prices) = false
                  /\ exists a b,
                       kth_smallest (length prices / 2 - 1) a prices
                       /\ kth_smallest (length prices / 2) b prices
                       /\ num_mean2 a b = None)))
      /\ (prices = [] -> pr_price row = None)
      /\ (prices <> [] ->
          List.Forall (fun v => num_finite v = true) prices ->
          is_Some (pr_price row))).
Proof.
  cbv zeta. rewrite imputed_row_price, imputed_row_flag.
  unfold price_text, imputed_text. split.
  - intros Hm. rewrite Hm. cbn [andb]. repeat split.
    unfold price_missing in Hm.
    destruct (rp_price raw) as [x|]; [|discriminate]. cbn.
    exists (strip x). split; [reflexivity|]. intros E. now rewrite E in Hm.
  - intros Hm. rewrite Hm. cbn [andb].
    destruct (median (referencing_prices df_sales (product_key raw)))
      as [med|] eqn:Hmed; cbn [fmap option_fmap option_map notna].
    + split; [|split; [discriminate|split]].
      * intros txt [= <-]. split; [reflexivity|].
        exists med. split; [now apply median_is_median|reflexivity].
      * intros Hnil. rewrite Hnil, median_nil in Hmed. discriminate.
      * eauto.
    + split; [discriminate|]. split; [|split; [reflexivity|]].
      * intros _. split; [reflexivity|]. now apply median_None.
      * intros Hne Hfin. destruct (median_finite _ Hne Hfin) as [m Hm'].
        congruence.
Qed.

End ProductRows.

(** The claim that every cleaned product has a price that is present and
    not below zero fails on [demo_products]: [P100] is emitted with the
    price -5. *)
Lemma negative_price_is_emitted :
  ~ (forall cleaned qc m p,
       transform_products (P := Decimal.instance) demo_products demo_sales
       = inr (cleaned, qc, m) ->
       In p cleaned ->
       exists v, price p = Some v /\ num_nonneg v = true).
Proof.
  intros H.
  destruct (H _ _ _ (mkProduct "Kurta" "Fashion"
                               (Some (Decimal.Fin (-5 # 1))) (-3))
              eq_refl)
    as [v [Hv Hn]].
  - vm_compute. right. left. reflexivity.
  - cbn in Hv. injection Hv as <-. vm_compute in Hn. discriminate.
Qed.

(** C1, amended.  Every cleaned product is the converted row of a raw
    product whose price text is present when the imputation loop ends: the
    trimmed raw text, which is not empty, or, when the raw price is absent
    or empty, the median of the referencing sales printed with two
    decimals.  When that text is a number the price is that number,
    whatever its sign. *)
Theorem cleaned_product_price_text_present :
  forall (P : Pandas) (df_products : list RawProduct) (df_sales : list RawSale)
         (cleaned : list (Product num)) (qc : QualityCounts)
         (m : gmap string string) (p : Product num),
    transform_products df_products df_sales = inr (cleaned, qc, m) ->
    In p cleaned ->
    exists raw txt,
      In raw df_products
      /\ p = product_columns (fst (imputed_row df_sales raw))
      /\ pr_price (fst (imputed_row df_sales raw)) = Some txt
      /\ (forall v, to_numeric txt = Some v -> price p = Some v)
      /\ (price_missing raw = false ->
          strip_cell (rp_price raw) = Some txt /\ txt <> "")
      /\ (price_missing raw = true ->
          exists med,
            is_median (referencing_prices df_sales (product_key raw)) med
            /\ txt = num_fmt2 med).
Proof.
  intros P df_products df_sales cleaned qc m p Hret Hp.
  apply transform_products_inr in Hret as (_ & -> & _ & _).
  destruct (cleaned_product_origin _ _ _ Hp) as [raw [Hraw [-> Hn]]].
  rewrite <- imputed_row_price in Hn.
  destruct (imputed_row_median df_sales raw) as [Hgiven Hmissing].
  cbv zeta in Hgiven, Hmissing.
  destruct (pr_price (fst (imputed_row df_sales raw))) as [txt|] eqn:Htxt;
    [|discriminate].
  exists raw, txt.
  split; [exact Hraw|]. split; [reflexivity|]. split; [exact Htxt|].
  split; [|split].
  - intros v Hv. unfold product_columns. cbn [price].
    rewrite Htxt. exact Hv.
  - intros Hm. destruct (Hgiven Hm) as (Hp1 & _ & txt' & Hp2 & Hne).
    injection Hp2 as <-. split; [now symmetry|assumption].
  - intros Hm. destruct (Hmissing Hm) as (Hsome & _).
    now destruct (Hsome txt eq_refl).
Qed.

Lemma cleaned_product_price_text_present_witness :
  exists raw txt,
    In raw demo_products
    /\ mkProduct "Widget" "Electronics" (Some (Decimal.Fin (12 # 1))) 0
       = product_columns (P := Decimal.instance)
           (fst (imputed_row (P := Decimal.instance) demo_unsorted_sales raw))
    /\ pr_price (fst (imputed_row (P := Decimal.instance)
                        demo_unsorted_sales raw)) = Some txt
    /\ (forall v, Decimal.parse_ext txt = Some v ->
                  Some (Decimal.Fin (12 # 1)) = Some v)
    /\ (price_missing raw = false ->
        strip_cell (rp_price raw) = Some txt /\ txt <> "")
    /\ (price_missing raw = true ->
        exists med,
          is_median (P := Decimal.instance)
            (referencing_prices (P := Decimal.instance) demo_unsorted_sales
                                (product_key raw)) med
          /\ txt = Decimal.fmt2_ext med).
Proof.
  apply (cleaned_product_price_text_present Decimal.instance demo_products
           demo_unsorted_sales _ _ _
           (mkProduct "Widget" "Electronics"
                      (Some (Decimal.Fin (12 # 1))) 0)
           eq_refl).
  vm_compute. left. reflexivity.
Defined.

(** C4.  When the imputation loop ends, a product whose price was absent
    or empty carries the median of the coercible unit prices of the sales
    that reference it, printed with two decimals, and is counted as
    filled; it stays absent when no such price exists (or when the mean of
    the two middle prices is NaN), and is then not emitted.  The other
    products keep their trimmed price.  [missing_filled] counts the empty
    stocks and one per filled price.  Unit prices 10.00, 12.00, 14.00 give
    the price 12.00, in whatever order the sales come. *)
Theorem price_imputed_from_sales_median :
  forall (P : Pandas) (df_products : list RawProduct) (df_sales : list RawSale),
    let rows := impute_prices df_products df_sales in
    (forall i raw,
       nth_error df_products i = Some raw ->
       let prices := referencing_prices df_sales (product_key raw) in
       exists row flag,
         nth_error rows i = Some (row, flag)
         /\ (price_missing raw = false ->
             pr_price row = strip_cell (rp_price raw) /\ flag = false)
         /\ (price_missing raw = true ->
             (forall txt,
                pr_price row = Some txt ->
                flag = true
                /\ exists med, is_median prices med /\ txt = num_fmt2 med)
             /\ (pr_price row = None -> flag = false)
             /\ (prices = [] -> pr_price row = None)
             /\ (prices <> [] ->
                 List.Forall (fun v => num_finite v = true) prices ->
                 is_Some (pr_price row))))
    /\ (forall cleaned qc m,
          transform_products df_products df_sales = inr (cleaned, qc, m) ->
          missing_filled qc
          = count stock_missing df_products + count snd rows
          /\ cleaned
             = map product_columns
                 (drop_duplicates pr_product_id
                    (List.filter (fun r => notna (pr_price r))
                                 (map fst rows))))
    /\ map (fun x => pr_price (fst x))
           (impute_prices (P := Decimal.instance) demo_products demo_sales)
       = [Some "12.00"; Some "-5.00"; None]
    /\ map (fun x => pr_price (fst x))
           (impute_prices (P := Decimal.instance) demo_products
                          demo_unsorted_sales)
       = [Some "12.00"; Some "-5.00"; None]
    /\ map (fun x => pr_price (fst x))
           (impute_prices (P := Decimal.instance) demo_products
                          demo_even_sales)
       = [Some "12.00"; Some "-5.00"; None].
Proof.
  intros P df_products df_sales rows. subst rows.
  split; [|split; [|repeat split; reflexivity]].
  - intros i raw Hi prices. subst prices.
    exists (fst (imputed_row df_sales raw)), (snd (imputed_row df_sales raw)).
    split.
    + rewrite impute_prices_map.
      rewrite nth_error_map, Hi. cbn. now destruct (imputed_row df_sales raw).
    + destruct (imputed_row_median df_sales raw) as [Hgiven Hmissing].
      split.
      * intros Hm. now destruct (Hgiven Hm) as (? & ? & _).
      * intros Hm. destruct (Hmissing Hm) as (H1 & H2 & H3 & H4).
        split; [exact H1|]. split; [intros E; now apply H2|].
        split; assumption.
  - intros cleaned qc m Hret.
    apply transform_products_inr in Hret as (_ & -> & -> & _).
    split; [apply products_ledger_filled|reflexivity].
Qed.

Lemma price_imputed_from_sales_median_witness :
  exists row flag,
    nth_error (impute_prices (P := Decimal.instance) demo_products
                             demo_unsorted_sales) 0
    = Some (row, flag)
    /\ pr_price row = Some "12.00" /\ flag = true
    /\ exists med,
         is_median (P := Decimal.instance)
           [Decimal.Fin (14 # 1); Decimal.Fin (10 # 1); Decimal.Fin (12 # 1)]
           med
         /\ "12.00" = Decimal.fmt2_ext med.
Proof.
  destruct (proj1 (price_imputed_from_sales_median Decimal.instance
                     demo_products demo_unsorted_sales)
              0%nat
              (mkRawProduct (Some "P200") (Some "Widget") (Some "electronics")
                            (Some "") (Some ""))
              eq_refl)
    as (row & flag & Hrow & _ & Hmissing).
  exists row, flag. split; [exact Hrow|].
  injection Hrow as <- <-.
  split; [reflexivity|].
  destruct (Hmissing eq_refl) as (H1 & _).
  exact (H1 "12.00" eq_refl).
Defined.

(** The claim that every cleaned product has a stock that is not below
    zero fails on [demo_products]: [P100] is emitted with the stock -3. *)
Lemma negative_stock_is_emitted :
  ~ (forall cleaned qc m p,
       transform_products (P := Decimal.instance) demo_products demo_sales
       = inr (cleaned, qc, m) ->
       In p cleaned ->
       0 <= stock_quantity p).
Proof.
  intros H.
  specialize (H _ _ _ (mkProduct "Kurta" "Fashion"
                                 (Some (Decimal.Fin (-5 # 1))) (-3))
                eq_refl).
  cbn [stock_quantity] in H. assert (0 <= -3) as Hneg; [|lia].
  apply H. vm_compute. right. left. reflexivity.
Qed.

(** C8, amended.  When [transform_products] returns, the stock of every
    cleaned product is an [int64] given by the stock cell of its raw row:
    0 when the cell is absent or empty, 0 when its text is not a number,
    the cast of the number otherwise, which is its integer part whenever
    that fits in 64 bits, whatever its sign.  The empty cells are counted
    in [missing_filled].  The cleaner returns unless the stock cell of a
    row of the frame stands for an infinity; it then raises
    [IntCastingNaNError] and emits nothing. *)
Theorem cleaned_product_stock_rule :
  forall (P : Pandas) (df_products : list RawProduct) (df_sales : list RawSale),
    (forall cleaned qc m,
       transform_products df_products df_sales = inr (cleaned, qc, m) ->
       (forall p,
          In p cleaned ->
          exists raw,
            In raw df_products
            /\ p = product_columns (fst (imputed_row df_sales raw))
            /\ stock_quantity p = stock_rule raw
            /\ stock_infinite raw = false
            /\ - 2 ^ 63 <= stock_quantity p < 2 ^ 63)
       /\ missing_filled qc
          = count stock_missing df_products
            + count snd (impute_prices df_products df_sales))
    /\ (forall raw, stock_missing raw = true -> stock_rule raw = 0)
    /\ (forall raw txt,
          rp_stock_quantity raw = Some txt -> to_numeric (strip txt) = None ->
          stock_rule raw = 0)
    /\ (forall raw v,
          stock_number raw = Some v -> num_finite v = true ->
          - 2 ^ 63 <= num_to_int v < 2 ^ 63 ->
          stock_rule raw = num_to_int v)
    /\ (forall e,
          transform_products df_products df_sales = inl e <->
          e = IntCastingNaNError
          /\ exists raw,
               In raw df_products
               /\ In (fst (imputed_row df_sales raw))
                     (products_frame df_products df_sales)
               /\ stock_infinite raw = true)
    /\ transform_products (P := Decimal.instance) demo_infinite_stock []
       = inl IntCastingNaNError
    /\ (exists qc m,
          transform_products (P := Decimal.instance) demo_huge_stock []
          = inr ([mkProduct "Lamp" "Electronics" (Some (Decimal.Fin (5 # 1)))
                            (- 2 ^ 63)], qc, m)).
Proof.
  intros P df_products df_sales.
  split; [|split; [|split; [|split; [|split; [|split]]]]].
  - intros cleaned qc m Hret.
    apply transform_products_inr in Hret as (Hcast & -> & -> & _).
    split; [|apply products_ledger_filled].
    intros p Hp. apply in_map_iff in Hp as (r & <- & Hr).
    pose proof Hr as Hr'.
    apply frame_row_origin in Hr as (raw & Hraw & -> & _).
    exists raw. split; [assumption|]. split; [reflexivity|].
    split; [apply imputed_row_stock|]. split.
    + rewrite forallb_forall in Hcast. specialize (Hcast _ Hr').
      rewrite imputed_row_castable in Hcast.
      now apply negb_true_iff in Hcast.
    + unfold product_columns. cbn [stock_quantity].
      destruct (to_numeric_cell _); [apply num_cast_int64_range|].
      split; [discriminate|reflexivity].
  - intros raw. unfold stock_missing, stock_rule, stock_number.
    destruct (rp_stock_quantity raw) as [x|]; [|reflexivity].
    now intros ->.
  - intros raw txt Hs Hn. unfold stock_rule, stock_number. rewrite Hs, Hn.
    now destruct (is_empty (strip txt)).
  - intros raw v Hv Hfin Hrange. unfold stock_rule. rewrite Hv.
    now apply num_cast_int64_exact.
  - intros e. split.
    + intros He. apply transform_products_inl in He as [-> Hcast].
      split; [reflexivity|].
      apply forallb_exists_false in Hcast as (r & Hr & Hc).
      pose proof Hr as Hr'.
      apply frame_row_origin in Hr as (raw & Hraw & -> & _).
      exists raw. repeat split; try assumption.
      rewrite imputed_row_castable in Hc. now apply negb_false_iff in Hc.
    + intros [-> (raw & _ & Hin & Hinf)].
      rewrite transform_products_unfold.
      destruct (forallb _ _) eqn:Hcast; [|reflexivity].
      rewrite forallb_forall in Hcast. specialize (Hcast _ Hin).
      rewrite imputed_row_castable, Hinf in Hcast. discriminate.
  - reflexivity.
  - eexists _, _. vm_compute. reflexivity.
Qed.

Lemma cleaned_product_stock_rule_witness :
  exists raw,
    In raw demo_products
    /\ mkProduct "Kurta" "Fashion" (Some (Decimal.Fin (-5 # 1))) (-3)
       = product_columns (P := Decimal.instance)
           (fst (imputed_row (P := Decimal.instance) demo_sales raw))
    /\ (-3) = stock_rule (P := Decimal.instance) raw
    /\ stock_infinite (P := Decimal.instance) raw = false
    /\ - 2 ^ 63 <= -3 < 2 ^ 63.
Proof.
  apply (proj1 (proj1 (cleaned_product_stock_rule Decimal.instance
                         demo_products demo_sales)
                  _ _ _ eq_refl)
           (mkProduct "Kurta" "Fashion"
                      (Some (Decimal.Fin (-5 # 1))) (-3))).
  vm_compute. right. left. reflexivity.
Defined.

(** ** The store: which exceptions a load can raise *)

Section LoadErrors.

Context `{P : Pandas}.
Variable faults : nat -> option string.

Lemma only_db_ret {A} (a : A) : only_db_errors (ret a).
Proof. intros st e. discriminate. Qed.

Lemma only_db_bind {A B} (c : DB A) (k : A -> DB B) :
  only_db_errors c -> (forall a, only_db_errors (k a)) ->
  only_db_errors (bind c k).
Proof.
  intros Hc Hk st e. unfold bind.
  destruct (c st) as [a st'|e'] eqn:Hcs.
  - apply Hk.
  - intros [= <-]. now apply (Hc st).
Qed.

Lemma only_db_request : only_db_errors (request faults).
Proof.
  intros st e. unfold request.
  destruct (faults (requests st)) as [msg|]; [|discriminate].
  intros [= <-]. now exists msg.
Qed.

Lemma only_db_execute upd : only_db_errors (execute faults upd).
Proof.
  apply only_db_bind; [apply only_db_request|].
  intros _ st e. discriminate.
Qed.

Lemma only_db_repeat n c : only_db_errors c -> only_db_errors (repeat_db n c).
Proof.
  intros Hc. induction n as [|n IH]; simpl.
  - apply only_db_ret.
  - apply only_db_bind; [assumption|]. intros _. exact IH.
Qed.

Ltac only_db :=
  repeat first
    [ apply only_db_bind; [|intros ?]
    | apply only_db_repeat
    | apply only_db_execute
    | apply only_db_request
    | apply only_db_ret
    | (intros ? ?; discriminate) ].

Lemma only_db_ensure_schema : only_db_errors (ensure_schema faults).
Proof. unfold ensure_schema, commit. only_db. Qed.

Lemma only_db_truncate_tables : only_db_errors (truncate_tables faults).
Proof. unfold truncate_tables, commit. only_db. Qed.

Lemma only_db_insert_customers df : only_db_errors (insert_customers faults df).
Proof.
  unfold insert_customers, commit.
  apply only_db_bind; [|intros ?; only_db].
  generalize 0. induction df as [|r rest IH]; intros rows; simpl; only_db.
  apply IH.
Qed.

Lemma only_db_insert_products df : only_db_errors (insert_products faults df).
Proof.
  unfold insert_products, commit.
  apply only_db_bind; [|intros ?; only_db].
  generalize 0. induction df as [|r rest IH]; intros rows; simpl; only_db.
  apply IH.
Qed.

Lemma only_db_fetch_customers :
  only_db_errors (fetch_customer_email_to_dbid faults).
Proof. unfold fetch_customer_email_to_dbid. only_db. Qed.

Lemma only_db_fetch_products :
  only_db_errors (fetch_product_name_to_dbid faults).
Proof. unfold fetch_product_name_to_dbid. only_db. Qed.

(** With a finite quantity on every row, [int] never raises. *)
Lemma only_db_insert_orders rc ec rp np sales :
  (forall r, In r sales -> finite_cell (quantity r) = true) ->
  only_db_errors (insert_orders_and_items faults rc ec rp np sales).
Proof.
  intros Hq. unfold insert_orders_and_items, commit.
  apply only_db_bind; [|intros ?; only_db].
  generalize 0 at 1. generalize 0 at 1. generalize 0.
  induction sales as [|r rest IH]; intros d i o; simpl; [only_db|].
  assert (Hrest : forall r', In r' rest -> finite_cell (quantity r') = true)
    by (intros r' Hr'; apply Hq; now right).
  destruct (resolve _ ec); [|now apply IH].
  destruct (resolve _ np); [|now apply IH].
  unfold insert_order, insert_item.
  pose proof (Hq r (or_introl eq_refl)) as Hfin.
  unfold finite_cell, holds in Hfin.
  destruct (quantity r) as [q|]; [|discriminate].
  cbn [int_of_cell]. rewrite Hfin. only_db. now apply IH.
Qed.

End LoadErrors.

(** ** Main: the report and the storage failures *)

Section MainErrors.

Context `{P : Pandas}.
Variable faults : nat -> option string.

Lemma bind_assoc {A B C} (c : DB A) (k : A -> DB B) (k' : B -> DB C) st :
  bind (bind c k) k' st = bind c (fun a => bind (k a) k') st.
Proof. unfold bind. now destruct (c st). Qed.

Lemma sales_clean_quantity ds r :
  In r (fst (transform_sales ds)) -> quantity r <> None.
Proof.
  rewrite transform_sales_rows. intros Hr.
  apply in_map_iff in Hr. destruct Hr as [raw [<- Hraw]].
  apply filter_In in Hraw. destruct Hraw as [_ Hacc].
  destruct (clean_sale_valid _ Hacc) as [q [u [d [Hq _]]]]. congruence.
Qed.

(** A run-level note is printed in the report. *)
Lemma write_report_prints_note now cq pq sq extra n :
  In n extra -> In ("- " +:+ n) (write_report now cq pq sq extra).
Proof.
  intros Hn. unfold write_report.
  do 4 (apply in_or_app; right).
  destruct extra as [|x xs]; [contradiction|].
  right. apply in_or_app. left.
  apply in_map_iff. now exists n.
Qed.

Lemma on_error_db msg cq pq sq extra :
  on_error (MySQLError msg) cq pq sq extra
  = Written cq pq sq (extra ++ ["MySQL Error: " +:+ msg]).
Proof. reflexivity. Qed.

Lemma load_stage_stages cc pc sc rc rp st :
  load_stage faults cc pc sc rc rp st
  = bind (stage_customers faults cc) (fun n1 =>
    bind (insert_products faults pc) (fun n2 =>
    bind (stage_orders faults sc rc rp) (fun res =>
    bind (conn_close faults) (fun _ => ret (n1, n2, res))))) st.
Proof.
  unfold load_stage, stage_customers, stage_orders.
  rewrite !bind_assoc. unfold bind.
  destruct (connect_db faults st) as [? st1|]; [|reflexivity].
  destruct (ensure_schema faults st1) as [? st2|]; [|reflexivity].
  destruct (truncate_tables faults st2) as [? st3|]; [|reflexivity].
  destruct (insert_customers faults cc st3) as [n1 st4|]; [|reflexivity].
  destruct (insert_products faults pc st4) as [n2 st5|]; [|reflexivity].
  destruct (fetch_customer_email_to_dbid faults st5) as [ec st6|]; [|reflexivity].
  destruct (fetch_product_name_to_dbid faults st6) as [np st7|]; [|reflexivity].
  reflexivity.
Qed.

Lemma only_db_stage_customers cc : only_db_errors (stage_customers faults cc).
Proof.
  unfold stage_customers, connect_db.
  apply only_db_bind; [apply only_db_request|intros _].
  apply only_db_bind; [apply only_db_ensure_schema|intros _].
  apply only_db_bind; [apply only_db_truncate_tables|intros _].
  apply only_db_insert_customers.
Qed.

Lemma only_db_stage_orders sc rc rp :
  (forall r, In r sc -> finite_cell (quantity r) = true) ->
  only_db_errors (stage_orders faults sc rc rp).
Proof.
  intros Hq. unfold stage_orders.
  apply only_db_bind; [apply only_db_fetch_customers|intros ec].
  apply only_db_bind; [apply only_db_fetch_products|intros np].
  now apply only_db_insert_orders.
Qed.

(** The cast of the stock column is outside the [try] block: its
    exception leaves [main]. *)
Lemma main_transform_raises has_id dc dp ds e st0 :
  transform_products dp ds = inl e ->
  main faults (mkFiles (Some (has_id, dc)) (Some dp) (Some ds)) st0
  = Raised e.
Proof.
  intros Hret. unfold main. cbn [read_csv customers_raw products_raw sales_raw].
  destruct (transform_sales ds) as [sc sqc].
  destruct (transform_customers has_id dc) as [[cc cqc] rc].
  now rewrite Hret.
Qed.

(** [main] with its three files, as the four parts of the [try] block. *)
Lemma main_stages has_id dc dp ds pc pqc rp st0 :
  transform_products dp ds = inr (pc, pqc, rp) ->
  main faults (mkFiles (Some (has_id, dc)) (Some dp) (Some ds)) st0
  = let sc := fst (transform_sales ds) in
    let sqc := snd (transform_sales ds) in
    let cc := fst (fst (transform_customers has_id dc)) in
    let cqc := snd (fst (transform_customers has_id dc)) in
    let rc := snd (transform_customers has_id dc) in
    match stage_customers faults cc st0 with
    | Raise e => on_error e cqc pqc sqc []
    | Ok n1 st1 =>
    match insert_products faults pc st1 with
    | Raise e => on_error e (set_loaded n1 cqc) pqc sqc []
    | Ok n2 st2 =>
    match stage_orders faults sc rc rp st2 with
    | Raise e => on_error e (set_loaded n1 cqc) (set_loaded n2 pqc) sqc []
    | Ok (orders_loaded, items_loaded, dropped_fk) st3 =>
        let sqc1 := set_loaded (len sc - dropped_fk) sqc in
        let sqc2 := if dropped_fk =? 0 then sqc1
                    else add_dropped dropped_fk sqc1 in
        let extra :=
          ((if dropped_fk =? 0 then [] else [] ++ [note_unmapped dropped_fk])
             ++ ["Orders inserted: " +:+ string_of_Z orders_loaded])
            ++ ["Order items inserted: " +:+ string_of_Z items_loaded] in
        match conn_close faults st3 with
        | Raise e =>
            on_error e (set_loaded n1 cqc) (set_loaded n2 pqc) sqc2 extra
        | Ok _ _ =>
            Written (set_loaded n1 cqc) (set_loaded n2 pqc) sqc2 extra
        end
    end end end.
Proof.
  intros Hret. unfold main.
  cbn [read_csv customers_raw products_raw sales_raw].
  destruct (transform_sales ds) as [sc sqc].
  destruct (transform_customers has_id dc) as [[cc cqc] rc].
  rewrite Hret. cbv zeta. cbn [fst snd].
  change (bind (connect_db faults) _ st0) with (stage_customers faults cc st0).
  destruct (stage_customers faults cc st0) as [n1 st1|e]; [|reflexivity].
  destruct (insert_products faults pc st1) as [n2 st2|e]; [|reflexivity].
  change (bind (fetch_customer_email_to_dbid faults) _ st2)
    with (stage_orders faults sc rc rp st2).
  destruct (stage_orders faults sc rc rp st2) as [[[o i] d] st3|e]; reflexivity.
Qed.

End MainErrors.

(** The claim that a run that stops on a missing source still writes the
    report fails: without the customers file [main] ends with
    [FileNotFoundError] and [write_report] is never called. *)
Lemma missing_source_writes_no_report :
  ~ (exists cq pq sq extra,
       main (P := Decimal.instance) (fun _ => None)
            (mkFiles None (Some demo_products) (Some demo_sales)) empty_store
       = Written cq pq sq extra).
Proof. intros (cq & pq & sq & extra & H). discriminate H. Qed.

(** C2, amended.  With its three sources present and the product cleaner
    returning, a run that stops on a storage failure still ends with the
    call of the report writer: the last run-level note is [MySQL Error:]
    followed by the message, and the report prints it.  The report is
    also written when the load completes; any other exception of the load
    leaves [main] and no report is written, as when the cast of the stock
    column raises.  With a source missing the run ends with
    [FileNotFoundError] for the first missing file, before any transform,
    and no report is written. *)
Theorem report_written_after_storage_failure :
  forall (P : Pandas) (faults : nat -> option string) (files : Files)
         (st0 : Store num) (now : string),
    match customers_raw files, products_raw files, sales_raw files with
    | Some (has_id, dc), Some dp, Some ds =>
        (forall e,
           transform_products dp ds = inl e ->
           main faults files st0 = Raised e)
        /\ (forall pc pqc rp,
              transform_products dp ds = inr (pc, pqc, rp) ->
              match load_stage faults
                      (fst (fst (transform_customers has_id dc))) pc
                      (fst (transform_sales ds))
                      (snd (transform_customers has_id dc)) rp st0 with
              | Raise (MySQLError msg) =>
                  exists cq pq sq extra,
                    main faults files st0 = Written cq pq sq extra
                    /\ last extra = Some ("MySQL Error: " +:+ msg)
                    /\ In ("- MySQL Error: " +:+ msg)
                          (write_report now cq pq sq extra)
              | Raise e => main faults files st0 = Raised e
              | Ok _ _ =>
                  exists cq pq sq extra,
                    main faults files st0 = Written cq pq sq extra
              end)
    | None, _, _ =>
        main faults files st0 = Raised (FileNotFoundError CUSTOMERS_CSV)
    | Some _, None, _ =>
        main faults files st0 = Raised (FileNotFoundError PRODUCTS_CSV)
    | Some _, Some _, None =>
        main faults files st0 = Raised (FileNotFoundError SALES_CSV)
    end.
Proof.
  intros P faults [[[has_id dc]|] [dp|] [ds|]] st0 now;
    cbn [customers_raw products_raw sales_raw]; try reflexivity.
  split; [intros e He; now apply main_transform_raises|].
  intros pc pqc rp Hret.
  rewrite (main_stages faults has_id dc dp ds pc pqc rp st0 Hret),
    load_stage_stages.
  cbv zeta.
  set (sc := fst (transform_sales ds)).
  set (sqc := snd (transform_sales ds)).
  set (cc := fst (fst (transform_customers has_id dc))).
  set (cqc := snd (fst (transform_customers has_id dc))).
  set (rc := snd (transform_customers has_id dc)).
  assert (Hfail : forall e cq pq sq extra,
            match e with
            | MySQLError msg =>
                exists cq' pq' sq' extra',
                  on_error e cq pq sq extra = Written cq' pq' sq' extra'
                  /\ last extra' = Some ("MySQL Error: " +:+ msg)
                  /\ In ("- MySQL Error: " +:+ msg)
                        (write_report now cq' pq' sq' extra')
            | _ => on_error e cq pq sq extra = Raised e
            end).
  { intros e cq pq sq extra. destruct e; try reflexivity.
    rewrite on_error_db. do 4 eexists. split; [reflexivity|]. split.
    - apply last_snoc.
    - apply write_report_prints_note, in_app_iff. right. now left. }
  unfold bind at 1.
  destruct (stage_customers faults cc st0) as [n1 st1|e]; [|apply Hfail].
  unfold bind at 1.
  destruct (insert_products faults pc st1) as [n2 st2|e]; [|apply Hfail].
  unfold bind at 1.
  destruct (stage_orders faults sc rc rp st2) as [[[o i] d] st3|e];
    [|apply Hfail].
  unfold bind at 1.
  destruct (conn_close faults st3) as [u st4|e]; [|apply Hfail].
  cbn. do 4 eexists. reflexivity.
Qed.

Lemma report_written_after_storage_failure_witness :
  exists cq pq sq extra,
    main (P := Decimal.instance) connection_refused demo_files empty_store
    = Written cq pq sq extra
    /\ last extra
       = Some "MySQL Error: 2003: Can't connect to MySQL server on 'localhost:3306'"
    /\ In "- MySQL Error: 2003: Can't connect to MySQL server on 'localhost:3306'"
          (write_report "2024-03-01 10:00:00" cq pq sq extra).
Proof.
  pose proof (report_written_after_storage_failure Decimal.instance
                connection_refused demo_files empty_store
                "2024-03-01 10:00:00") as H.
  cbn [customers_raw products_raw sales_raw demo_files] in H.
  destruct H as [_ H]. specialize (H _ _ _ eq_refl).
  exact H.
Defined.

(** ** Reconciliation *)

Section Reconciliation.

Context `{P : Pandas}.

Variable rc : gmap string string.
Variable ec : gmap string Z.
Variable rp : gmap string string.
Variable np : gmap string Z.





Lemma new_rows_links a b sales :
  map (fun x => i_order_id (snd x)) (snd (new_rows rc ec rp np a b sales))
  = map fst (fst (new_rows rc ec rp np a b sales)).
Proof.
  revert a b. induction sales as [|r rest IH]; intros a b; [reflexivity|].
  cbn [new_rows].
  destruct (reconcile rc ec rp np r) as [[c p]|]; cbn; [now rewrite IH|apply IH].
Qed.

Lemma new_rows_lengths a b sales :
  len (fst (new_rows rc ec rp np a b sales)) = len sales - unmapped rc ec rp np sales
  /\ len (snd (new_rows rc ec rp np a b sales)) = len sales - unmapped rc ec rp np sales.
Proof.
  unfold unmapped, count, len.
  revert a b. induction sales as [|r rest IH]; intros a b; [split; reflexivity|].
  cbn [new_rows List.filter].
  destruct (reconcile rc ec rp np r) as [[c p]|]; cbn.
  - destruct (IH (a + 1) (b + 1)). lia.
  - destruct (IH a b). lia.
Qed.

Lemma unmapped_bounds sales : 0 <= unmapped rc ec rp np sales <= len sales.
Proof.
  unfold unmapped, count, len.
  pose proof (filter_length_le (fun r => negb (notna (reconcile rc ec rp np r))) sales).
  lia.
Qed.

End Reconciliation.

(** ** What a stage returns, faults or not *)

Lemma bind_Ok `{P : Pandas} {A B} (c : DB A) (k : A -> DB B) st b st' :
  bind c k st = Ok b st' ->
  exists a st1, c st = Ok a st1 /\ k a st1 = Ok b st'.
Proof.
  unfold bind. destruct (c st) as [a st1|e]; [|discriminate]. eauto.
Qed.

Section AnyFaults.

Context `{P : Pandas}.
Variable faults : nat -> option string.

Lemma insert_customers_loop_count df rows st n st' :
  insert_customers_loop faults df rows st = Ok n st' -> n = rows + len df.
Proof.
  revert rows st. induction df as [|r rest IH]; intros rows st;
    cbn [insert_customers_loop].
  - intros [= <- _]. unfold len. cbn. lia.
  - intros H. apply bind_Ok in H as (_ & st1 & _ & H).
    apply IH in H. unfold len in *. cbn [length]. lia.
Qed.

Lemma insert_products_loop_count df rows st n st' :
  insert_products_loop faults df rows st = Ok n st' -> n = rows + len df.
Proof.
  revert rows st. induction df as [|r rest IH]; intros rows st;
    cbn [insert_products_loop].
  - intros [= <- _]. unfold len. cbn. lia.
  - intros H. apply bind_Ok in H as (_ & st1 & _ & H).
    apply IH in H. unfold len in *. cbn [length]. lia.
Qed.

Lemma insert_customers_count df st n st' :
  insert_customers faults df st = Ok n st' -> n = len df.
Proof.
  unfold insert_customers. intros H.
  apply bind_Ok in H as (rows & st1 & Hloop & H).
  apply bind_Ok in H as (_ & st2 & _ & H).
  injection H as <- _. now apply insert_customers_loop_count in Hloop.
Qed.

Lemma insert_products_count df st n st' :
  insert_products faults df st = Ok n st' -> n = len df.
Proof.
  unfold insert_products. intros H.
  apply bind_Ok in H as (rows & st1 & Hloop & H).
  apply bind_Ok in H as (_ & st2 & _ & H).
  injection H as <- _. now apply insert_products_loop_count in Hloop.
Qed.

Lemma stage_customers_count cc st n st' :
  stage_customers faults cc st = Ok n st' -> n = len cc.
Proof.
  unfold stage_customers. intros H.
  apply bind_Ok in H as (_ & st1 & _ & H).
  apply bind_Ok in H as (_ & st2 & _ & H).
  apply bind_Ok in H as (_ & st3 & _ & H).
  now apply insert_customers_count in H.
Qed.

Lemma insert_orders_loop_count rc ec rp np sales o i d st o' i' d' st' :
  insert_orders_loop faults rc ec rp np sales o i d st = Ok (o', i', d') st' ->
  o' - o = i' - i /\ (o' - o) + (d' - d) = len sales /\ d <= d' /\ o <= o'.
Proof.
  revert o i d st. induction sales as [|r rest IH]; intros o i d st;
    cbn [insert_orders_loop].
  - intros [= <- <- <- _]. unfold len. cbn. lia.
  - destruct (resolve _ ec) as [db_cid|].
    + destruct (resolve _ np) as [db_pid|].
      * intros H. apply bind_Ok in H as (oid & st1 & _ & H).
        apply bind_Ok in H as (qty & st2 & _ & H).
        apply bind_Ok in H as (_ & st3 & _ & H).
        apply IH in H. unfold len in *. cbn [length]. lia.
      * intros H. apply IH in H. unfold len in *. cbn [length]. lia.
    + intros H. apply IH in H. unfold len in *. cbn [length]. lia.
Qed.

Lemma request_Ok_inv st u st' :
  request faults st = Ok u st' -> st' = tick st.
Proof.
  unfold request. destruct (faults (requests st)); [discriminate|].
  now intros [= _ <-].
Qed.

Lemma execute_Ok_inv upd st u st' :
  execute faults upd st = Ok u st' -> st' = upd (tick st).
Proof.
  unfold execute. intros H. apply bind_Ok in H as (u1 & st1 & H1 & H).
  apply request_Ok_inv in H1. subst st1. now injection H as _ <-.
Qed.

Lemma unmapped_cons rc ec rp np r rest :
  unmapped rc ec rp np (r :: rest)
  = (if notna (reconcile rc ec rp np r) then 0 else 1)
    + unmapped rc ec rp np rest.
Proof.
  unfold unmapped, count, len. cbn [List.filter].
  destruct (notna _); cbn [negb length]; lia.
Qed.

(** The drop counter counts the rows that do not resolve. *)
Lemma insert_orders_loop_dropped rc ec rp np sales o i d st o' i' d' st' :
  insert_orders_loop faults rc ec rp np sales o i d st = Ok (o', i', d') st' ->
  d' = d + unmapped rc ec rp np sales.
Proof.
  revert o i d st. induction sales as [|r rest IH]; intros o i d st.
  - cbn [insert_orders_loop]. intros [= _ _ <- _].
    unfold unmapped, count, len. cbn. lia.
  - rewrite unmapped_cons. cbn [insert_orders_loop]. unfold reconcile.
    destruct (resolve _ ec) as [db_cid|].
    + destruct (resolve _ np) as [db_pid|].
      * intros H. apply bind_Ok in H as (oid & st1 & _ & H).
        apply bind_Ok in H as (qty & st2 & _ & H).
        apply bind_Ok in H as (_ & st3 & _ & H).
        apply IH in H. cbn [notna]. lia.
      * intros H. apply IH in H. cbn [notna]. lia.
    + intros H. apply IH in H. cbn [notna]. lia.
Qed.

Lemma stage_orders_dropped sc rc rp st o i d st' :
  stage_orders faults sc rc rp st = Ok (o, i, d) st' ->
  d = unmapped rc (email_index (tbl_rows (customers st))) rp
               (name_index (tbl_rows (products st))) sc.
Proof.
  unfold stage_orders, insert_orders_and_items,
    fetch_customer_email_to_dbid, fetch_product_name_to_dbid.
  intros H.
  apply bind_Ok in H as (ec & st1 & Hec & H).
  apply bind_Ok in Hec as (u1 & st1' & Hx & Hec).
  apply execute_Ok_inv in Hx. subst st1'. injection Hec as <- <-.
  apply bind_Ok in H as (np & st2 & Hnp & H).
  apply bind_Ok in Hnp as (u2 & st2' & Hx & Hnp).
  apply execute_Ok_inv in Hx. subst st2'. injection Hnp as <- <-.
  apply bind_Ok in H as ([[o1 i1] d1] & st3 & Hloop & H).
  apply bind_Ok in H as (_ & st4 & _ & H).
  injection H as <- <- <- _.
  apply insert_orders_loop_dropped in Hloop. cbn in Hloop |- *. lia.
Qed.

Lemma stage_orders_count sc rc rp st o i d st' :
  stage_orders faults sc rc rp st = Ok (o, i, d) st' ->
  o = i /\ o + d = len sc /\ 0 <= d /\ 0 <= o.
Proof.
  unfold stage_orders, insert_orders_and_items. intros H.
  apply bind_Ok in H as (ec & st1 & _ & H).
  apply bind_Ok in H as (np & st2 & _ & H).
  apply bind_Ok in H as ([[o1 i1] d1] & st3 & Hloop & H).
  apply bind_Ok in H as (_ & st4 & _ & H).
  injection H as <- <- <- _.
  apply insert_orders_loop_count in Hloop. lia.
Qed.

End AnyFaults.

(** ** Fault-free runs of the load *)

Section FaultFree.

Context `{P : Pandas}.
Variable faults : nat -> option string.
Hypothesis no_faults : forall n, faults n = None.

Lemma request_ok st : request faults st = Ok tt (tick st).
Proof. unfold request. now rewrite no_faults. Qed.

Lemma execute_ok upd st : execute faults upd st = Ok tt (upd (tick st)).
Proof. unfold execute, bind. now rewrite request_ok. Qed.

Lemma bind_request {B} (k : unit -> DB B) st :
  bind (request faults) k st = k tt (tick st).
Proof. unfold bind. now rewrite request_ok. Qed.

Lemma bind_execute {B} upd (k : unit -> DB B) st :
  bind (execute faults upd) k st = k tt (upd (tick st)).
Proof. unfold bind. now rewrite execute_ok. Qed.

Lemma bind_ret {A B} (a : A) (k : A -> DB B) st : bind (ret a) k st = k a st.
Proof. reflexivity. Qed.

Lemma bind_run {A B} (c : DB A) (k : A -> DB B) st a st' :
  c st = Ok a st' -> bind c k st = k a st'.
Proof. unfold bind. now intros ->. Qed.

Ltac run :=
  repeat (rewrite ?bind_assoc;
          first [ rewrite bind_request | rewrite bind_execute
                | rewrite bind_ret | rewrite request_ok
                | rewrite execute_ok ];
          cbv beta).

Lemma insert_customers_loop_ok df rows st :
  exists st',
    insert_customers_loop faults df rows st = Ok (rows + len df) st'
    /\ customers st' = fold_left (fun t x => inserted x t) df (customers st)
    /\ products st' = products st
    /\ orders st' = orders st
    /\ order_items st' = order_items st.
Proof.
  revert rows st. induction df as [|r rest IH]; intros rows st.
  - exists st. unfold len. cbn. rewrite Z.add_0_r. auto.
  - cbn [insert_customers_loop]. run.
    match goal with |- context [insert_customers_loop _ rest _ ?st1] =>
      destruct (IH (rows + 1) st1) as [st' [Hrun [Hc [Hp [Ho Hi]]]]]
    end.
    exists st'. rewrite Hrun. unfold len in *. cbn [length fold_left].
    repeat split; try assumption. f_equal. lia.
Qed.

Lemma insert_products_loop_ok df rows st :
  exists st',
    insert_products_loop faults df rows st = Ok (rows + len df) st'
    /\ customers st' = customers st
    /\ products st' = fold_left (fun t x => inserted x t) df (products st)
    /\ orders st' = orders st
    /\ order_items st' = order_items st.
Proof.
  revert rows st. induction df as [|r rest IH]; intros rows st.
  - exists st. unfold len. cbn. rewrite Z.add_0_r. auto.
  - cbn [insert_products_loop]. run.
    match goal with |- context [insert_products_loop _ rest _ ?st1] =>
      destruct (IH (rows + 1) st1) as [st' [Hrun [Hc [Hp [Ho Hi]]]]]
    end.
    exists st'. rewrite Hrun. unfold len in *. cbn [length fold_left].
    repeat split; try assumption. f_equal. lia.
Qed.

Lemma stage_customers_ok cc st0 :
  exists st1,
    stage_customers faults cc st0 = Ok (len cc) st1
    /\ customers st1 = loaded_table cc
    /\ products st1 = truncated
    /\ orders st1 = truncated
    /\ order_items st1 = truncated.
Proof.
  unfold stage_customers, connect_db, ensure_schema, truncate_tables,
    insert_customers, commit, repeat_db.
  run.
  match goal with |- context [bind (insert_customers_loop faults cc 0) _ ?st] =>
    destruct (insert_customers_loop_ok cc 0 st)
      as [st' [Hrun [Hc [Hp [Ho Hi]]]]]
  end.
  rewrite (bind_run _ _ _ _ _ Hrun). run. rewrite Z.add_0_l.
  eexists. split; [reflexivity|].
  cbn [customers products orders order_items tick] in *.
  rewrite Hc, Hp, Ho, Hi. auto.
Qed.

Lemma insert_products_ok pc st1 :
  exists st2,
    insert_products faults pc st1 = Ok (len pc) st2
    /\ customers st2 = customers st1
    /\ products st2 = fold_left (fun t x => inserted x t) pc (products st1)
    /\ orders st2 = orders st1
    /\ order_items st2 = order_items st1.
Proof.
  unfold insert_products, commit.
  destruct (insert_products_loop_ok pc 0 st1)
    as [st' [Hrun [Hc [Hp [Ho Hi]]]]].
  rewrite (bind_run _ _ _ _ _ Hrun). run. rewrite Z.add_0_l.
  eexists. split; [reflexivity|].
  cbn [customers products orders order_items tick] in *. auto.
Qed.

Section Orders.

Variable rc : gmap string string.
Variable ec : gmap string Z.
Variable rp : gmap string string.
Variable np : gmap string Z.

Lemma insert_orders_loop_ok sales :
  (forall r, In r sales -> finite_cell (quantity r) = true) ->
  forall o i d st,
  let rows := new_rows rc ec rp np (tbl_next (orders st))
                       (tbl_next (order_items st)) sales in
  exists st',
    insert_orders_loop faults rc ec rp np sales o i d st
    = Ok (o + len (fst rows), i + len (snd rows),
          d + unmapped rc ec rp np sales) st'
    /\ customers st' = customers st
    /\ products st' = products st
    /\ tbl_rows (orders st') = tbl_rows (orders st) ++ fst rows
    /\ tbl_rows (order_items st') = tbl_rows (order_items st) ++ snd rows.
Proof.
  induction sales as [|r rest IH]; intros Hq o i d st.
  - exists st. unfold unmapped, count, len. cbn.
    rewrite !Z.add_0_r, !app_nil_r. auto.
  - assert (Hrest : forall r', In r' rest -> finite_cell (quantity r') = true)
      by (intros r' Hr'; apply Hq; now right).
    specialize (IH Hrest).
    pose proof (Hq r (or_introl eq_refl)) as Hfin.
    unfold finite_cell, holds in Hfin.
    cbn [insert_orders_loop new_rows]. unfold reconcile.
    unfold unmapped, count at 1. cbn [List.filter]. unfold reconcile at 1.
    destruct (resolve (rc !! _) ec) as [db_cid|].
    + destruct (resolve (rp !! _) np) as [db_pid|].
      * destruct (quantity r) as [q|] eqn:Hqr; [|discriminate].
        unfold insert_order, insert_item. cbn [int_of_cell]. rewrite Hfin.
        run. unfold bind at 1. cbv beta iota. run.
        cbn [orders order_items customers products requests tick
             inserted tbl_next tbl_rows fst snd notna negb fmap
             option_fmap option_map from_option id].
        rewrite Z.add_simpl_r.
        match goal with |- context [insert_orders_loop _ _ _ _ _ rest ?o' ?i' ?d' ?st1] =>
          destruct (IH o' i' d' st1) as [st' [Hrun [Hc [Hp [Ho Hi]]]]]
        end.
        cbn [orders order_items customers products requests tick
             inserted tbl_next tbl_rows] in *.
        exists st'. rewrite Hrun, Ho, Hi, <- !app_assoc. cbn [app].
        unfold len, unmapped, count in *. cbn [length].
        repeat split; try assumption. f_equal.
        apply pair_equal_spec; split; [apply pair_equal_spec; split|];
          unfold len; lia.
      * cbn [notna negb].
        destruct (IH o i (d + 1) st) as [st' [Hrun [Hc [Hp [Ho Hi]]]]].
        exists st'. rewrite Hrun. unfold len, unmapped, count in *.
        cbn [length]. repeat split; try assumption.
        f_equal. apply pair_equal_spec; split; [reflexivity|unfold len; lia].
    + cbn [notna negb].
      destruct (IH o i (d + 1) st) as [st' [Hrun [Hc [Hp [Ho Hi]]]]].
      exists st'. rewrite Hrun. unfold len, unmapped, count in *.
      cbn [length]. repeat split; try assumption.
      f_equal. apply pair_equal_spec; split; [reflexivity|unfold len; lia].
Qed.

End Orders.

Lemma insert_orders_and_items_ok rc ec rp np sales st :
  (forall r, In r sales -> finite_cell (quantity r) = true) ->
  let rows := new_rows rc ec rp np (tbl_next (orders st))
                       (tbl_next (order_items st)) sales in
  exists st',
    insert_orders_and_items faults rc ec rp np sales st
    = Ok (len (fst rows), len (snd rows), unmapped rc ec rp np sales) st'
    /\ customers st' = customers st
    /\ products st' = products st
    /\ tbl_rows (orders st') = tbl_rows (orders st) ++ fst rows
    /\ tbl_rows (order_items st') = tbl_rows (order_items st) ++ snd rows.
Proof.
  intros Hq rows. subst rows.
  destruct (insert_orders_loop_ok rc ec rp np sales Hq 0 0 0 st)
    as [st' [Hrun [Hc [Hp [Ho Hi]]]]].
  unfold insert_orders_and_items, commit.
  unfold bind at 1. rewrite Hrun. run. rewrite !Z.add_0_l.
  eexists. split; [reflexivity|]. cbn in *. auto.
Qed.

Lemma stage_orders_ok sc rc rp st2 :
  (forall r, In r sc -> finite_cell (quantity r) = true) ->
  let ec := email_index (tbl_rows (customers st2)) in
  let np := name_index (tbl_rows (products st2)) in
  exists st3,
    stage_orders faults sc rc rp st2
    = Ok (len sc - unmapped rc ec rp np sc, len sc - unmapped rc ec rp np sc,
          unmapped rc ec rp np sc) st3.
Proof.
  intros Hq ec np. subst ec np.
  unfold stage_orders, fetch_customer_email_to_dbid,
    fetch_product_name_to_dbid.
  run. unfold bind at 1. cbv beta iota. run. unfold bind at 1. cbv beta iota.
  cbn [customers products tick].
  match goal with |- context [insert_orders_and_items _ ?a ?b ?c ?d sc ?st] =>
    destruct (insert_orders_and_items_ok a b c d sc st Hq)
      as [st3 [Hrun _]];
    destruct (new_rows_lengths a b c d (tbl_next (orders st))
                (tbl_next (order_items st)) sc) as [Hlo Hli]
  end.
  exists st3. rewrite Hrun, Hlo, Hli. reflexivity.
Qed.

(** A run with its three files and no storage fault, when the cast of the
    stock column and every [int] of a quantity succeed: the arguments of the
    report writer. *)
Lemma main_completes has_id dc dp ds pc pqc rp st0 :
  transform_products dp ds = inr (pc, pqc, rp) ->
  (forall r, In r (fst (transform_sales ds)) ->
             finite_cell (quantity r) = true) ->
  let sc := fst (transform_sales ds) in
  let sqc := snd (transform_sales ds) in
  let cc := fst (fst (transform_customers has_id dc)) in
  let cqc := snd (fst (transform_customers has_id dc)) in
  let rc := snd (transform_customers has_id dc) in
  let ec := email_index (tbl_rows (loaded_table cc)) in
  let np := name_index (tbl_rows (loaded_table pc)) in
  let dropped_fk := unmapped rc ec rp np sc in
  let n := len sc - dropped_fk in
  main faults (mkFiles (Some (has_id, dc)) (Some dp) (Some ds)) st0
  = Written (set_loaded (len cc) cqc) (set_loaded (len pc) pqc)
            (if dropped_fk =? 0 then set_loaded n sqc
             else add_dropped dropped_fk (set_loaded n sqc))
            (((if dropped_fk =? 0 then [] else [note_unmapped dropped_fk])
                ++ ["Orders inserted: " +:+ string_of_Z n])
               ++ ["Order items inserted: " +:+ string_of_Z n]).
Proof.
  intros Hret Hfin. cbv zeta.
  rewrite (main_stages faults has_id dc dp ds pc pqc rp st0 Hret). cbv zeta.
  destruct (stage_customers_ok (fst (fst (transform_customers has_id dc))) st0)
    as [st1 [H1 [Hc1 [Hp1 _]]]].
  rewrite H1.
  destruct (insert_products_ok pc st1) as [st2 [H2 [Hc2 [Hp2 _]]]].
  rewrite H2.
  destruct (stage_orders_ok (fst (transform_sales ds))
              (snd (transform_customers has_id dc)) rp st2 Hfin)
    as [st3 H3].
  rewrite Hc2, Hc1, Hp2, Hp1 in H3.
  fold (loaded_table pc) in H3.
  rewrite H3. unfold conn_close. rewrite request_ok. reflexivity.
Qed.

(** ** What [int] makes of a quantity, row by row *)

Section Quantities.

Variable rc : gmap string string.
Variable ec : gmap string Z.
Variable rp : gmap string string.
Variable np : gmap string Z.

(** One row that resolves to both keys: the order is stored, then [int]
    reads the quantity, then the item is stored. *)
Lemma insert_order_and_item_step (o : Order num) db_pid q up sub
      (k : DB (Z * Z * Z)) st :
  num_finite q = true ->
  exists st1,
    bind (insert_order faults o)
         (fun order_id =>
            bind (int_of_cell (Some q))
                 (fun qty =>
                    bind (insert_item faults
                            (mkOrderItem order_id db_pid qty up sub))
                         (fun _ => k))) st
    = k st1.
Proof.
  intros Hfin. unfold insert_order, insert_item. cbn [int_of_cell].
  rewrite Hfin.
  run. unfold bind at 1. cbv beta iota. run.
  eexists. reflexivity.
Qed.

(** The row [int] refuses: the order is stored and the exception leaves
    the loop before the item. *)
Lemma insert_order_refused (o : Order num) (c : option num) e
      (k : Z -> Z -> DB (Z * Z * Z)) st :
  int_of_cell c = raise e ->
  bind (insert_order faults o)
       (fun order_id => bind (int_of_cell c) (k order_id)) st
  = Raise e.
Proof.
  intros Hc. unfold insert_order. rewrite Hc.
  run. unfold bind at 1. cbv beta iota. reflexivity.
Qed.

Lemma refusal_None c : refusal c = None <-> finite_cell c = true.
Proof.
  unfold refusal, finite_cell, holds. destruct c as [q|].
  - destruct (num_finite q); split; congruence.
  - split; discriminate.
Qed.

Lemma int_of_cell_refusal c e :
  refusal c = Some e -> int_of_cell c = raise e.
Proof.
  unfold refusal, int_of_cell. destruct c as [q|].
  - destruct (num_finite q); [discriminate|]. now intros [= <-].
  - now intros [= <-].
Qed.

(** The loop returns when every row that resolves to both keys has a
    finite quantity, and otherwise raises what [int] raises on the first
    such row that has not. *)
Lemma insert_orders_loop_cases sales o i d st :
  (exists pre r post e,
     sales = pre ++ r :: post
     /\ (forall r', In r' pre -> reconcile rc ec rp np r' <> None ->
                    finite_cell (quantity r') = true)
     /\ reconcile rc ec rp np r <> None
     /\ refusal (quantity r) = Some e
     /\ insert_orders_loop faults rc ec rp np sales o i d st = Raise e)
  \/ ((forall r, In r sales -> reconcile rc ec rp np r <> None ->
                 finite_cell (quantity r) = true)
      /\ exists res st',
           insert_orders_loop faults rc ec rp np sales o i d st = Ok res st').
Proof.
  revert o i d st. induction sales as [|r rest IH]; intros o i d st.
  - right. split; [intros r []|]. cbn. unfold ret. eauto.
  - assert (Hcons :
      forall o' i' d' st1,
        (reconcile rc ec rp np r <> None -> finite_cell (quantity r) = true) ->
        insert_orders_loop faults rc ec rp np (r :: rest) o i d st
        = insert_orders_loop faults rc ec rp np rest o' i' d' st1 ->
        (exists pre r0 post e,
           r :: rest = pre ++ r0 :: post
           /\ (forall r', In r' pre -> reconcile rc ec rp np r' <> None ->
                          finite_cell (quantity r') = true)
           /\ reconcile rc ec rp np r0 <> None
           /\ refusal (quantity r0) = Some e
           /\ insert_orders_loop faults rc ec rp np (r :: rest) o i d st
              = Raise e)
        \/ ((forall r0, In r0 (r :: rest) ->
                        reconcile rc ec rp np r0 <> None ->
                        finite_cell (quantity r0) = true)
            /\ exists res st',
                 insert_orders_loop faults rc ec rp np (r :: rest) o i d st
                 = Ok res st')).
    { intros o' i' d' st1 Hr Hstep. rewrite Hstep.
      destruct (IH o' i' d' st1)
        as [(pre & r0 & post & e & -> & Hpre & Hrec & Href & Hrun)
           |[Hall Hrun]].
      - left. exists (r :: pre), r0, post, e.
        split; [reflexivity|]. split; [|auto].
        intros r' [<-|Hin]; [exact Hr|now apply Hpre].
      - right. split; [|exact Hrun].
        intros r0 [<-|Hin]; [exact Hr|now apply Hall]. }
    destruct (resolve (rc !! strip (py_str (customer_id r))) ec)
      as [db_cid|] eqn:Ec.
    + destruct (resolve (rp !! strip (py_str (product_id r))) np)
        as [db_pid|] eqn:Ep.
      * assert (Hrec : reconcile rc ec rp np r <> None)
          by (unfold reconcile; rewrite Ec, Ep; discriminate).
        destruct (refusal (quantity r)) as [e|] eqn:Href.
        -- left. exists [], r, rest, e.
           split; [reflexivity|]. split; [intros r' []|].
           split; [exact Hrec|]. split; [exact Href|].
           cbn [insert_orders_loop]. rewrite Ec, Ep.
           apply insert_order_refused. now apply int_of_cell_refusal.
        -- pose proof (proj1 (refusal_None _) Href) as Hfin.
           unfold finite_cell, holds in Hfin.
           destruct (quantity r) as [q|] eqn:Hq; [|discriminate].
           match goal with
           | |- context [insert_orders_loop faults rc ec rp np (r :: rest)
                           o i d st] =>
               destruct (insert_order_and_item_step
                           (mkOrder db_cid (order_date r) (total_amount r)
                                    (status_or_pending (status r)))
                           db_pid q (unit_price r) (subtotal r)
                           (insert_orders_loop faults rc ec rp np rest
                              (o + 1) (i + 1) d) st Hfin) as [st1 Hstep]
           end.
           apply (Hcons (o + 1) (i + 1) d st1).
           ++ intros _. exact Hfin.
           ++ cbn [insert_orders_loop]. rewrite Ec, Ep, Hq. exact Hstep.
      * apply (Hcons o i (d + 1) st).
        -- unfold reconcile. rewrite Ec, Ep. congruence.
        -- cbn [insert_orders_loop]. now rewrite Ec, Ep.
    + apply (Hcons o i (d + 1) st).
      * unfold reconcile. rewrite Ec. congruence.
      * cbn [insert_orders_loop]. now rewrite Ec.
Qed.

Lemma insert_orders_and_items_cases sales st :
  (exists pre r post e,
     sales = pre ++ r :: post
     /\ (forall r', In r' pre -> reconcile rc ec rp np r' <> None ->
                    finite_cell (quantity r') = true)
     /\ reconcile rc ec rp np r <> None
     /\ refusal (quantity r) = Some e
     /\ insert_orders_and_items faults rc ec rp np sales st = Raise e)
  \/ ((forall r, In r sales -> reconcile rc ec rp np r <> None ->
                 finite_cell (quantity r) = true)
      /\ exists res st',
           insert_orders_and_items faults rc ec rp np sales st = Ok res st').
Proof.
  unfold insert_orders_and_items.
  destruct (insert_orders_loop_cases sales 0 0 0 st)
    as [(pre & r & post & e & Hs & Hpre & Hrec & Href & Hrun)
       |[Hall (res & st' & Hrun)]].
  - left. exists pre, r, post, e. repeat (split; [assumption|]).
    unfold bind at 1. now rewrite Hrun.
  - right. split; [exact Hall|].
    rewrite (bind_run _ _ _ _ _ Hrun). unfold commit. run.
    unfold ret. eauto.
Qed.

End Quantities.

(** Without storage fault the third part of the [try] block raises only
    what [int] raises. *)
Lemma stage_orders_raises sc rc rp st e :
  stage_orders faults sc rc rp st = Raise e ->
  e = ValueError \/ e = OverflowError.
Proof.
  unfold stage_orders, fetch_customer_email_to_dbid,
    fetch_product_name_to_dbid.
  run. unfold bind at 1. cbv beta iota. run. unfold bind at 1. cbv beta iota.
  match goal with |- insert_orders_and_items _ ?a ?b ?c ?d sc ?st1 = _ -> _ =>
    destruct (insert_orders_and_items_cases a b c d sc st1)
      as [(pre & r & post & e' & _ & _ & _ & Href & Hrun)
         |[_ (res & st' & Hrun)]]
  end; rewrite Hrun; [|discriminate].
  intros [= <-]. unfold refusal in Href.
  destruct (quantity r) as [q|]; [|injection Href as <-; now left].
  destruct (num_finite q); [discriminate|]. injection Href as <-. now right.
Qed.

(** Without storage fault the third part returns when [int] accepts the
    quantity of every row that resolves to both keys. *)
Lemma stage_orders_returns sc rc rp st2 :
  (forall r, In r sc ->
             reconcile rc (email_index (tbl_rows (customers st2))) rp
                       (name_index (tbl_rows (products st2))) r <> None ->
             finite_cell (quantity r) = true) ->
  exists res st3, stage_orders faults sc rc rp st2 = Ok res st3.
Proof.
  intros Hfin.
  unfold stage_orders, fetch_customer_email_to_dbid,
    fetch_product_name_to_dbid.
  run. unfold bind at 1. cbv beta iota. run. unfold bind at 1. cbv beta iota.
  cbn [customers products tick].
  match goal with |- context [insert_orders_and_items _ ?a ?b ?c ?d sc ?st1] =>
    destruct (insert_orders_and_items_cases a b c d sc st1)
      as [(pre & r & post & e & Hs & _ & Hrec & Href & _)|[_ Hrun]]
  end; [|exact Hrun].
  exfalso. assert (Hin : In r sc)
    by (rewrite Hs; apply in_or_app; right; now left).
  specialize (Hfin r Hin Hrec). apply refusal_None in Hfin. congruence.
Qed.

(** A run without storage fault ends with the report when the product
    cleaner returns and [int] accepts the quantity of every cleaned sale
    that resolves to both keys. *)
Lemma main_returns has_id dc dp ds pc pqc rp st0 :
  transform_products dp ds = inr (pc, pqc, rp) ->
  (forall r,
     In r (fst (transform_sales ds)) ->
     reconcile (snd (transform_customers has_id dc))
       (email_index
          (tbl_rows (loaded_table (fst (fst (transform_customers has_id dc))))))
       rp (name_index (tbl_rows (loaded_table pc))) r <> None ->
     finite_cell (quantity r) = true) ->
  exists cq pq sq extra,
    main faults (mkFiles (Some (has_id, dc)) (Some dp) (Some ds)) st0
    = Written cq pq sq extra.
Proof.
  intros Hret Hfin.
  rewrite (main_stages faults has_id dc dp ds pc pqc rp st0 Hret). cbv zeta.
  destruct (stage_customers_ok (fst (fst (transform_customers has_id dc))) st0)
    as [st1 [H1 [Hc1 [Hp1 _]]]].
  rewrite H1.
  destruct (insert_products_ok pc st1) as [st2 [H2 [Hc2 [Hp2 _]]]].
  rewrite H2.
  destruct (stage_orders_returns (fst (transform_sales ds))
              (snd (transform_customers has_id dc)) rp st2)
    as ([[o i] d] & st3 & H3).
  { rewrite Hc2, Hc1, Hp2, Hp1. exact Hfin. }
  rewrite H3. unfold conn_close. rewrite request_ok.
  do 4 eexists. reflexivity.
Qed.

(** A run without storage fault that ends with the report: the product
    cleaner returned, the load completed, and the arguments of the report
    writer are those of [main_completes]. *)
Lemma main_written has_id dc dp ds st0 cq pq sq extra :
  main faults (mkFiles (Some (has_id, dc)) (Some dp) (Some ds)) st0
  = Written cq pq sq extra ->
  exists pc pqc rp,
    transform_products dp ds = inr (pc, pqc, rp)
    /\ let sc := fst (transform_sales ds) in
       let sqc := snd (transform_sales ds) in
       let cc := fst (fst (transform_customers has_id dc)) in
       let cqc := snd (fst (transform_customers has_id dc)) in
       let rc := snd (transform_customers has_id dc) in
       let ec := email_index (tbl_rows (loaded_table cc)) in
       let np := name_index (tbl_rows (loaded_table pc)) in
       let dropped_fk := unmapped rc ec rp np sc in
       let n := len sc - dropped_fk in
       cq = set_loaded (len cc) cqc
       /\ pq = set_loaded (len pc) pqc
       /\ sq = (if dropped_fk =? 0 then set_loaded n sqc
                else add_dropped dropped_fk (set_loaded n sqc))
       /\ extra
          = ((if dropped_fk =? 0 then [] else [note_unmapped dropped_fk])
               ++ ["Orders inserted: " +:+ string_of_Z n])
              ++ ["Order items inserted: " +:+ string_of_Z n].
Proof.
  destruct (transform_products dp ds) as [e|[[pc pqc] rp]] eqn:Hret.
  { rewrite (main_transform_raises faults has_id dc dp ds e st0 Hret).
    discriminate. }
  rewrite (main_stages faults has_id dc dp ds pc pqc rp st0 Hret). cbv zeta.
  destruct (stage_customers_ok (fst (fst (transform_customers has_id dc))) st0)
    as [st1 [H1 [Hc1 [Hp1 _]]]].
  rewrite H1.
  destruct (insert_products_ok pc st1) as [st2 [H2 [Hc2 [Hp2 _]]]].
  rewrite H2.
  destruct (stage_orders faults (fst (transform_sales ds))
              (snd (transform_customers has_id dc)) rp st2)
    as [[[o i] d] st3|e] eqn:H3.
  2:{ destruct (stage_orders_raises _ _ _ _ _ H3) as [->| ->]; discriminate. }
  pose proof (stage_orders_count faults _ _ _ _ _ _ _ _ H3)
    as (-> & Hsum & _ & _).
  apply stage_orders_dropped in H3.
  rewrite Hc2, Hc1, Hp2, Hp1 in H3.
  fold (loaded_table pc) in H3. subst d.
  unfold conn_close. rewrite request_ok.
  set (d := unmapped _ _ _ _ _) in *.
  replace (len (fst (transform_sales ds)) - d) with i by lia.
  intros Hw. exists pc, pqc, rp. split; [reflexivity|].
  cbv zeta. fold d.
  replace (len (fst (transform_sales ds)) - d) with i by lia.
  now injection Hw as <- <- <- <-.
Qed.

End FaultFree.

(** ** The notes are told apart *)





(** ** Reconciliation: the claims *)




(** ** Row conservation *)

(** C10.  For each cleaner the rows read are the duplicates removed, the
    rows dropped and the rows emitted, whenever the cleaner returns (the
    customers and the sales cleaners always do); in a run without storage
    fault that ends with the report, the sales ledger that reaches the
    report keeps the identity, with [loaded] in the place of the rows
    emitted.  Such a run ends with the report when the product cleaner
    returns and the quantities of the cleaned sales are finite. *)
Theorem rows_are_conserved :
  forall (P : Pandas) (faults : nat -> option string)
         (has_id : bool) (dc : list RawCustomer) (dp : list RawProduct)
         (ds : list RawSale) (st0 : Store num),
    (let qc := snd (fst (transform_customers has_id dc)) in
     rows_read qc
     = duplicates_removed qc + rows_dropped qc
       + len (fst (fst (transform_customers has_id dc))))
    /\ (forall pc qc m,
          transform_products dp ds = inr (pc, qc, m) ->
          rows_read qc = duplicates_removed qc + rows_dropped qc + len pc)
    /\ (let qc := snd (transform_sales ds) in
        rows_read qc
        = duplicates_removed qc + rows_dropped qc
          + len (fst (transform_sales ds)))
    /\ ((forall n, faults n = None) ->
        (forall cq pq sq extra,
           main faults (mkFiles (Some (has_id, dc)) (Some dp) (Some ds)) st0
           = Written cq pq sq extra ->
           rows_read sq = len ds
           /\ rows_read sq
              = duplicates_removed sq + rows_dropped sq + loaded sq)
        /\ (forall pc qc m,
              transform_products dp ds = inr (pc, qc, m) ->
              (forall r, In r (fst (transform_sales ds)) ->
                         finite_cell (quantity r) = true) ->
              exists cq pq sq extra,
                main faults (mkFiles (Some (has_id, dc)) (Some dp) (Some ds))
                     st0
                = Written cq pq sq extra)).
Proof.
  intros P faults has_id dc dp ds st0.
  assert (Hc : rows_read (snd (fst (transform_customers has_id dc)))
               = duplicates_removed (snd (fst (transform_customers has_id dc)))
                 + rows_dropped (snd (fst (transform_customers has_id dc)))
                 + len (fst (fst (transform_customers has_id dc)))).
  { pose proof (transform_customers_conserves has_id dc) as H.
    now destruct (transform_customers has_id dc) as [[cc cqc] rc]. }
  assert (Hs : rows_read (snd (transform_sales ds))
               = duplicates_removed (snd (transform_sales ds))
                 + rows_dropped (snd (transform_sales ds))
                 + len (fst (transform_sales ds))).
  { pose proof (transform_sales_conserves ds) as H.
    now destruct (transform_sales ds) as [sc sqc]. }
  assert (Hrr : rows_read (snd (transform_sales ds)) = len ds).
  { unfold transform_sales. cbv zeta. cbn [snd]. note_if_simpl.
    cbn [add_dropped rows_read]. note_if_simpl. reflexivity. }
  cbv zeta. split; [exact Hc|]. split; [|split; [exact Hs|]].
  { intros pc qc m Hret.
    apply transform_products_inr in Hret as (_ & -> & -> & _).
    pose proof (products_ledger_conserves dp ds) as H. cbv zeta in H.
    rewrite H. unfold len. now rewrite length_map. }
  intros Hnf. split.
  - intros cq pq sq extra Hmain.
    apply (main_written faults Hnf) in Hmain as (pc & pqc & rp & _ & Hmain).
    cbv zeta in Hmain. destruct Hmain as (_ & _ & -> & _).
    set (d := unmapped _ _ _ _ _).
    revert Hs Hrr. generalize (snd (transform_sales ds)). intros sqc Hs Hrr.
    destruct (d =? 0) eqn:Hd;
      cbn [rows_read duplicates_removed rows_dropped loaded set_loaded
           add_dropped].
    + apply Z.eqb_eq in Hd. split; [assumption|]. lia.
    + split; [assumption|]. lia.
  - intros pc qc m Hret Hfin.
    pose proof (main_completes faults Hnf has_id dc dp ds pc qc m st0
                  Hret Hfin) as Hmain.
    cbv zeta in Hmain. do 4 eexists. exact Hmain.
Qed.

Lemma rows_are_conserved_witness :
  exists cq pq sq extra,
    main (P := Decimal.instance) (fun _ => None) demo_files empty_store
    = Written cq pq sq extra
    /\ rows_read sq = len demo_sales
    /\ rows_read sq = duplicates_removed sq + rows_dropped sq + loaded sq.
Proof.
  destruct (proj2 (proj2 (proj2
              (rows_are_conserved Decimal.instance (fun _ => None) true
                 demo_customers demo_products demo_sales empty_store)))
              (fun _ => eq_refl))
    as [Hid Hrun].
  assert (Hfin : forall r,
             In r (fst (transform_sales (P := Decimal.instance) demo_sales)) ->
             finite_cell (P := Decimal.instance) (quantity r) = true).
  { apply List.Forall_forall. vm_compute. repeat constructor. }
  destruct (Hrun _ _ _ eq_refl Hfin) as (cq & pq & sq & extra & Hmain).
  exists cq, pq, sq, extra. split; [exact Hmain|].
  exact (Hid cq pq sq extra Hmain).
Defined.

(** A product whose name is blank in the file is stored under the empty
    name, and the sale that references it is dropped by the reconciler of
    a complete run. *)
Example blank_product_name_reaches_the_reconciler :
  main (P := Decimal.instance) (fun _ => None) blank_name_files empty_store
  = Written (mkQC 1 0 0 0 1 []) (mkQC 1 0 0 0 1 []) (mkQC 1 0 1 0 0 [])
            [note_unmapped 1; "Orders inserted: 0"; "Order items inserted: 0"].
Proof. vm_compute. reflexivity. Qed.

(** A stock cell that reads as an infinity ends the run before the load,
    and a quantity that does ends it during the load; no report is
    written. *)
Example infinite_stock_ends_the_run :
  main (P := Decimal.instance) (fun _ => None) infinite_stock_files empty_store
  = Raised IntCastingNaNError.
Proof. vm_compute. reflexivity. Qed.

Example infinite_quantity_ends_the_run :
  main (P := Decimal.instance) (fun _ => None) infinite_quantity_files
       empty_store
  = Raised OverflowError.
Proof. vm_compute. reflexivity. Qed.


(** * Further properties of the code *)

(** ** Text: trimming, case and digits *)

Lemma append_cons c s t : String c s +:+ t = String c (s +:+ t).
Proof. reflexivity. Qed.

Lemma append_nil t : "" +:+ t = t.
Proof. reflexivity. Qed.

Lemma slen_append a b : slen (a +:+ b) = (slen a + slen b)%nat.
Proof.
  unfold slen. induction a as [|c a IH]; [reflexivity|].
  rewrite append_cons. simpl. now rewrite IH.
Qed.

Lemma sfilter_append p a b : sfilter p (a +:+ b) = sfilter p a +:+ sfilter p b.
Proof.
  induction a as [|c a IH]; [reflexivity|].
  rewrite append_cons. simpl. destruct (p c); [|exact IH].
  now rewrite append_cons, IH.
Qed.

Lemma all_digits_sfilter s : all_digits (sfilter isdigit s) = true.
Proof.
  induction s as [|c r IH]; [reflexivity|]. simpl.
  destruct (isdigit c) eqn:Hc; [|exact IH]. simpl. now rewrite Hc.
Qed.

Lemma all_digits_append a b :
  all_digits (a +:+ b) = all_digits a && all_digits b.
Proof.
  induction a as [|c a IH]; [reflexivity|].
  rewrite append_cons. simpl. now rewrite IH, andb_assoc.
Qed.

Lemma sfilter_all_digits s : all_digits s = true -> sfilter isdigit s = s.
Proof.
  induction s as [|c r IH]; [reflexivity|]. simpl.
  intros H. apply andb_true_iff in H. destruct H as [Hc Hr].
  now rewrite Hc, IH.
Qed.

Lemma substring_append_r a b :
  String.substring (String.length a) (String.length b) (a +:+ b) = b.
Proof.
  induction a as [|c a IH].
  - rewrite append_nil. now apply substring_all.
  - rewrite append_cons. cbn [String.length String.substring]. exact IH.
Qed.

Lemma last_n_append a b : last_n (slen b) (a +:+ b) = b.
Proof.
  unfold last_n. rewrite slen_append.
  replace (slen a + slen b - slen b)%nat with (slen a) by lia.
  apply substring_append_r.
Qed.

Lemma isspace_lower_char c : isspace (lower_char c) = isspace c.
Proof. ascii_cases c; reflexivity. Qed.

Lemma isspace_upper_char c : isspace (upper_char c) = isspace c.
Proof. ascii_cases c; reflexivity. Qed.

(** Changing the case of a character does not make it a blank, nor a
    blank something else. *)
Lemma isspace_title_char b c : isspace (title_char b c) = isspace c.
Proof.
  unfold title_char. destruct b.
  - apply isspace_lower_char.
  - apply isspace_upper_char.
Qed.

Lemma title_from_cons b c r :
  title_from b (String c r) = String (title_char b c) (title_from (iscased c) r).
Proof. reflexivity. Qed.

Lemma is_empty_title_from b s : is_empty (title_from b s) = is_empty s.
Proof. now destruct s. Qed.

Lemma rstrip_title_from b s : rstrip (title_from b s) = title_from b (rstrip s).
Proof.
  revert b. induction s as [|c r IH]; intros b; [reflexivity|].
  rewrite title_from_cons. simpl. rewrite IH.
  pose proof (isspace_title_char b c) as Hs.
  destruct (rstrip r) as [|a t]; simpl.
  - rewrite Hs. now destruct (isspace c).
  - reflexivity.
Qed.

Lemma lstrip_head s c r : lstrip s = String c r -> isspace c = false.
Proof.
  induction s as [|a t IH]; simpl; [discriminate|].
  destruct (isspace a) eqn:Ha; [exact IH|]. now intros [= <- _].
Qed.

Lemma lstrip_title_from_lstrip b s :
  lstrip (title_from b (lstrip s)) = title_from b (lstrip s).
Proof.
  destruct (lstrip s) as [|c r] eqn:Hs; [reflexivity|].
  apply lstrip_head in Hs. rewrite title_from_cons. simpl.
  now rewrite isspace_title_char, Hs.
Qed.

(** Title-casing a trimmed text leaves it trimmed. *)
Lemma strip_title_strip s : strip (title (strip s)) = title (strip s).
Proof.
  unfold strip, title.
  rewrite <- rstrip_title_from.
  pose proof (lstrip_title_from_lstrip false s) as Ht.
  remember (title_from false (lstrip s)) as t.
  rewrite <- Ht. now rewrite strip_idem_lstrip, rstrip_idem.
Qed.

(** ** Field normalisers *)

Lemma normalise_phone_rule (phone : cell) :
  normalise_phone phone = phone_rule (py_str phone).
Proof.
  unfold normalise_phone, phone_rule.
  destruct (is_sentinel (strip (py_str phone))) eqn:Hs.
  - apply sentinel_no_digit in Hs. rewrite sfilter_strip in Hs.
    now rewrite Hs.
  - now rewrite sfilter_strip.
Qed.

Lemma phone_rule_shape text out :
  phone_rule text = Some out ->
  exists d10, out = "+91-" +:+ d10 /\ slen d10 = 10%nat /\ all_digits d10 = true.
Proof.
  unfold phone_rule.
  destruct (slen (sfilter isdigit text) <? 10)%nat eqn:Hlen; [discriminate|].
  intros [= <-]. apply Nat.ltb_ge in Hlen.
  destruct (last_n_suffix 10 _ Hlen) as [pre [Hpre Hl]].
  exists (last_n 10 (sfilter isdigit text)). repeat split; [exact Hl|].
  pose proof (all_digits_sfilter text) as Hd.
  rewrite Hpre, all_digits_append in Hd.
  now apply andb_true_iff in Hd.
Qed.

(** X1.  A normalised phone is [+91-] followed by exactly ten digits, and
    normalising is idempotent: a phone that went through [normalise_phone]
    comes out of it unchanged, and an absent one stays absent. *)
Theorem normalise_phone_canonical_idempotent :
  forall phone : cell,
    (forall out,
       normalise_phone phone = Some out ->
       slen out = 14%nat
       /\ exists d10,
            out = "+91-" +:+ d10 /\ slen d10 = 10%nat /\ all_digits d10 = true)
    /\ normalise_phone (normalise_phone phone) = normalise_phone phone.
Proof.
  intros phone.
  assert (Hshape : forall out,
            normalise_phone phone = Some out ->
            exists d10,
              out = "+91-" +:+ d10 /\ slen d10 = 10%nat /\ all_digits d10 = true).
  { intros out. rewrite normalise_phone_rule. apply phone_rule_shape. }
  split.
  - intros out Hout. destruct (Hshape out Hout) as [d10 [-> [Hl Hd]]].
    split; [|now exists d10]. rewrite slen_append, Hl. reflexivity.
  - destruct (normalise_phone phone) as [out|] eqn:Hout; [|reflexivity].
    destruct (Hshape out eq_refl) as [d10 [-> [Hl Hd]]].
    rewrite normalise_phone_rule. cbn [py_str]. unfold phone_rule.
    rewrite sfilter_append, (sfilter_all_digits d10 Hd).
    change (sfilter isdigit "+91-") with "91".
    rewrite slen_append, Hl. cbn [slen String.length Nat.add Nat.ltb Nat.leb].
    rewrite <- Hl at 1. now rewrite last_n_append.
Qed.

Lemma normalise_phone_canonical_idempotent_witness :
  slen "+91-9876543210" = 14%nat
  /\ exists d10,
       "+91-9876543210" = "+91-" +:+ d10 /\ slen d10 = 10%nat
       /\ all_digits d10 = true.
Proof.
  apply (proj1 (normalise_phone_canonical_idempotent
                  (Some "(0091) 98765 43210"))).
  reflexivity.
Defined.

(** X2.  [normalise_city] is absent exactly on the cells whose trimmed text
    is empty or a sentinel token, a missing cell included; otherwise it is
    the title-cased trimmed text, which is not empty and has no blank
    around it. *)
Theorem normalise_city_absent_or_title :
  forall city : cell,
    (normalise_city city = None <-> is_sentinel (strip (py_str city)) = true)
    /\ (forall out, normalise_city city = Some out ->
          out = title (strip (py_str city)) /\ out <> "" /\ strip out = out)
    /\ normalise_city None = None.
Proof.
  intros city.
  assert (Heq : forall c,
            normalise_city c
            = if is_sentinel (strip (py_str c)) then None
              else Some (title (strip (py_str c)))) by reflexivity.
  split; [|split; [|reflexivity]].
  - rewrite Heq. destruct (is_sentinel _); split; try reflexivity; discriminate.
  - intros out. rewrite Heq.
    destruct (is_sentinel (strip (py_str city))) eqn:Hs; [discriminate|].
    intros [= <-]. split; [reflexivity|]. split.
    + intros He.
      assert (is_empty (title (strip (py_str city))) = true) as Hem
        by now rewrite He.
      unfold title in Hem. rewrite is_empty_title_from in Hem.
      unfold is_sentinel in Hs. now rewrite Hem in Hs.
    + apply strip_title_strip.
Qed.

Lemma normalise_city_absent_or_title_witness :
  "New Delhi" = title (strip (py_str (Some "  new DELHI ")))
  /\ "New Delhi" <> "" /\ strip "New Delhi" = "New Delhi".
Proof.
  apply (proj1 (proj2 (normalise_city_absent_or_title
                         (Some "  new DELHI ")))).
  reflexivity.
Defined.

(** X3.  [normalise_category] never gives an empty label: the three
    synonyms give their canonical label whatever their case and the blanks
    around them, a blank text gives [Unknown], any other text its
    title-cased trim; a missing cell is the float NaN, not [None], so it
    gives [Nan]. *)
Theorem normalise_category_never_empty :
  forall cat : cell,
    normalise_category cat <> ""
    /\ (lower (strip (py_str cat)) = "electronics" ->
        normalise_category cat = "Electronics")
    /\ (lower (strip (py_str cat)) = "fashion" ->
        normalise_category cat = "Fashion")
    /\ (lower (strip (py_str cat)) = "groceries" ->
        normalise_category cat = "Groceries")
    /\ (strip (py_str cat) = "" -> normalise_category cat = "Unknown")
    /\ normalise_category None = "Nan"
    /\ (lower (strip (py_str cat)) <> "electronics" ->
        lower (strip (py_str cat)) <> "fashion" ->
        lower (strip (py_str cat)) <> "groceries" ->
        strip (py_str cat) <> "" ->
        normalise_category cat = title (strip (py_str cat))).
Proof.
  intros cat. unfold normalise_category, str_eqb.
  set (s := strip (py_str cat)).
  repeat split.
  - repeat case_bool_decide; try discriminate.
    destruct s as [|c r]; [discriminate|]. discriminate.
  - intros ->. reflexivity.
  - intros ->. reflexivity.
  - intros ->. reflexivity.
  - intros ->. reflexivity.
  - intros H1 H2 H3 H4.
    repeat case_bool_decide; try contradiction.
    destruct s as [|c r]; [contradiction|reflexivity].
Qed.

Lemma normalise_category_never_empty_witness :
  normalise_category (Some " ELECTRONICS ") = "Electronics".
Proof.
  apply (proj1 (proj2 (normalise_category_never_empty
                         (Some " ELECTRONICS ")))).
  reflexivity.
Defined.

(** ** Dates: how the five formats read a text *)

Lemma Z_range_ind (Q : Z -> Prop) (lo : Z) (n : nat) :
  (forall i, (i < n)%nat -> Q (lo + Z.of_nat i)) ->
  forall a, lo <= a < lo + Z.of_nat n -> Q a.
Proof.
  intros H a Ha.
  replace a with (lo + Z.of_nat (Z.to_nat (a - lo))) by lia.
  apply H. lia.
Qed.

Lemma digit_char_facts k :
  0 <= k <= 9 ->
  isdigit (digit_char k) = true
  /\ isspace (digit_char k) = false
  /\ digit_val (digit_char k) = k.
Proof.
  intros Hk.
  apply (Z_range_ind
           (fun k => isdigit (digit_char k) = true
                     /\ isspace (digit_char k) = false
                     /\ digit_val (digit_char k) = k) 0 10); [|lia].
  intros i Hi.
  do 10 (destruct i as [|i]; [repeat split|]). lia.
Qed.

Lemma match_Y_pad4 y r :
  0 <= y <= 9999 -> match_Y (pad4 y +:+ r) = [(y, r)].
Proof.
  intros Hy. unfold pad4. rewrite !append_cons, append_nil.
  assert (H1 : 0 <= y / 1000 <= 9) by (Z.div_mod_to_equations; lia).
  assert (H2 : 0 <= y / 100 mod 10 <= 9) by (Z.div_mod_to_equations; lia).
  assert (H3 : 0 <= y / 10 mod 10 <= 9) by (Z.div_mod_to_equations; lia).
  assert (H4 : 0 <= y mod 10 <= 9) by (Z.div_mod_to_equations; lia).
  destruct (digit_char_facts _ H1) as [D1 [_ V1]].
  destruct (digit_char_facts _ H2) as [D2 [_ V2]].
  destruct (digit_char_facts _ H3) as [D3 [_ V3]].
  destruct (digit_char_facts _ H4) as [D4 [_ V4]].
  unfold match_Y. rewrite D1, D2, D3, D4, V1, V2, V3, V4. cbn [andb].
  do 2 f_equal. Z.div_mod_to_equations. lia.
Qed.

Lemma matches_Y k acc y r :
  0 <= y <= 9999 ->
  matches (TY :: k) acc (pad4 y +:+ r) = matches k (set_Y y acc) r.
Proof.
  intros Hy. cbn [matches]. rewrite (match_Y_pad4 y r Hy).
  cbn [flat_map]. apply app_nil_r.
Qed.

Lemma matches_Y_end acc y :
  0 <= y <= 9999 -> matches [TY] acc (pad4 y) = [(set_Y y acc, "")].
Proof.
  intros Hy. pose proof (matches_Y [] acc y "" Hy) as H.
  replace (pad4 y +:+ "") with (pad4 y) in H; [exact H|].
  unfold pad4. now rewrite !append_cons, append_nil.
Qed.

Lemma matches_lit k acc c r :
  matches (TLit c :: k) acc (String c r) = matches k acc r.
Proof. cbn [matches]. now rewrite bool_decide_eq_true_2. Qed.

Ltac token_case :=
  match goal with
  | |- context [pad2 ?n] =>
      let v := eval vm_compute in (pad2 n) in change (pad2 n) with v
  end;
  rewrite ?append_cons, ?append_nil; cbn;
  repeat match goal with
         | |- context [is_in ?a ?b ?c] =>
             let v := eval vm_compute in (is_in a b c) in
             change (is_in a b c) with v
         | |- context [isdigit ?c] =>
             let v := eval vm_compute in (isdigit c) in
             change (isdigit c) with v
         end;
  cbn; rewrite ?app_nil_r; reflexivity.

Lemma matches_m_sep s k acc m r :
  1 <= m <= 12 ->
  matches (Tm :: TLit (sep_char s) :: k) acc (pad2 m +:+ String (sep_char s) r)
  = matches k (set_m m acc) r.
Proof.
  intros Hm.
  apply (Z_range_ind
           (fun m => matches (Tm :: TLit (sep_char s) :: k) acc
                             (pad2 m +:+ String (sep_char s) r)
                     = matches k (set_m m acc) r) 1 12); [|lia].
  intros i Hi.
  destruct s; do 12 (destruct i as [|i]; [token_case|]); lia.
Qed.

Lemma matches_d_sep s k acc d r :
  1 <= d <= 31 ->
  matches (Td :: TLit (sep_char s) :: k) acc (pad2 d +:+ String (sep_char s) r)
  = matches k (set_d d acc) r.
Proof.
  intros Hd.
  apply (Z_range_ind
           (fun d => matches (Td :: TLit (sep_char s) :: k) acc
                             (pad2 d +:+ String (sep_char s) r)
                     = matches k (set_d d acc) r) 1 31); [|lia].
  intros i Hi.
  destruct s; do 31 (destruct i as [|i]; [token_case|]); lia.
Qed.

(** At the end of the text [%d] takes its two digits first. *)
Lemma matches_d_end acc d :
  1 <= d <= 31 ->
  exists tl, matches [Td] acc (pad2 d) = (set_d d acc, "") :: tl.
Proof.
  intros Hd.
  apply (Z_range_ind
           (fun d => exists tl,
                       matches [Td] acc (pad2 d) = (set_d d acc, "") :: tl)
           1 31); [|lia].
  intros i Hi.
  do 31 (destruct i as [|i]; [eexists; vm_compute; reflexivity|]). lia.
Qed.

(** [%Y] does not read a text that starts with a two-digit field. *)
Lemma matches_Y_short s k acc a r :
  matches (TY :: k) acc (pad2 a +:+ String (sep_char s) r) = [].
Proof.
  unfold pad2. rewrite !append_cons, append_nil. cbn [matches match_Y].
  destruct r as [|x r]; [reflexivity|].
  replace (isdigit (sep_char s)) with false by now destruct s.
  now rewrite !andb_false_r.
Qed.

(** A field followed by the other separator is not read. *)
Lemma matches_d_other_sep s k acc a r :
  1 <= a <= 31 ->
  matches (Td :: TLit (sep_char (other_sep s)) :: k) acc
          (pad2 a +:+ String (sep_char s) r) = [].
Proof.
  intros Ha.
  apply (Z_range_ind
           (fun a => matches (Td :: TLit (sep_char (other_sep s)) :: k) acc
                             (pad2 a +:+ String (sep_char s) r) = []) 1 31);
    [|lia].
  intros i Hi.
  destruct s; do 31 (destruct i as [|i]; [token_case|]); lia.
Qed.

Lemma matches_m_other_sep s k acc a r :
  1 <= a <= 31 ->
  matches (Tm :: TLit (sep_char (other_sep s)) :: k) acc
          (pad2 a +:+ String (sep_char s) r) = [].
Proof.
  intros Ha.
  apply (Z_range_ind
           (fun a => matches (Tm :: TLit (sep_char (other_sep s)) :: k) acc
                             (pad2 a +:+ String (sep_char s) r) = []) 1 31);
    [|lia].
  intros i Hi.
  destruct s; do 31 (destruct i as [|i]; [token_case|]); lia.
Qed.

(** [%m] does not read a field above 12. *)
Lemma matches_m_above_12 s k acc a r :
  13 <= a <= 31 ->
  matches (Tm :: TLit (sep_char s) :: k) acc (pad2 a +:+ String (sep_char s) r)
  = [].
Proof.
  intros Ha.
  apply (Z_range_ind
           (fun a => matches (Tm :: TLit (sep_char s) :: k) acc
                             (pad2 a +:+ String (sep_char s) r) = []) 13 19);
    [|lia].
  intros i Hi.
  destruct s; do 19 (destruct i as [|i]; [token_case|]); lia.
Qed.

Lemma rstrip_no_blank s : no_blank s = true -> rstrip s = s.
Proof.
  induction s as [|c r IH]; [reflexivity|].
  cbn [no_blank rstrip]. intros [Hc Hr]%andb_true_iff.
  rewrite (IH Hr). apply negb_true_iff in Hc. rewrite Hc.
  now destruct r.
Qed.

Lemma strip_no_blank s : no_blank s = true -> strip s = s.
Proof.
  intros H. unfold strip.
  replace (lstrip s) with s; [now apply rstrip_no_blank|].
  destruct s as [|c r]; [reflexivity|].
  cbn [no_blank] in H. apply andb_true_iff in H as [Hc _].
  apply negb_true_iff in Hc. cbn [lstrip]. now rewrite Hc.
Qed.

Lemma no_blank_append a b :
  no_blank a = true -> no_blank b = true -> no_blank (a +:+ b) = true.
Proof.
  intros Ha Hb. induction a as [|c r IH]; [exact Hb|].
  rewrite append_cons. cbn [no_blank] in *.
  apply andb_true_iff in Ha as [Hc Hr]. now rewrite Hc, (IH Hr).
Qed.

Lemma no_blank_pad2 n : 0 <= n <= 99 -> no_blank (pad2 n) = true.
Proof.
  intros Hn. unfold pad2. cbn [no_blank].
  assert (H1 : 0 <= n / 10 <= 9) by (Z.div_mod_to_equations; lia).
  assert (H2 : 0 <= n mod 10 <= 9) by (Z.div_mod_to_equations; lia).
  destruct (digit_char_facts _ H1) as [_ [-> _]].
  now destruct (digit_char_facts _ H2) as [_ [-> _]].
Qed.

Lemma no_blank_pad4 y : 0 <= y <= 9999 -> no_blank (pad4 y) = true.
Proof.
  intros Hy. unfold pad4. cbn [no_blank].
  assert (H1 : 0 <= y / 1000 <= 9) by (Z.div_mod_to_equations; lia).
  assert (H2 : 0 <= y / 100 mod 10 <= 9) by (Z.div_mod_to_equations; lia).
  assert (H3 : 0 <= y / 10 mod 10 <= 9) by (Z.div_mod_to_equations; lia).
  assert (H4 : 0 <= y mod 10 <= 9) by (Z.div_mod_to_equations; lia).
  destruct (digit_char_facts _ H1) as [_ [-> _]].
  destruct (digit_char_facts _ H2) as [_ [-> _]].
  destruct (digit_char_facts _ H3) as [_ [-> _]].
  now destruct (digit_char_facts _ H4) as [_ [-> _]].
Qed.

Lemma no_blank_sep s r :
  no_blank r = true -> no_blank (String (sep_char s) r) = true.
Proof. intros H. cbn [no_blank]. rewrite H. now destruct s. Qed.

Lemma no_blank_short_date_text s a b y :
  0 <= a <= 99 -> 0 <= b <= 99 -> 0 <= y <= 9999 ->
  no_blank (short_date_text s a b y) = true.
Proof.
  intros Ha Hb Hy. unfold short_date_text.
  apply no_blank_append; [now apply no_blank_pad2|].
  apply no_blank_sep, no_blank_append; [now apply no_blank_pad2|].
  now apply no_blank_sep, no_blank_pad4.
Qed.

Lemma no_blank_iso_text y m d :
  0 <= y <= 9999 -> 0 <= m <= 99 -> 0 <= d <= 99 ->
  no_blank (iso_text y m d) = true.
Proof.
  intros Hy Hm Hd. unfold iso_text.
  apply no_blank_append; [now apply no_blank_pad4|].
  apply (no_blank_sep Dash), no_blank_append; [now apply no_blank_pad2|].
  now apply (no_blank_sep Dash), no_blank_pad2.
Qed.

(** A text that starts with a digit is no sentinel. *)
Lemma digit_first_no_sentinel c r :
  isdigit c = true -> is_sentinel (String c r) = false.
Proof.
  intros Hc. destruct (is_sentinel (String c r)) eqn:E; [|reflexivity].
  apply sentinel_no_digit in E. cbn [sfilter] in E. rewrite Hc in E.
  discriminate.
Qed.

(** On a text without white space that starts with a digit, a success of
    the explicit formats is the result, whatever the permissive parser
    would say. *)
Lemma parse_date_formats `{P : Pandas} c r dt :
  isdigit c = true -> no_blank (String c r) = true ->
  try_formats (String c r) DATE_FORMATS = Some dt ->
  parse_date (Some (String c r)) = Some dt.
Proof.
  intros Hc Hb Hf. unfold parse_date. cbn [py_str].
  rewrite (strip_no_blank _ Hb), (digit_first_no_sentinel c r Hc).
  now rewrite Hf.
Qed.

Lemma make_date_Some y m d dt :
  make_date y m d = Some dt ->
  1 <= y <= 9999 /\ 1 <= m <= 12 /\ 1 <= d <= 31 /\ dt = mkdate y m d.
Proof.
  unfold make_date.
  destruct (_ && _) eqn:E; [|discriminate].
  intros [= <-].
  repeat (apply andb_true_iff in E as [E ?]).
  assert (days_in_month y m <= 31).
  { unfold days_in_month.
    destruct (m =? 2); [now destruct (is_leap y)|].
    now destruct (_ || _). }
  repeat split; lia.
Qed.

Lemma make_date_up_to_28 y m d :
  1 <= y <= 9999 -> 1 <= m <= 12 -> 1 <= d <= 28 ->
  make_date y m d = Some (mkdate y m d).
Proof.
  intros Hy Hm Hd. unfold make_date.
  assert (28 <= days_in_month y m).
  { unfold days_in_month.
    destruct (m =? 2); [now destruct (is_leap y)|].
    now destruct (_ || _). }
  replace (_ && _) with true; [reflexivity|].
  symmetry. repeat (apply andb_true_iff; split); lia.
Qed.

Section ShortDates.

Variables (s : sep) (a b y : Z).
Hypothesis Hy : 0 <= y <= 9999.

Lemma strptime_short_Ymd : strptime (short_date_text s a b y) fmt_Ymd = None.
Proof.
  unfold strptime, fmt_Ymd, short_date_text.
  now rewrite matches_Y_short.
Qed.

Lemma strptime_short_dm :
  1 <= a <= 31 -> 1 <= b <= 12 ->
  strptime (short_date_text s a b y)
           [Td; TLit (sep_char s); Tm; TLit (sep_char s); TY]
  = make_date y b a.
Proof.
  intros Ha Hb. unfold strptime, short_date_text.
  now rewrite matches_d_sep, matches_m_sep, matches_Y_end.
Qed.

Lemma strptime_short_md :
  1 <= a <= 12 -> 1 <= b <= 31 ->
  strptime (short_date_text s a b y)
           [Tm; TLit (sep_char s); Td; TLit (sep_char s); TY]
  = make_date y a b.
Proof.
  intros Ha Hb. unfold strptime, short_date_text.
  now rewrite matches_m_sep, matches_d_sep, matches_Y_end.
Qed.

Lemma strptime_short_d_other k :
  1 <= a <= 31 ->
  strptime (short_date_text s a b y) (Td :: TLit (sep_char (other_sep s)) :: k)
  = None.
Proof.
  intros Ha. unfold strptime, short_date_text.
  now rewrite matches_d_other_sep.
Qed.

Lemma strptime_short_m_other k :
  1 <= a <= 31 ->
  strptime (short_date_text s a b y) (Tm :: TLit (sep_char (other_sep s)) :: k)
  = None.
Proof.
  intros Ha. unfold strptime, short_date_text.
  now rewrite matches_m_other_sep.
Qed.

Lemma strptime_short_m_above_12 k :
  13 <= a <= 31 ->
  strptime (short_date_text s a b y) (Tm :: TLit (sep_char s) :: k) = None.
Proof.
  intros Ha. unfold strptime, short_date_text.
  now rewrite matches_m_above_12.
Qed.

Lemma strptime_short_dm_above_12 :
  1 <= a <= 31 -> 13 <= b <= 31 ->
  strptime (short_date_text s a b y)
           [Td; TLit (sep_char s); Tm; TLit (sep_char s); TY]
  = None.
Proof.
  intros Ha Hb. unfold strptime, short_date_text.
  rewrite matches_d_sep by assumption.
  now rewrite matches_m_above_12.
Qed.

End ShortDates.

Lemma short_date_text_head s a b y :
  0 <= a <= 99 ->
  exists c r, short_date_text s a b y = String c r /\ isdigit c = true.
Proof.
  intros Ha. unfold short_date_text, pad2. rewrite append_cons.
  do 2 eexists. split; [reflexivity|].
  apply digit_char_facts. Z.div_mod_to_equations. lia.
Qed.

Lemma iso_text_head y m d :
  0 <= y <= 9999 ->
  exists c r, iso_text y m d = String c r /\ isdigit c = true.
Proof.
  intros Hy. unfold iso_text, pad4. rewrite append_cons.
  do 2 eexists. split; [reflexivity|].
  apply digit_char_facts. Z.div_mod_to_equations. lia.
Qed.

Lemma try_formats_short_dash_low a b y :
  1 <= a <= 12 -> 1 <= b <= 31 -> 0 <= y <= 9999 ->
  try_formats (short_date_text Dash a b y) DATE_FORMATS = 
  match make_date y a b with
  | Some d => Some d
  | None => if bool_decide (b <= 12) then make_date y b a else None
  end.
Proof.
  intros Ha Hb Hy. unfold DATE_FORMATS. cbn [try_formats].
  rewrite strptime_short_Ymd.
  change fmt_dmY_slash
    with [Td; TLit (sep_char (other_sep Dash)); Tm; TLit "/"%char; TY].
  rewrite (strptime_short_d_other Dash) by lia.
  change fmt_mdY
    with [Tm; TLit (sep_char Dash); Td; TLit (sep_char Dash); TY].
  rewrite (strptime_short_md Dash) by lia.
  destruct (make_date y a b); [reflexivity|].
  change fmt_mdY_slash
    with [Tm; TLit (sep_char (other_sep Dash)); Td; TLit "/"%char; TY].
  rewrite (strptime_short_m_other Dash) by lia.
  change fmt_dmY
    with [Td; TLit (sep_char Dash); Tm; TLit (sep_char Dash); TY].
  case_bool_decide.
  - rewrite (strptime_short_dm Dash) by lia. now destruct (make_date y b a).
  - now rewrite (strptime_short_dm_above_12 Dash) by lia.
Qed.

(** X4.  Every calendar date written as [yyyy-mm-dd] with zero-padded
    fields is read back as that date by the first format, whatever the
    permissive parser behind the formats would answer. *)
Theorem parse_date_reads_iso_text :
  forall (P : Pandas) (y m d : Z) (dt : date),
    make_date y m d = Some dt ->
    parse_date (Some (iso_text y m d)) = Some dt
    /\ year dt = y /\ month dt = m /\ day dt = d.
Proof.
  intros P y m d dt Hdt.
  destruct (make_date_Some _ _ _ _ Hdt) as (Hy & Hm & Hd & ->).
  split; [|repeat split].
  destruct (iso_text_head y m d ltac:(lia)) as (c & r & E & Hc).
  pose proof (no_blank_iso_text y m d ltac:(lia) ltac:(lia) ltac:(lia)) as Hb.
  rewrite E in *. apply parse_date_formats; [assumption..|].
  rewrite <- E. unfold DATE_FORMATS. cbn [try_formats].
  replace (strptime (iso_text y m d) fmt_Ymd) with (make_date y m d);
    [now rewrite Hdt|].
  unfold strptime, fmt_Ymd, iso_text.
  rewrite matches_Y by lia.
  rewrite matches_lit.
  change (TLit "-"%char) with (TLit (sep_char Dash)).
  change (String "-"%char (pad2 d)) with (String (sep_char Dash) (pad2 d)).
  rewrite (matches_m_sep Dash) by lia.
  destruct (matches_d_end (set_m m (set_Y y (mkfields 1900 1 1))) d Hd)
    as [tl ->].
  reflexivity.
Qed.

Lemma parse_date_reads_iso_text_witness :
  parse_date (P := Decimal.instance) (Some (iso_text 2024 2 29))
  = Some (mkdate 2024 2 29)
  /\ year (mkdate 2024 2 29) = 2024 /\ month (mkdate 2024 2 29) = 2
  /\ day (mkdate 2024 2 29) = 29.
Proof.
  apply (parse_date_reads_iso_text Decimal.instance 2024 2 29). reflexivity.
Defined.

(** X5.  When both fields are at most 12 the separator decides the
    reading: [aa-bb-yyyy] is month [aa], day [bb] (the third format wins
    over the fifth), and [aa/bb/yyyy] is day [aa], month [bb] (the second
    format wins over the fourth). *)
Theorem parse_date_separator_decides :
  forall (P : Pandas) (a b y : Z),
    1 <= a <= 12 -> 1 <= b <= 12 -> 1 <= y <= 9999 ->
    parse_date (Some (short_date_text Dash a b y)) = Some (mkdate y a b)
    /\ parse_date (Some (short_date_text Slash a b y)) = Some (mkdate y b a).
Proof.
  intros P a b y Ha Hb Hy. split.
  - destruct (short_date_text_head Dash a b y ltac:(lia)) as (c & r & E & Hc).
    pose proof (no_blank_short_date_text Dash a b y
                  ltac:(lia) ltac:(lia) ltac:(lia)) as Hn.
    rewrite E in *. apply parse_date_formats; [assumption..|].
    rewrite <- E, try_formats_short_dash_low by lia.
    now rewrite make_date_up_to_28 by lia.
  - destruct (short_date_text_head Slash a b y ltac:(lia)) as (c & r & E & Hc).
    pose proof (no_blank_short_date_text Slash a b y
                  ltac:(lia) ltac:(lia) ltac:(lia)) as Hn.
    rewrite E in *. apply parse_date_formats; [assumption..|].
    rewrite <- E. unfold DATE_FORMATS. cbn [try_formats].
    rewrite strptime_short_Ymd.
    change fmt_dmY_slash
      with [Td; TLit (sep_char Slash); Tm; TLit (sep_char Slash); TY].
    rewrite (strptime_short_dm Slash) by lia.
    now rewrite make_date_up_to_28 by lia.
Qed.

Lemma parse_date_separator_decides_witness :
  parse_date (P := Decimal.instance) (Some (short_date_text Dash 3 4 2024))
  = Some (mkdate 2024 3 4)
  /\ parse_date (P := Decimal.instance) (Some (short_date_text Slash 3 4 2024))
     = Some (mkdate 2024 4 3).
Proof.
  apply (parse_date_separator_decides Decimal.instance 3 4 2024); lia.
Defined.

(** X6.  A field above 12 can only be the day: for a calendar date with
    day [d > 12], both [dd-mm-yyyy] (through the fifth format, after the
    month-first third format has refused it) and [mm/dd/yyyy] (through the
    fourth format, after the day-first second format has refused it) are
    read as that date. *)
Theorem parse_date_day_above_12 :
  forall (P : Pandas) (y m d : Z) (dt : date),
    make_date y m d = Some dt -> 12 < d ->
    parse_date (Some (short_date_text Dash d m y)) = Some dt
    /\ parse_date (Some (short_date_text Slash m d y)) = Some dt.
Proof.
  intros P y m d dt Hdt Hbig.
  destruct (make_date_Some _ _ _ _ Hdt) as (Hy & Hm & Hd & Edt).
  split.
  - destruct (short_date_text_head Dash d m y ltac:(lia)) as (c & r & E & Hc).
    pose proof (no_blank_short_date_text Dash d m y
                  ltac:(lia) ltac:(lia) ltac:(lia)) as Hn.
    rewrite E in *. apply parse_date_formats; [assumption..|].
    rewrite <- E. unfold DATE_FORMATS. cbn [try_formats].
    rewrite strptime_short_Ymd.
    change fmt_dmY_slash
      with [Td; TLit (sep_char (other_sep Dash)); Tm; TLit "/"%char; TY].
    rewrite (strptime_short_d_other Dash) by lia.
    change fmt_mdY
      with [Tm; TLit (sep_char Dash); Td; TLit (sep_char Dash); TY].
    rewrite (strptime_short_m_above_12 Dash) by lia.
    change fmt_mdY_slash
      with [Tm; TLit (sep_char (other_sep Dash)); Td; TLit "/"%char; TY].
    rewrite (strptime_short_m_other Dash) by lia.
    change fmt_dmY
      with [Td; TLit (sep_char Dash); Tm; TLit (sep_char Dash); TY].
    rewrite (strptime_short_dm Dash) by lia.
    now rewrite Hdt.
  - destruct (short_date_text_head Slash m d y ltac:(lia)) as (c & r & E & Hc).
    pose proof (no_blank_short_date_text Slash m d y
                  ltac:(lia) ltac:(lia) ltac:(lia)) as Hn.
    rewrite E in *. apply parse_date_formats; [assumption..|].
    rewrite <- E. unfold DATE_FORMATS. cbn [try_formats].
    rewrite strptime_short_Ymd.
    change fmt_dmY_slash
      with [Td; TLit (sep_char Slash); Tm; TLit (sep_char Slash); TY].
    rewrite (strptime_short_dm_above_12 Slash) by lia.
    change fmt_mdY
      with [Tm; TLit (sep_char (other_sep Slash)); Td; TLit "-"%char; TY].
    rewrite (strptime_short_m_other Slash) by lia.
    change fmt_mdY_slash
      with [Tm; TLit (sep_char Slash); Td; TLit (sep_char Slash); TY].
    rewrite (strptime_short_md Slash) by lia.
    now rewrite Hdt.
Qed.

Lemma parse_date_day_above_12_witness :
  parse_date (P := Decimal.instance) (Some (short_date_text Dash 25 12 2023))
  = Some (mkdate 2023 12 25)
  /\ parse_date (P := Decimal.instance)
       (Some (short_date_text Slash 12 25 2023))
     = Some (mkdate 2023 12 25).
Proof.
  apply (parse_date_day_above_12 Decimal.instance 2023 12 25);
    [reflexivity|lia].
Defined.

(** ** Keep-first deduplication, once more *)

Lemma NoDup_map_filter {A K} (key : A -> K) (p : A -> bool) (l : list A) :
  List.NoDup (map key l) -> List.NoDup (map key (List.filter p l)).
Proof.
  induction l as [|x r IH]; cbn [map List.filter]; [auto|].
  intros H. apply NoDup_cons_iff in H as [Hx Hr].
  destruct (p x); [|auto].
  cbn [map]. apply NoDup_cons_iff. split; [|auto].
  intros Hin. apply Hx.
  apply in_map_iff in Hin as (y & Hy & Hin).
  apply filter_In in Hin as [Hin _].
  apply in_map_iff. eauto.
Qed.

Section DedupSplit.

Context {A K : Type} `{EqDecision K}.
Variable key : A -> K.

(** A survivor is the first row with its key. *)
Lemma dedup_from_split seen l x :
  In x (dedup_from key seen l) ->
  exists l1 l2, l = l1 ++ x :: l2 /\ forall y, In y l1 -> key y <> key x.
Proof.
  revert seen. induction l as [|y r IH]; intros seen; cbn [dedup_from];
    [intros []|].
  case_bool_decide as Hy.
  - intros Hx. pose proof (dedup_from_In key _ _ _ Hx) as [_ Hseen].
    destruct (IH _ Hx) as (l1 & l2 & -> & Hl1).
    exists (y :: l1), l2. split; [reflexivity|].
    intros z [<-|Hz]; [|auto].
    intros E. apply Hseen. rewrite <- E. now apply list_elem_of_In.
  - intros [<-|Hx].
    + exists [], r. split; [reflexivity|]. intros z [].
    + pose proof (dedup_from_In key _ _ _ Hx) as [_ Hseen].
      destruct (IH _ Hx) as (l1 & l2 & -> & Hl1).
      exists (y :: l1), l2. split; [reflexivity|].
      intros z [<-|Hz]; [|auto].
      intros E. apply Hseen. left. exact E.
Qed.

(** The first row with a key survives. *)
Lemma dedup_from_keeps_first seen l1 x l2 :
  ~ In (key x) seen -> (forall y, In y l1 -> key y <> key x) ->
  In x (dedup_from key seen (l1 ++ x :: l2)).
Proof.
  revert seen. induction l1 as [|y r IH]; intros seen Hseen Hl1.
  - cbn [app dedup_from]. rewrite bool_decide_eq_false_2; [now left|].
    now rewrite list_elem_of_In.
  - cbn [app dedup_from]. case_bool_decide as Hy.
    + apply IH; [assumption|]. intros z Hz. apply Hl1. now right.
    + right. apply IH.
      * intros [E|Hin]; [|now apply Hseen].
        apply (Hl1 y); [now left|exact E].
      * intros z Hz. apply Hl1. now right.
Qed.

End DedupSplit.

(** A split of a filtered image comes from a split of the list. *)
Lemma filter_map_split {A B} (f : A -> B) (p : B -> bool) (l : list A) l1 x l2 :
  List.filter p (map f l) = l1 ++ x :: l2 ->
  exists pre a post,
    l = pre ++ a :: post /\ f a = x /\ p x = true
    /\ List.filter p (map f pre) = l1.
Proof.
  revert l1. induction l as [|a r IH]; intros l1; cbn [map List.filter].
  - destruct l1; discriminate.
  - destruct (p (f a)) eqn:Hp.
    + destruct l1 as [|z l1]; cbn [app].
      * intros [= E1 E2]. exists [], a, r. subst x. auto.
      * intros [= E1 E2]. destruct (IH _ E2) as (pre & a' & post & -> & Hf & Hx & Hpre).
        exists (a :: pre), a', post. cbn [map List.filter app].
        rewrite Hp, Hpre, E1. auto.
    + intros E. destruct (IH _ E) as (pre & a' & post & -> & Hf & Hx & Hpre).
      exists (a :: pre), a', post. cbn [map List.filter app].
      rewrite Hp. auto.
Qed.

(** ** Sales: one row per transaction, and the first one decides *)

Lemma accepted_ids `{P : Pandas} r :
  sale_accepted r = true ->
  exists c p,
    customer_id (clean_sale r) = Some c /\ c <> ""
    /\ product_id (clean_sale r) = Some p /\ p <> "".
Proof.
  unfold sale_accepted. intros H.
  repeat (apply andb_true_iff in H as [H ?]).
  cbn [clean_sale sale_columns coerce_sale stage_sale customer_id product_id
       sr_customer_id sr_product_id].
  destruct (rs_customer_id r) as [c|]; [|discriminate].
  destruct (rs_product_id r) as [p|]; [|discriminate].
  cbn [py_str replace_empty] in *.
  exists c, p.
  destruct (is_empty c) eqn:Ec; [discriminate|].
  destruct (is_empty p) eqn:Ep; [discriminate|].
  repeat split; try reflexivity; intros ->; discriminate.
Qed.

(** X7.  The cleaned sales carry each transaction identifier once and
    both references non-empty; and since duplicates are removed before the
    rows are validated, a transaction whose first row is rejected is lost
    altogether, even when a later row with the same identifier is valid. *)
Theorem transform_sales_first_row_decides :
  forall (P : Pandas) (df : list RawSale),
    let cleaned := fst (transform_sales df) in
    List.NoDup (map transaction_id cleaned)
    /\ (forall s, In s cleaned ->
          exists c p,
            customer_id s = Some c /\ c <> ""
            /\ product_id s = Some p /\ p <> "")
    /\ (forall pre r post,
          df = pre ++ r :: post ->
          (forall r', In r' pre ->
             strip_cell (rs_transaction_id r') <> strip_cell (rs_transaction_id r)) ->
          sale_accepted (strip_sale r) = false ->
          forall s, In s cleaned ->
            transaction_id s <> strip_cell (rs_transaction_id r)).
Proof.
  intros P df cleaned. subst cleaned. rewrite transform_sales_rows.
  split; [|split].
  - rewrite map_map.
    change (fun x => transaction_id (clean_sale x)) with rs_transaction_id.
    apply NoDup_map_filter. apply dedup_from_NoDup.
  - intros s Hs. apply in_map_iff in Hs as (x & <- & Hx).
    apply filter_In in Hx as [_ Hx]. now apply accepted_ids.
  - intros pre r post -> Hfirst Hrej s Hs Hid.
    apply in_map_iff in Hs as (x & <- & Hx).
    apply filter_In in Hx as [Hx Hacc].
    change (transaction_id (clean_sale x)) with (rs_transaction_id x) in Hid.
    assert (Hr : In (strip_sale r)
                    (drop_duplicates rs_transaction_id
                       (map strip_sale (pre ++ r :: post)))).
    { rewrite map_app. cbn [map]. apply dedup_from_keeps_first.
      - intros [].
      - intros y Hy. apply in_map_iff in Hy as (r' & <- & Hr').
        exact (Hfirst r' Hr'). }
    pose proof (dedup_from_NoDup rs_transaction_id []
                  (map strip_sale (pre ++ r :: post))) as Hnd.
    fold (drop_duplicates rs_transaction_id
            (map strip_sale (pre ++ r :: post))) in Hnd.
    assert (x = strip_sale r) as ->.
    { revert Hnd Hx Hr Hid.
      generalize (drop_duplicates rs_transaction_id
                    (map strip_sale (pre ++ r :: post))).
      intros l. induction l as [|z l IH]; cbn [map]; [intros _ []|].
      intros Hnd. apply NoDup_cons_iff in Hnd as [Hz Hnd].
      intros [->|Hx] [E|Hr] Hid.
      - exact E.
      - exfalso. apply Hz. apply in_map_iff. exists (strip_sale r).
        split; [symmetry; exact Hid|assumption].
      - exfalso. apply Hz. apply in_map_iff. exists x.
        split; [subst z; exact Hid|assumption].
      - now apply IH. }
    congruence.
Qed.

Lemma transform_sales_first_row_decides_witness :
  List.Forall (fun s => transaction_id s <> Some "T004")
              (fst (transform_sales (P := Decimal.instance) demo_sales)).
Proof.
  apply List.Forall_forall.
  apply (proj2 (proj2 (transform_sales_first_row_decides Decimal.instance
                         demo_sales))
           (firstn 3 demo_sales) (nth 3 demo_sales demo_first_sale)
           (skipn 4 demo_sales)).
  - reflexivity.
  - intros r' Hr'. cbn in Hr'.
    destruct Hr' as [<-|[<-|[<-|[]]]]; discriminate.
  - vm_compute. reflexivity.
Defined.

(** ** Products: the first priced row of an identifier is the product *)

Lemma imputed_row_id `{P : Pandas} df_sales raw :
  pr_product_id (fst (imputed_row df_sales raw)) = strip_cell (rp_product_id raw).
Proof.
  unfold imputed_row, impute_price, prepared.
  destruct (pr_price _); [reflexivity|].
  now destruct (mjoin _).
Qed.

(** X8.  Rows without a final price are dropped before the duplicates
    are: when the cleaner returns, a raw product is loaded exactly when it
    is the first row of its trimmed identifier among the rows that have a
    price after imputation.  Earlier rows of the same identifier without a
    price do not shadow it. *)
Theorem transform_products_first_priced_row :
  forall (P : Pandas) (df_products : list RawProduct) (df_sales : list RawSale)
         (cleaned : list (Product num)) (qc : QualityCounts)
         (m : gmap string string),
    transform_products df_products df_sales = inr (cleaned, qc, m) ->
    (forall pre raw post,
       df_products = pre ++ raw :: post ->
       notna (price_text df_sales raw) = true ->
       (forall raw', In raw' pre ->
          strip_cell (rp_product_id raw') = strip_cell (rp_product_id raw) ->
          price_text df_sales raw' = None) ->
       In (product_columns (fst (imputed_row df_sales raw))) cleaned)
    /\ (forall p, In p cleaned ->
          exists pre raw post,
            df_products = pre ++ raw :: post
            /\ p = product_columns (fst (imputed_row df_sales raw))
            /\ notna (price_text df_sales raw) = true
            /\ forall raw', In raw' pre ->
                 strip_cell (rp_product_id raw') = strip_cell (rp_product_id raw) ->
                 price_text df_sales raw' = None).
Proof.
  intros P dp ds cleaned qc m Hret.
  apply transform_products_inr in Hret as (_ & -> & _ & _).
  unfold products_frame. rewrite impute_prices_map, map_map.
  split.
  - intros pre raw post -> Hprice Hfirst.
    apply in_map. rewrite map_app. cbn [map].
    rewrite List.filter_app. cbn [List.filter].
    rewrite imputed_row_price, Hprice.
    apply dedup_from_keeps_first; [intros []|].
    intros y Hy. apply filter_In in Hy as [Hy Hny].
    apply in_map_iff in Hy as (raw' & <- & Hraw').
    rewrite !imputed_row_id. intros E.
    rewrite imputed_row_price, (Hfirst raw' Hraw' E) in Hny. discriminate.
  - intros p Hp. apply in_map_iff in Hp as (x & <- & Hx).
    apply dedup_from_split in Hx as (l1 & l2 & Hsplit & Hl1).
    apply filter_map_split in Hsplit
      as (pre & raw & post & -> & <- & Hprice & <-).
    exists pre, raw, post. rewrite imputed_row_price in Hprice.
    repeat split; [assumption|].
    intros raw' Hraw' E.
    destruct (price_text ds raw') eqn:Hpt; [exfalso|reflexivity].
    apply (Hl1 (fst (imputed_row ds raw'))).
    + apply filter_In. split.
      * apply (in_map (fun x => fst (imputed_row ds x))). exact Hraw'.
      * now rewrite imputed_row_price, Hpt.
    + now rewrite !imputed_row_id.
Qed.

Lemma transform_products_first_priced_row_witness :
  In (product_columns (P := Decimal.instance)
        (fst (imputed_row (P := Decimal.instance) []
                (mkRawProduct (Some " P200") (Some "Gadget") (Some "fashion")
                              (Some "3.50") (Some "4")))))
     [mkProduct "Gadget" "Fashion" (Some (Decimal.Fin (7 # 2))) 4].
Proof.
  apply (proj1 (transform_products_first_priced_row Decimal.instance
                  ([ mkRawProduct (Some "P200 ") (Some "Widget")
                                  (Some "electronics") (Some "") (Some "") ]
                   ++ mkRawProduct (Some " P200") (Some "Gadget")
                                   (Some "fashion") (Some "3.50") (Some "4")
                      :: [])
                  [] _ _ _ eq_refl)
           [ mkRawProduct (Some "P200 ") (Some "Widget")
                          (Some "electronics") (Some "") (Some "") ]
           (mkRawProduct (Some " P200") (Some "Gadget") (Some "fashion")
                         (Some "3.50") (Some "4"))
           [] eq_refl).
  - vm_compute. reflexivity.
  - intros raw' [<-|[]] _. vm_compute. reflexivity.
Defined.

(** ** Surrogate keys *)

Lemma number_from_app {A} n (l1 l2 : list A) :
  number_from n (l1 ++ l2) = number_from n l1 ++ number_from (n + len l1) l2.
Proof.
  revert n. induction l1 as [|x r IH]; intros n; cbn [app number_from].
  - unfold len. cbn. now rewrite Z.add_0_r.
  - rewrite IH. do 3 f_equal. unfold len. cbn [length]. lia.
Qed.

Lemma number_from_length {A} n (l : list A) :
  length (number_from n l) = length l.
Proof.
  revert n. induction l as [|x r IH]; intros n; cbn; [reflexivity|].
  now rewrite IH.
Qed.

Lemma In_number_from {A} n (l : list A) k x :
  In (k, x) (number_from n l)
  <-> exists i, nth_error l i = Some x /\ k = n + Z.of_nat i.
Proof.
  revert n. induction l as [|y r IH]; intros n; cbn [number_from In].
  - split; [intros []|]. intros [[|i] [H _]]; discriminate.
  - rewrite IH. split.
    + intros [[= <- <-]|[i [Hi ->]]].
      * exists 0%nat. split; [reflexivity|lia].
      * exists (S i). split; [exact Hi|lia].
    + intros [[|i] [Hi ->]].
      * left. cbn in Hi. injection Hi as ->. f_equal. lia.
      * right. exists i. split; [exact Hi|lia].
Qed.

Lemma fold_inserted {A} (l : list A) (t : Table A) :
  fold_left (fun t x => inserted x t) l t
  = mkTable (tbl_rows t ++ number_from (tbl_next t) l) (tbl_next t + len l).
Proof.
  revert t. induction l as [|x r IH]; intros t; cbn [fold_left number_from].
  - unfold len. cbn. rewrite app_nil_r, Z.add_0_r. now destruct t.
  - rewrite IH. unfold inserted. cbn [tbl_rows tbl_next].
    rewrite <- app_assoc. cbn [app]. f_equal.
    unfold len. cbn [length]. lia.
Qed.

Lemma loaded_table_rows {A} (l : list A) :
  tbl_rows (loaded_table l) = number_from 1 l.
Proof. unfold loaded_table. now rewrite fold_inserted. Qed.

Lemma loaded_table_next {A} (l : list A) :
  tbl_next (loaded_table l) = 1 + len l.
Proof. unfold loaded_table. now rewrite fold_inserted. Qed.

Section KeyIndex.

Context {A : Type}.
Variable kf : A -> option string.

Variable step : gmap string Z -> Z * A -> gmap string Z.
Hypothesis step_eq :
  forall m id a,
    step m (id, a) = match kf a with Some e => <[e := id]> m | None => m end.

(** A key that no row carries is left as it was. *)
Lemma index_fold_other rows m k :
  (forall id a, In (id, a) rows -> kf a <> Some k) ->
  fold_left step rows m !! k = m !! k.
Proof.
  revert m. induction rows as [|[id a] r IH]; intros m Hk; [reflexivity|].
  cbn [fold_left].
  rewrite IH by (intros id' a' H'; apply (Hk id' a'); now right).
  rewrite step_eq. destruct (kf a) as [e|] eqn:E; [|reflexivity].
  apply lookup_insert_ne. intros ->. apply (Hk id a); [now left|exact E].
Qed.

(** The last row with a key gives its identifier. *)
Lemma index_fold_last l1 id a l2 m k :
  kf a = Some k ->
  (forall id' a', In (id', a') l2 -> kf a' <> Some k) ->
  fold_left step (l1 ++ (id, a) :: l2) m !! k = Some id.
Proof.
  intros Ha Hl2. rewrite fold_left_app. cbn [fold_left].
  rewrite index_fold_other by assumption.
  rewrite step_eq, Ha. apply lookup_insert_eq.
Qed.

(** An entry that was not there comes from a row. *)
Lemma index_fold_sound rows m k id :
  fold_left step rows m !! k = Some id ->
  m !! k = Some id \/ exists a, In (id, a) rows /\ kf a = Some k.
Proof.
  revert m. induction rows as [|[id' a] r IH]; intros m; [now left|].
  cbn [fold_left]. intros H. apply IH in H as [H|(a' & Hin & Ha')].
  - rewrite step_eq in H. destruct (kf a) as [e|] eqn:E; [|now left].
    destruct (decide (e = k)) as [->|Hne].
    + rewrite lookup_insert_eq in H. injection H as ->.
      right. exists a. split; [now left|exact E].
    + rewrite lookup_insert_ne in H by assumption. now left.
  - right. exists a'. split; [now right|exact Ha'].
Qed.

End KeyIndex.

Lemma email_index_step (m : gmap string Z) (id : Z) (c : Customer) :
  (fun (m : gmap string Z) '(cid, c) =>
     match email c with Some e => <[e := cid]> m | None => m end) m (id, c)
  = match email c with Some e => <[e := id]> m | None => m end.
Proof. reflexivity. Qed.

Lemma name_index_step {N} (m : gmap string Z) (id : Z) (p : Product N) :
  (fun (m : gmap string Z) '(pid, p) => <[product_name p := pid]> m) m (id, p)
  = match Some (product_name p) with Some e => <[e := id]> m | None => m end.
Proof. reflexivity. Qed.

Lemma cleaned_customers_emails `{P : Pandas} has_id df :
  let cleaned := fst (fst (transform_customers has_id df)) in
  List.NoDup (map email cleaned)
  /\ forall c, In c cleaned -> exists e, email c = Some e.
Proof.
  cbv zeta. rewrite transform_customers_rows. split.
  - rewrite map_map.
    change (fun x => email (customer_columns x)) with cr_email.
    apply dedup_from_NoDup.
  - intros c Hc. apply in_map_iff in Hc as (x & <- & Hx).
    apply dedup_from_In in Hx as [Hx _].
    apply filter_In in Hx as [_ Hx].
    cbn [customer_columns email].
    destruct (cr_email x) as [e|]; [now exists e|discriminate].
Qed.

Lemma nth_error_len_split {A} (l : list A) i x :
  nth_error l i = Some x ->
  exists l1 l2, l = l1 ++ x :: l2 /\ len l1 = Z.of_nat i.
Proof.
  intros H. apply nth_error_split in H as (l1 & l2 & -> & <-).
  now exists l1, l2.
Qed.

Section LoadedStore.

Context `{P : Pandas}.
Variable faults : nat -> option string.
Hypothesis no_faults : forall n, faults n = None.

Ltac run_db :=
  repeat (rewrite ?bind_assoc;
          first [ rewrite (bind_request faults no_faults)
                | rewrite (bind_execute faults no_faults)
                | rewrite bind_ret
                | rewrite (request_ok faults no_faults)
                | rewrite (execute_ok faults no_faults) ];
          cbv beta).

Lemma fetch_customers_ok st :
  fetch_customer_email_to_dbid faults st
  = Ok (email_index (tbl_rows (customers st))) (tick st).
Proof. unfold fetch_customer_email_to_dbid. now run_db. Qed.

Lemma fetch_products_ok st :
  fetch_product_name_to_dbid faults st
  = Ok (name_index (tbl_rows (products st))) (tick st).
Proof. unfold fetch_product_name_to_dbid. now run_db. Qed.

Lemma stage_orders_store sc rc rp st2 :
  (forall r, In r sc -> finite_cell (quantity r) = true) ->
  let ec := email_index (tbl_rows (customers st2)) in
  let np := name_index (tbl_rows (products st2)) in
  let rows := new_rows rc ec rp np (tbl_next (orders st2))
                       (tbl_next (order_items st2)) sc in
  exists st3,
    stage_orders faults sc rc rp st2
    = Ok (len (fst rows), len (snd rows), unmapped rc ec rp np sc) st3
    /\ customers st3 = customers st2
    /\ products st3 = products st2
    /\ tbl_rows (orders st3) = tbl_rows (orders st2) ++ fst rows
    /\ tbl_rows (order_items st3) = tbl_rows (order_items st2) ++ snd rows.
Proof.
  intros Hq ec np rows. subst ec np rows.
  unfold stage_orders.
  rewrite (bind_run _ _ _ _ _ (fetch_customers_ok st2)).
  rewrite (bind_run _ _ _ _ _ (fetch_products_ok (tick st2))).
  cbn [products tick].
  destruct (insert_orders_and_items_ok faults no_faults rc
              (email_index (tbl_rows (customers st2))) rp
              (name_index (tbl_rows (products st2))) sc
              (tick (tick st2)) Hq)
    as (st3 & Hrun & Hc & Hp & Ho & Hi).
  exists st3. cbn [tick customers products orders order_items] in *.
  auto.
Qed.

(** The store when a fault-free load ends. *)
Lemma load_stage_ok cc pc sc rc rp st0 :
  (forall r, In r sc -> finite_cell (quantity r) = true) ->
  let ec := email_index (number_from 1 cc) in
  let np := name_index (number_from 1 pc) in
  let rows := new_rows rc ec rp np 1 1 sc in
  exists st,
    load_stage faults cc pc sc rc rp st0
    = Ok (len cc, len pc,
          (len (fst rows), len (snd rows), unmapped rc ec rp np sc)) st
    /\ tbl_rows (customers st) = number_from 1 cc
    /\ tbl_rows (products st) = number_from 1 pc
    /\ tbl_rows (orders st) = fst rows
    /\ tbl_rows (order_items st) = snd rows.
Proof.
  intros Hq ec np rows. subst ec np rows.
  rewrite load_stage_stages.
  destruct (stage_customers_ok faults no_faults cc st0)
    as (st1 & H1 & Hc1 & Hp1 & Ho1 & Hi1).
  rewrite (bind_run _ _ _ _ _ H1).
  destruct (insert_products_ok faults no_faults pc st1)
    as (st2 & H2 & Hc2 & Hp2 & Ho2 & Hi2).
  rewrite (bind_run _ _ _ _ _ H2).
  assert (Ec : tbl_rows (customers st2) = number_from 1 cc)
    by (rewrite Hc2, Hc1; apply loaded_table_rows).
  assert (Ep : tbl_rows (products st2) = number_from 1 pc)
    by (rewrite Hp2, Hp1; apply (loaded_table_rows pc)).
  assert (Eo : orders st2 = truncated) by congruence.
  assert (Ei : order_items st2 = truncated) by congruence.
  destruct (stage_orders_store sc rc rp st2 Hq)
    as (st3 & H3 & Hc3 & Hp3 & Ho3 & Hi3).
  rewrite Ec, Ep, Eo, Ei in H3. rewrite Ec, Ep, Eo, Ei in Ho3.
  rewrite Ec, Ep, Eo, Ei in Hi3.
  cbn [truncated tbl_next tbl_rows app] in H3, Ho3, Hi3.
  rewrite (bind_run _ _ _ _ _ H3).
  unfold conn_close. run_db. unfold ret.
  eexists. split; [reflexivity|].
  cbn [tick customers products orders order_items].
  rewrite Hc3, Hp3. auto.
Qed.

End LoadedStore.

Lemma status_or_pending_nonempty c : status_or_pending c <> Some "".
Proof.
  destruct c as [s|]; cbn; [|discriminate].
  destruct s; cbn; discriminate.
Qed.

Section NewRows.

Context `{P : Pandas}.
Variable rc : gmap string string.
Variable ec : gmap string Z.
Variable rp : gmap string string.
Variable np : gmap string Z.

Lemma reconcile_Some r cid pid :
  reconcile rc ec rp np r = Some (cid, pid) ->
  (exists e, ec !! e = Some cid) /\ (exists n, np !! n = Some pid).
Proof.
  unfold reconcile, resolve.
  destruct (rc !! _) as [e|]; [|discriminate].
  destruct (is_empty e); [discriminate|].
  destruct (ec !! e) as [c|] eqn:Ee; [|discriminate].
  destruct (rp !! _) as [n|]; [|discriminate].
  destruct (is_empty n); [discriminate|].
  destruct (np !! n) as [p|] eqn:En; [|discriminate].
  intros [= <- <-]. eauto.
Qed.

Lemma new_rows_orders_in a b sales oid o :
  In (oid, o) (fst (new_rows rc ec rp np a b sales)) ->
  exists r pid,
    In r sales
    /\ reconcile rc ec rp np r = Some (o_customer_id o, pid)
    /\ o_status o = status_or_pending (status r).
Proof.
  revert a b. induction sales as [|r rest IH]; intros a b; cbn [new_rows];
    [intros []|].
  destruct (reconcile rc ec rp np r) as [[cid pid]|] eqn:E.
  - cbn [fst]. intros [[= <- <-]|H].
    + exists r, pid. cbn. auto.
    + destruct (IH _ _ H) as (r' & pid' & Hr' & H'). exists r', pid'.
      split; [now right|exact H'].
  - intros H. destruct (IH _ _ H) as (r' & pid' & Hr' & H'). exists r', pid'.
    split; [now right|exact H'].
Qed.

Lemma new_rows_items_in a b sales iid it :
  In (iid, it) (snd (new_rows rc ec rp np a b sales)) ->
  exists r cid,
    In r sales /\ reconcile rc ec rp np r = Some (cid, i_product_id it).
Proof.
  revert a b. induction sales as [|r rest IH]; intros a b; cbn [new_rows];
    [intros []|].
  destruct (reconcile rc ec rp np r) as [[cid pid]|] eqn:E.
  - cbn [snd]. intros [[= <- <-]|H].
    + exists r, cid. cbn. auto.
    + destruct (IH _ _ H) as (r' & cid' & Hr' & H'). exists r', cid'.
      split; [now right|exact H'].
  - intros H. destruct (IH _ _ H) as (r' & cid' & Hr' & H'). exists r', cid'.
    split; [now right|exact H'].
Qed.

Lemma new_rows_item_order a b sales iid it :
  In (iid, it) (snd (new_rows rc ec rp np a b sales)) ->
  exists o, In (i_order_id it, o) (fst (new_rows rc ec rp np a b sales)).
Proof.
  intros H.
  apply (in_map (fun x => i_order_id (snd x))) in H. cbn [snd] in H.
  rewrite new_rows_links in H.
  apply in_map_iff in H as ([oid o] & E & H). cbn [fst] in E. subst oid.
  now exists o.
Qed.

End NewRows.

(** X9.  In a fault-free load the cleaned customers get the keys 1, 2,
    ... in their order, and the email map fetched back from the store
    is one-to-one with them: the i-th cleaned customer's email resolves to
    key i, and every entry of the map is such a pair. *)
Theorem customer_keys_follow_cleaned_order :
  forall (P : Pandas) (faults : nat -> option string) (has_id : bool)
         (dc : list RawCustomer) (st0 : Store num),
    (forall n, faults n = None) ->
    let cc := fst (fst (transform_customers has_id dc)) in
    exists st1 m st2,
      stage_customers faults cc st0 = Ok (len cc) st1
      /\ tbl_rows (customers st1) = number_from 1 cc
      /\ fetch_customer_email_to_dbid faults st1 = Ok m st2
      /\ (forall i c, nth_error cc i = Some c ->
            exists e, email c = Some e /\ m !! e = Some (Z.of_nat i + 1))
      /\ (forall e k, m !! e = Some k ->
            exists i c,
              nth_error cc i = Some c /\ email c = Some e
              /\ k = Z.of_nat i + 1).
Proof.
  intros P faults has_id dc st0 Hf cc.
  destruct (cleaned_customers_emails has_id dc) as [Hnd Hsome].
  fold cc in Hnd, Hsome.
  destruct (stage_customers_ok faults Hf cc st0) as (st1 & H1 & Hc1 & _).
  assert (Ec : tbl_rows (customers st1) = number_from 1 cc)
    by (rewrite Hc1; apply loaded_table_rows).
  exists st1, (email_index (tbl_rows (customers st1))), (tick st1).
  split; [exact H1|]. split; [exact Ec|].
  split; [apply (fetch_customers_ok faults Hf)|].
  rewrite Ec. clear H1 Hc1 Ec. generalize dependent cc. intros cc Hnd Hsome.
  split.
  - intros i c Hi.
    destruct (Hsome c (nth_error_In _ _ Hi)) as [e He].
    exists e. split; [exact He|].
    apply nth_error_len_split in Hi as (l1 & l2 & -> & Hlen).
    rewrite number_from_app. cbn [number_from].
    replace (Z.of_nat i + 1) with (1 + len l1) by lia.
    apply (index_fold_last email _ email_index_step); [exact He|].
    intros id' a' Hin Ha'.
    apply In_number_from in Hin as (j & Hj & _).
    rewrite map_app in Hnd. cbn [map] in Hnd.
    apply NoDup_remove_2 in Hnd. apply Hnd, in_or_app. right.
    rewrite He, <- Ha'. apply in_map. exact (nth_error_In _ _ Hj).
  - intros e k Hm.
    apply (index_fold_sound email _ email_index_step) in Hm
      as [Hm|(a & Hin & Ha)].
    + rewrite lookup_empty in Hm. discriminate.
    + apply In_number_from in Hin as (i & Hi & ->).
      exists i, a. repeat split; [exact Hi|exact Ha|lia].
Qed.

Lemma customer_keys_follow_cleaned_order_witness :
  exists st1 m st2,
    stage_customers (P := Decimal.instance) (fun _ => None)
      (fst (fst (transform_customers (P := Decimal.instance) true
                   demo_customers))) empty_store
    = Ok (len (fst (fst (transform_customers (P := Decimal.instance) true
                           demo_customers)))) st1
    /\ tbl_rows (customers st1)
       = number_from 1
           (fst (fst (transform_customers (P := Decimal.instance) true
                        demo_customers)))
    /\ fetch_customer_email_to_dbid (P := Decimal.instance) (fun _ => None) st1
       = Ok m st2
    /\ (forall i c,
          nth_error (fst (fst (transform_customers (P := Decimal.instance) true
                                 demo_customers))) i = Some c ->
          exists e, email c = Some e /\ m !! e = Some (Z.of_nat i + 1))
    /\ (forall e k, m !! e = Some k ->
          exists i c,
            nth_error (fst (fst (transform_customers (P := Decimal.instance)
                                   true demo_customers))) i = Some c
            /\ email c = Some e /\ k = Z.of_nat i + 1).
Proof.
  apply (customer_keys_follow_cleaned_order Decimal.instance (fun _ => None)
           true demo_customers empty_store).
  reflexivity.
Defined.

(** X10.  Products are looked up by name, and the name map is built row
    by row, so a name resolves to the key of the last loaded product that
    carries it: when two cleaned products share a name, the sales of both
    are attached to the later one. *)
Theorem product_name_resolves_to_last_row :
  forall (P : Pandas) (faults : nat -> option string)
         (pc : list (Product num)) (st1 : Store num),
    (forall n, faults n = None) ->
    products st1 = truncated ->
    exists st2 m st3,
      insert_products faults pc st1 = Ok (len pc) st2
      /\ tbl_rows (products st2) = number_from 1 pc
      /\ fetch_product_name_to_dbid faults st2 = Ok m st3
      /\ (forall pre p post,
            pc = pre ++ p :: post ->
            (forall p', In p' post -> product_name p' <> product_name p) ->
            m !! product_name p = Some (len pre + 1))
      /\ (forall n k, m !! n = Some k ->
            exists i p,
              nth_error pc i = Some p /\ product_name p = n
              /\ k = Z.of_nat i + 1).
Proof.
  intros P faults pc st1 Hf Htr.
  destruct (insert_products_ok faults Hf pc st1) as (st2 & H2 & _ & Hp2 & _).
  assert (Ep : tbl_rows (products st2) = number_from 1 pc)
    by (rewrite Hp2, Htr; apply (loaded_table_rows pc)).
  exists st2, (name_index (tbl_rows (products st2))), (tick st2).
  split; [exact H2|]. split; [exact Ep|].
  split; [apply (fetch_products_ok faults Hf)|].
  rewrite Ep. split.
  - intros pre p post -> Hpost.
    rewrite number_from_app. cbn [number_from].
    replace (len pre + 1) with (1 + len pre) by lia.
    apply (index_fold_last (fun p => Some (product_name p)) _ name_index_step);
      [reflexivity|].
    intros id' a' Hin [= Ha'].
    apply In_number_from in Hin as (j & Hj & _).
    exact (Hpost a' (nth_error_In _ _ Hj) Ha').
  - intros n k Hm.
    apply (index_fold_sound (fun p => Some (product_name p)) _ name_index_step)
      in Hm as [Hm|(a & Hin & [= Ha])].
    + rewrite lookup_empty in Hm. discriminate.
    + apply In_number_from in Hin as (i & Hi & ->).
      exists i, a. repeat split; [exact Hi|exact Ha|lia].
Qed.

Lemma product_name_resolves_to_last_row_witness :
  exists st2 m st3,
    insert_products (P := Decimal.instance) (fun _ => None)
      ([ mkProduct "Widget" "Electronics" (Some (Decimal.Fin (10 # 1))) 1 ]
       ++ mkProduct "Widget" "Fashion" (Some (Decimal.Fin (20 # 1))) 2 :: [])
      empty_store
    = Ok (len ([ mkProduct "Widget" "Electronics" (Some (Decimal.Fin (10 # 1))) 1 ]
               ++ mkProduct "Widget" "Fashion" (Some (Decimal.Fin (20 # 1))) 2 :: []))
         st2
    /\ tbl_rows (products st2)
       = number_from 1
           ([ mkProduct "Widget" "Electronics" (Some (Decimal.Fin (10 # 1))) 1 ]
            ++ mkProduct "Widget" "Fashion" (Some (Decimal.Fin (20 # 1))) 2 :: [])
    /\ fetch_product_name_to_dbid (P := Decimal.instance) (fun _ => None) st2
       = Ok m st3
    /\ (forall pre p post,
          [ mkProduct "Widget" "Electronics" (Some (Decimal.Fin (10 # 1))) 1 ]
          ++ mkProduct "Widget" "Fashion" (Some (Decimal.Fin (20 # 1))) 2 :: []
          = pre ++ p :: post ->
          (forall p', In p' post -> product_name p' <> product_name p) ->
          m !! product_name p = Some (len pre + 1))
    /\ (forall n k, m !! n = Some k ->
          exists i p,
            nth_error
              ([ mkProduct "Widget" "Electronics" (Some (Decimal.Fin (10 # 1))) 1 ]
               ++ mkProduct "Widget" "Fashion" (Some (Decimal.Fin (20 # 1))) 2 :: []) i
            = Some p
            /\ product_name p = n /\ k = Z.of_nat i + 1).
Proof.
  apply (product_name_resolves_to_last_row Decimal.instance (fun _ => None)
           ([ mkProduct "Widget" "Electronics" (Some (Decimal.Fin (10 # 1))) 1 ]
            ++ mkProduct "Widget" "Fashion" (Some (Decimal.Fin (20 # 1))) 2 :: [])
           empty_store);
    reflexivity.
Defined.

(** X11.  The store a fault-free load of sales with finite quantities
    leaves satisfies the foreign keys of the schema by construction: every
    order points to a stored customer, every order item to a stored order
    and a stored product; and no order is stored with an empty status. *)
Theorem loaded_store_references_resolve :
  forall (P : Pandas) (faults : nat -> option string)
         (cc : list Customer) (pc : list (Product num)) (sc : list (Sale num))
         (rc rp : gmap string string) (st0 : Store num),
    (forall n, faults n = None) ->
    (forall r, In r sc -> finite_cell (quantity r) = true) ->
    exists res st,
      load_stage faults cc pc sc rc rp st0 = Ok res st
      /\ (forall oid o,
            In (oid, o) (tbl_rows (orders st)) ->
            (exists c, In (o_customer_id o, c) (tbl_rows (customers st)))
            /\ o_status o <> Some "")
      /\ (forall iid it,
            In (iid, it) (tbl_rows (order_items st)) ->
            (exists o, In (i_order_id it, o) (tbl_rows (orders st)))
            /\ (exists p, In (i_product_id it, p) (tbl_rows (products st)))).
Proof.
  intros P faults cc pc sc rc rp st0 Hf Hq.
  destruct (load_stage_ok faults Hf cc pc sc rc rp st0 Hq)
    as (st & Hrun & Hc & Hp & Ho & Hi).
  eexists _, st. split; [exact Hrun|].
  rewrite Hc, Hp, Ho, Hi. split.
  - intros oid o Hin.
    apply new_rows_orders_in in Hin as (r & pid & _ & Hrec & Hst).
    split; [|rewrite Hst; apply status_or_pending_nonempty].
    apply reconcile_Some in Hrec as [[e He] _].
    apply (index_fold_sound email _ email_index_step) in He
      as [He|(c & Hin & _)].
    + rewrite lookup_empty in He. discriminate.
    + now exists c.
  - intros iid it Hin. split; [exact (new_rows_item_order _ _ _ _ _ _ _ _ _ Hin)|].
    apply new_rows_items_in in Hin as (r & cid & _ & Hrec).
    apply reconcile_Some in Hrec as [_ [n Hn]].
    apply (index_fold_sound (fun p => Some (product_name p)) _ name_index_step)
      in Hn as [Hn|(p & Hin & _)].
    + rewrite lookup_empty in Hn. discriminate.
    + now exists p.
Qed.

Lemma loaded_store_references_resolve_witness :
  exists res st,
    load_stage (P := Decimal.instance) (fun _ => None)
      [demo_customer] [mkProduct "Widget" "Electronics" (Some (Decimal.Fin (12 # 1))) 5]
      [demo_sale_widget] demo_raw_to_email demo_raw_to_name empty_store
    = Ok res st
    /\ (forall oid o,
          In (oid, o) (tbl_rows (orders st)) ->
          (exists c, In (o_customer_id o, c) (tbl_rows (customers st)))
          /\ o_status o <> Some "")
    /\ (forall iid it,
          In (iid, it) (tbl_rows (order_items st)) ->
          (exists o, In (i_order_id it, o) (tbl_rows (orders st)))
          /\ (exists p, In (i_product_id it, p) (tbl_rows (products st)))).
Proof.
  apply (loaded_store_references_resolve Decimal.instance (fun _ => None)
           [demo_customer]
           [mkProduct "Widget" "Electronics" (Some (Decimal.Fin (12 # 1))) 5]
           [demo_sale_widget] demo_raw_to_email demo_raw_to_name empty_store).
  - reflexivity.
  - intros r [<-|[]]. reflexivity.
Defined.

(** X12.  The load is re-runnable: since the four tables are truncated
    first, a fault-free load of sales with finite quantities ends with the
    same counts and the same rows in every table whatever the store held
    before, the customers and the products being the cleaned rows numbered
    from 1. *)
Theorem load_is_rerunnable :
  forall (P : Pandas) (faults : nat -> option string)
         (cc : list Customer) (pc : list (Product num)) (sc : list (Sale num))
         (rc rp : gmap string string) (st0 st0' : Store num),
    (forall n, faults n = None) ->
    (forall r, In r sc -> finite_cell (quantity r) = true) ->
    exists res st st',
      load_stage faults cc pc sc rc rp st0 = Ok res st
      /\ load_stage faults cc pc sc rc rp st0' = Ok res st'
      /\ tbl_rows (customers st) = number_from 1 cc
      /\ tbl_rows (products st) = number_from 1 pc
      /\ tbl_rows (customers st') = tbl_rows (customers st)
      /\ tbl_rows (products st') = tbl_rows (products st)
      /\ tbl_rows (orders st') = tbl_rows (orders st)
      /\ tbl_rows (order_items st') = tbl_rows (order_items st).
Proof.
  intros P faults cc pc sc rc rp st0 st0' Hf Hq.
  destruct (load_stage_ok faults Hf cc pc sc rc rp st0 Hq)
    as (st & Hrun & Hc & Hp & Ho & Hi).
  destruct (load_stage_ok faults Hf cc pc sc rc rp st0' Hq)
    as (st' & Hrun' & Hc' & Hp' & Ho' & Hi').
  eexists _, st, st'.
  split; [exact Hrun|]. split; [exact Hrun'|].
  rewrite Hc, Hp, Ho, Hi, Hc', Hp', Ho', Hi'. auto 10.
Qed.

Lemma load_is_rerunnable_witness :
  exists res st st',
    load_stage (P := Decimal.instance) (fun _ => None)
      [demo_customer] [mkProduct "Widget" "Electronics" (Some (Decimal.Fin (12 # 1))) 5]
      [demo_sale_widget] demo_raw_to_email demo_raw_to_name empty_store
    = Ok res st
    /\ load_stage (P := Decimal.instance) (fun _ => None)
         [demo_customer] [mkProduct "Widget" "Electronics" (Some (Decimal.Fin (12 # 1))) 5]
         [demo_sale_widget] demo_raw_to_email demo_raw_to_name
         (mkStore (inserted demo_customer truncated) truncated
                  (inserted (mkOrder 9 None None None) truncated) truncated 40)
       = Ok res st'
    /\ tbl_rows (customers st) = number_from 1 [demo_customer]
    /\ tbl_rows (products st)
       = number_from 1 [mkProduct "Widget" "Electronics" (Some (Decimal.Fin (12 # 1))) 5]
    /\ tbl_rows (customers st') = tbl_rows (customers st)
    /\ tbl_rows (products st') = tbl_rows (products st)
    /\ tbl_rows (orders st') = tbl_rows (orders st)
    /\ tbl_rows (order_items st') = tbl_rows (order_items st).
Proof.
  apply (load_is_rerunnable Decimal.instance (fun _ => None)
           [demo_customer]
           [mkProduct "Widget" "Electronics" (Some (Decimal.Fin (12 # 1))) 5]
           [demo_sale_widget] demo_raw_to_email demo_raw_to_name empty_store
           (mkStore (inserted demo_customer truncated) truncated
                    (inserted (mkOrder 9 None None None) truncated)
                    truncated 40)).
  - reflexivity.
  - intros r [<-|[]]. reflexivity.
Defined.

(** ** The ledgers *)

Lemma note_if_notes k n qc :
  notes (note_if k n qc) = notes qc ++ (if k =? 0 then [] else [n]).
Proof.
  unfold note_if. destruct (k =? 0); cbn [notes]; [|reflexivity].
  now rewrite app_nil_r.
Qed.

Lemma len_nonneg {A} (l : list A) : 0 <= len l.
Proof. unfold len. lia. Qed.

Lemma len_filter_le {A} (p : A -> bool) (l : list A) :
  len (List.filter p l) <= len l.
Proof. unfold len. pose proof (filter_length_le p l). lia. Qed.

Lemma len_dedup_le {A K} `{EqDecision K} (key : A -> K) (l : list A) :
  len (drop_duplicates key l) <= len l.
Proof. unfold len. pose proof (dedup_from_length key [] l). unfold drop_duplicates. lia. Qed.

Lemma len_map {A B} (f : A -> B) (l : list A) : len (map f l) = len l.
Proof. unfold len. now rewrite length_map. Qed.

Ltac ledger_fields :=
  repeat first
    [ rewrite note_if_notes
    | match goal with
      | |- context [rows_read (note_if ?k ?n ?qc)] =>
          rewrite (proj1 (note_if_counts k n qc))
      | |- context [duplicates_removed (note_if ?k ?n ?qc)] =>
          rewrite (proj1 (proj2 (note_if_counts k n qc)))
      | |- context [rows_dropped (note_if ?k ?n ?qc)] =>
          rewrite (proj1 (proj2 (proj2 (note_if_counts k n qc))))
      | |- context [missing_filled (note_if ?k ?n ?qc)] =>
          rewrite (proj1 (proj2 (proj2 (proj2 (note_if_counts k n qc)))))
      | |- context [loaded (note_if ?k ?n ?qc)] =>
          rewrite (proj2 (proj2 (proj2 (proj2 (note_if_counts k n qc)))))
      end
    | progress cbn [rows_read loaded missing_filled duplicates_removed
                    rows_dropped notes app add_dropped add_duplicates
                    add_filled new_qc] ].

Section Ledgers.

Context `{P : Pandas}.

Lemma customer_ledger has_id df :
  let qc := snd (fst (transform_customers has_id df)) in
  rows_read qc = len df /\ loaded qc = 0 /\ missing_filled qc = 0
  /\ 0 <= duplicates_removed qc /\ 0 <= rows_dropped qc
  /\ notes qc = if rows_dropped qc =? 0 then []
                else [note_missing_email (rows_dropped qc)].
Proof.
  unfold transform_customers. cbv zeta.
  cbn [fst snd add_duplicates add_dropped new_qc rows_read loaded
       missing_filled duplicates_removed rows_dropped notes].
  ledger_fields.
  cbn [rows_read loaded missing_filled duplicates_removed rows_dropped notes
       app].
  pose proof (len_filter_le (fun r => notna (cr_email r))
                (map standardise_customer df)).
  pose proof (len_dedup_le cr_email
                (List.filter (fun r => notna (cr_email r))
                   (map standardise_customer df))).
  rewrite ?Z.add_0_l. repeat split; try reflexivity; lia.
Qed.

Lemma product_ledger dp ds :
  let qc := products_ledger dp ds in
  rows_read qc = len dp /\ loaded qc = 0
  /\ 0 <= missing_filled qc
  /\ 0 <= duplicates_removed qc /\ 0 <= rows_dropped qc
  /\ notes qc = if rows_dropped qc =? 0 then []
                else [note_missing_price (rows_dropped qc)].
Proof.
  unfold products_ledger. cbv zeta.
  cbn [fst snd add_duplicates add_dropped add_filled new_qc rows_read loaded
       missing_filled duplicates_removed rows_dropped notes].
  ledger_fields.
  cbn [rows_read loaded missing_filled duplicates_removed rows_dropped notes
       app].
  pose proof (len_filter_le (fun r => notna (pr_price r))
                (map fst (impute_prices dp ds))).
  pose proof (len_dedup_le pr_product_id
                (List.filter (fun r => notna (pr_price r))
                   (map fst (impute_prices dp ds)))).
  unfold count.
  pose proof (len_nonneg
                (List.filter (fun r => negb (notna (pr_stock_quantity r)))
                   (map trim_product dp))).
  pose proof (len_nonneg
                (List.filter (fun r => is_empty_cell (pr_stock_quantity r))
                   (map trim_product dp))).
  pose proof (len_nonneg (List.filter snd (impute_prices dp ds))).
  rewrite ?Z.add_0_l. repeat split; try reflexivity; lia.
Qed.

Lemma sales_ledger ds :
  let qc := snd (transform_sales ds) in
  rows_read qc = len ds /\ loaded qc = 0 /\ missing_filled qc = 0
  /\ 0 <= duplicates_removed qc
  /\ exists k1 k2,
       0 <= k1 /\ 0 <= k2 /\ rows_dropped qc = k1 + k2
       /\ notes qc = (if k1 =? 0 then [] else [note_missing_ids k1])
                     ++ (if k2 =? 0 then [] else [note_invalid_sale k2]).
Proof.
  unfold transform_sales. cbv zeta.
  cbn [fst snd add_duplicates add_dropped new_qc rows_read loaded
       missing_filled duplicates_removed rows_dropped notes].
  ledger_fields.
  cbn [rows_read loaded missing_filled duplicates_removed rows_dropped notes
       app].
  pose proof (len_dedup_le rs_transaction_id (map strip_sale ds)).
  rewrite len_map in *.
  repeat split; try reflexivity; try lia.
  eexists _, _. split; [|split; [|split; [|reflexivity]]].
  - pose proof (len_filter_le has_ids
                  (map stage_sale
                     (drop_duplicates rs_transaction_id (map strip_sale ds)))).
    lia.
  - pose proof (len_filter_le is_valid
                  (map coerce_sale
                     (List.filter has_ids
                        (map stage_sale
                           (drop_duplicates rs_transaction_id
                              (map strip_sale ds)))))).
    lia.
  - lia.
Qed.

End Ledgers.

(** X13.  What a cleaner hands to the report when it returns: the rows
    read are the rows of the file, nothing is counted as loaded, no counter
    is negative, and a note is present exactly when rows were dropped for
    its reason, with the number of rows it speaks of. *)
Theorem cleaner_ledgers_shape :
  forall (P : Pandas) (has_id : bool) (dc : list RawCustomer)
         (dp : list RawProduct) (ds : list RawSale),
    (let qc := snd (fst (transform_customers has_id dc)) in
     rows_read qc = len dc /\ loaded qc = 0 /\ missing_filled qc = 0
     /\ 0 <= duplicates_removed qc /\ 0 <= rows_dropped qc
     /\ notes qc = if rows_dropped qc =? 0 then []
                   else [note_missing_email (rows_dropped qc)])
    /\ (forall pc qc m,
          transform_products dp ds = inr (pc, qc, m) ->
          rows_read qc = len dp /\ loaded qc = 0
          /\ 0 <= missing_filled qc
          /\ 0 <= duplicates_removed qc /\ 0 <= rows_dropped qc
          /\ notes qc = if rows_dropped qc =? 0 then []
                        else [note_missing_price (rows_dropped qc)])
    /\ (let qc := snd (transform_sales ds) in
        rows_read qc = len ds /\ loaded qc = 0 /\ missing_filled qc = 0
        /\ 0 <= duplicates_removed qc
        /\ exists k1 k2,
             0 <= k1 /\ 0 <= k2 /\ rows_dropped qc = k1 + k2
             /\ notes qc = (if k1 =? 0 then [] else [note_missing_ids k1])
                           ++ (if k2 =? 0 then []
                               else [note_invalid_sale k2])).
Proof.
  intros P has_id dc dp ds. split; [|split].
  - apply customer_ledger.
  - intros pc qc m Hret.
    apply transform_products_inr in Hret as (_ & _ & -> & _).
    apply product_ledger.
  - apply sales_ledger.
Qed.

Lemma cleaner_ledgers_shape_witness :
  exists pc qc m,
    transform_products (P := Decimal.instance) demo_products demo_sales
    = inr (pc, qc, m)
    /\ rows_read qc = len demo_products /\ loaded qc = 0
    /\ notes qc = [note_missing_price 1].
Proof.
  eexists _, _, _. split; [reflexivity|].
  destruct (proj1 (proj2 (cleaner_ledgers_shape Decimal.instance true
                            demo_customers demo_products demo_sales))
              _ _ _ eq_refl)
    as (H1 & H2 & _ & _ & _ & H6).
  split; [exact H1|]. split; [exact H2|exact H6].
Defined.

(** ** Runs with storage faults *)

(** X14.  The report never shows a partial load.  With the three files
    present and whatever the storage does, a run that ends with the report
    reports for each table a loaded count that is either untouched (0) or
    the full count of what was to be loaded, a later table being counted
    only when the earlier ones are; rows inserted before a failure are not
    counted.  The rows read stay those of the files. *)
Theorem report_never_counts_a_partial_load :
  forall (P : Pandas) (faults : nat -> option string) (has_id : bool)
         (dc : list RawCustomer) (dp : list RawProduct) (ds : list RawSale)
         (st0 : Store num) (cq pq sq : QualityCounts) (extra : list string),
    main faults (mkFiles (Some (has_id, dc)) (Some dp) (Some ds)) st0
    = Written cq pq sq extra ->
    let cc := fst (fst (transform_customers has_id dc)) in
    let sc := fst (transform_sales ds) in
    exists pc pqc m,
      transform_products dp ds = inr (pc, pqc, m)
      /\ rows_read cq = len dc /\ rows_read pq = len dp
      /\ rows_read sq = len ds
      /\ (loaded cq = 0 \/ loaded cq = len cc)
      /\ (loaded pq = 0 \/ (loaded pq = len pc /\ loaded cq = len cc))
      /\ ((loaded sq = 0
           /\ rows_dropped sq = rows_dropped (snd (transform_sales ds)))
          \/ (exists d,
                0 <= d <= len sc /\ loaded sq = len sc - d
                /\ rows_dropped sq
                   = rows_dropped (snd (transform_sales ds)) + d
                /\ loaded pq = len pc /\ loaded cq = len cc)).
Proof.
  intros P faults has_id dc dp ds st0 cq pq sq extra Hmain cc sc.
  destruct (transform_products dp ds) as [e|[[pc pqc] m]] eqn:Hret.
  { rewrite (main_transform_raises faults has_id dc dp ds e st0 Hret) in Hmain.
    discriminate. }
  exists pc, pqc, m. split; [reflexivity|].
  destruct (customer_ledger has_id dc) as (Rc & Lc & _).
  destruct (product_ledger dp ds) as (Rp & Lp & _).
  destruct (sales_ledger ds) as (Rs & Ls & _).
  cbv zeta in Rc, Lc, Rp, Lp, Rs, Ls.
  pose proof (transform_products_inr _ _ _ _ _ Hret) as (_ & _ & Hqc & _).
  rewrite <- Hqc in Rp, Lp. clear Hqc.
  rewrite (main_stages faults has_id dc dp ds pc pqc m st0 Hret) in Hmain.
  cbv zeta in Hmain. fold cc sc in Hmain.
  set (sqc := snd (transform_sales ds)) in *.
  set (cqc := snd (fst (transform_customers has_id dc))) in *.
  set (rc := snd (transform_customers has_id dc)) in *.
  clearbody sqc cqc rc cc sc. clear Hret.
  destruct (stage_customers faults cc st0) as [n1 st1|e] eqn:H1.
  2:{ destruct e; cbn [on_error] in Hmain; try discriminate Hmain.
      injection Hmain as <- <- <- <-.
      rewrite Lc, Lp, Ls. auto 10. }
  apply stage_customers_count in H1 as ->.
  destruct (insert_products faults pc st1) as [n2 st2|e] eqn:H2.
  2:{ destruct e; cbn [on_error] in Hmain; try discriminate Hmain.
      injection Hmain as <- <- <- <-.
      cbn [set_loaded rows_read loaded]. rewrite Lp, Ls. auto 10. }
  apply insert_products_count in H2 as ->.
  destruct (stage_orders faults sc rc m st2) as [[[o i] d] st3|e] eqn:H3.
  2:{ destruct e; cbn [on_error] in Hmain; try discriminate Hmain.
      injection Hmain as <- <- <- <-.
      cbn [set_loaded rows_read loaded]. rewrite Ls. auto 10. }
  apply stage_orders_count in H3 as (-> & Hsum & Hd & Ho).
  assert (Hsq :
    forall sq',
      sq' = (if d =? 0 then set_loaded (len sc - d) sqc
             else add_dropped d (set_loaded (len sc - d) sqc)) ->
      rows_read sq' = len ds
      /\ exists d0,
           0 <= d0 <= len sc /\ loaded sq' = len sc - d0
           /\ rows_dropped sq' = rows_dropped sqc + d0).
  { intros sq' ->. destruct (d =? 0) eqn:Ed.
    - apply Z.eqb_eq in Ed. subst d.
      cbn [set_loaded rows_read loaded rows_dropped]. split; [exact Rs|].
      exists 0. repeat split; lia.
    - cbn [set_loaded add_dropped rows_read loaded rows_dropped].
      split; [exact Rs|]. exists d. repeat split; lia. }
  destruct (Hsq _ eq_refl) as (Rsq & d0 & Hd0 & Lsq & Dsq).
  destruct (conn_close faults st3) as [[] st4|e] eqn:H4.
  - injection Hmain as <- <- <- <-.
    cbn [set_loaded rows_read loaded].
    repeat split; try assumption; try (right; auto; fail).
    right. exists d0. auto.
  - destruct e; cbn [on_error] in Hmain; try discriminate Hmain.
    injection Hmain as <- <- <- <-.
    cbn [set_loaded rows_read loaded].
    repeat split; try assumption; try (right; auto; fail).
    right. exists d0. auto.
Qed.

Lemma report_never_counts_a_partial_load_witness :
  exists cq pq sq extra,
    main (P := Decimal.instance) connection_lost demo_files empty_store
    = Written cq pq sq extra
    /\ rows_read cq = len demo_customers
    /\ rows_read pq = len demo_products
    /\ rows_read sq = len demo_sales
    /\ loaded cq = 1 /\ loaded pq = 0 /\ loaded sq = 0.
Proof.
  assert (Hmain :
    main (P := Decimal.instance) connection_lost demo_files empty_store
    = Written (mkQC 3 1 1 0 1 [note_missing_email 1])
              (mkQC 3 0 1 2 0 [note_missing_price 1])
              (mkQC 5 1 1 0 0 [note_invalid_sale 1])
              ["MySQL Error: 2013: Lost connection to MySQL server during query"])
    by (vm_compute; reflexivity).
  eexists _, _, _, _. split; [exact Hmain|].
  destruct (report_never_counts_a_partial_load Decimal.instance
              connection_lost true demo_customers demo_products demo_sales
              empty_store _ _ _ _ Hmain)
    as (pc & pqc & m & _ & H1 & H2 & H3 & _).
  split; [exact H1|]. split; [exact H2|]. split; [exact H3|].
  repeat split; reflexivity.
Defined.

(** ** A quantity that [int] refuses *)

(** The first element of a list that fails a property is determined by
    the list. *)
Lemma first_failure_unique {A} (good : A -> Prop) (pre pre' : list A)
      r r' post post' :
  pre ++ r :: post = pre' ++ r' :: post' ->
  (forall x, In x pre -> good x) -> ~ good r ->
  (forall x, In x pre' -> good x) -> ~ good r' ->
  pre = pre' /\ r = r'.
Proof.
  revert pre'. induction pre as [|x l IH]; intros [|x' l'] E Hpre Hr Hpre' Hr';
    cbn [app] in E.
  - now injection E as ->.
  - injection E as -> _. exfalso. apply Hr, Hpre'. now left.
  - injection E as -> _. exfalso. apply Hr', Hpre. now left.
  - injection E as -> E.
    destruct (IH l' E) as [-> ->]; auto.
    + intros y Hy. apply Hpre. now right.
    + intros y Hy. apply Hpre'. now right.
Qed.

(** X15.  [int(r["quantity"])] is the one place of the load that can
    fail with something else than a storage error: without storage
    faults, the reconciler returns exactly when every row that resolves to
    both keys has a finite quantity, and otherwise raises what [int]
    raises on the first such row whose quantity is not: [ValueError] on
    NaN, [OverflowError] on an infinity.  The cleaned sales never contain
    a row without quantity. *)
Theorem reconciler_raises_on_missing_quantity :
  forall (P : Pandas) (faults : nat -> option string)
         (rc : gmap string string) (ec : gmap string Z)
         (rp : gmap string string) (np : gmap string Z)
         (sales : list (Sale num)) (st : Store num),
    (forall n, faults n = None) ->
    ((forall r, In r sales -> reconcile rc ec rp np r <> None ->
                finite_cell (quantity r) = true)
     <-> exists res st',
           insert_orders_and_items faults rc ec rp np sales st = Ok res st')
    /\ (forall pre r post,
          sales = pre ++ r :: post ->
          (forall r', In r' pre -> reconcile rc ec rp np r' <> None ->
                      finite_cell (quantity r') = true) ->
          reconcile rc ec rp np r <> None ->
          (quantity r = None ->
           insert_orders_and_items faults rc ec rp np sales st
           = Raise ValueError)
          /\ (forall q,
                quantity r = Some q -> num_finite q = false ->
                insert_orders_and_items faults rc ec rp np sales st
                = Raise OverflowError))
    /\ (forall e,
          insert_orders_and_items faults rc ec rp np sales st = Raise e ->
          e = ValueError \/ e = OverflowError)
    /\ (forall ds r, In r (fst (transform_sales ds)) -> quantity r <> None).
Proof.
  intros P faults rc ec rp np sales st Hf.
  assert (Hbad : forall r e,
            refusal (quantity r) = Some e ->
            finite_cell (quantity r) = true -> False).
  { intros r e Href Hfin. apply refusal_None in Hfin. congruence. }
  assert (Hfirst : forall pre r post e,
            sales = pre ++ r :: post ->
            (forall r', In r' pre -> reconcile rc ec rp np r' <> None ->
                        finite_cell (quantity r') = true) ->
            reconcile rc ec rp np r <> None ->
            refusal (quantity r) = Some e ->
            insert_orders_and_items faults rc ec rp np sales st = Raise e).
  { intros pre r post e Hs Hpre Hrec Href.
    destruct (insert_orders_and_items_cases faults Hf rc ec rp np sales st)
      as [(pre' & r' & post' & e' & Hs' & Hpre' & Hrec' & Href' & Hrun)
         |[Hall _]].
    - rewrite Hs in Hs'.
      destruct (first_failure_unique
                  (fun x => reconcile rc ec rp np x <> None ->
                            finite_cell (quantity x) = true)
                  pre pre' r r' post post' Hs' Hpre) as [_ <-].
      + intros H. exact (Hbad r e Href (H Hrec)).
      + exact Hpre'.
      + intros H. exact (Hbad r' e' Href' (H Hrec')).
      + congruence.
    - exfalso. apply (Hbad r e Href). apply Hall; [|exact Hrec].
      rewrite Hs. apply in_or_app. right. now left. }
  split; [|split; [|split]].
  - destruct (insert_orders_and_items_cases faults Hf rc ec rp np sales st)
      as [(pre & r & post & e & Hs & Hpre & Hrec & Href & Hrun)
         |[Hall Hrun]].
    + split.
      * intros Hall. exfalso. apply (Hbad r e Href). apply Hall; [|exact Hrec].
        rewrite Hs. apply in_or_app. right. now left.
      * intros (res & st' & Hok). congruence.
    + split; auto.
  - intros pre r post Hs Hpre Hrec. split.
    + intros Hq. apply (Hfirst pre r post ValueError Hs Hpre Hrec).
      now rewrite Hq.
    + intros q Hq Hfin. apply (Hfirst pre r post OverflowError Hs Hpre Hrec).
      rewrite Hq. cbn [refusal]. now rewrite Hfin.
  - intros e He.
    destruct (insert_orders_and_items_cases faults Hf rc ec rp np sales st)
      as [(pre & r & post & e' & _ & _ & _ & Href & Hrun)
         |[_ (res & st' & Hrun)]]; [|congruence].
    rewrite Hrun in He. injection He as <-. unfold refusal in Href.
    destruct (quantity r) as [q|]; [|injection Href as <-; now left].
    destruct (num_finite q); [discriminate|]. injection Href as <-. now right.
  - apply sales_clean_quantity.
Qed.

Lemma reconciler_raises_on_missing_quantity_witness :
  insert_orders_and_items (P := Decimal.instance) (fun _ => None)
    demo_raw_to_email demo_email_to_key demo_raw_to_name demo_name_to_key
    ([demo_sale_widget] ++ demo_sale_infinite :: []) empty_store
  = Raise OverflowError.
Proof.
  refine (proj2 (proj1 (proj2
            (reconciler_raises_on_missing_quantity Decimal.instance
               (fun _ => None) demo_raw_to_email demo_email_to_key
               demo_raw_to_name demo_name_to_key
               ([demo_sale_widget] ++ demo_sale_infinite :: []) empty_store
               (fun _ => eq_refl)))
            [demo_sale_widget] demo_sale_infinite [] eq_refl _ _)
          Decimal.PosInf eq_refl eq_refl).
  - intros r' [<-|[]] _. reflexivity.
  - vm_compute. discriminate.
Defined.

(** ** What the imputation reads of the sales file *)

Lemma referencing_prices_columns `{P : Pandas} ds ds' pid :
  map (fun r => (rs_product_id r, rs_unit_price r)) ds
  = map (fun r => (rs_product_id r, rs_unit_price r)) ds' ->
  referencing_prices ds pid = referencing_prices ds' pid.
Proof.
  revert ds'. induction ds as [|r rest IH]; intros [|r' rest']; cbn [map];
    try discriminate; [reflexivity|].
  intros [= Hid Hprice Hrest]. unfold referencing_prices in *.
  rewrite !omap_cons, Hid, Hprice, (IH _ Hrest). reflexivity.
Qed.

(** X16.  The price imputation reads two columns of the raw sales file
    and nothing else: two sales files that agree on [product_id] and
    [unit_price], row by row, give the same cleaned products, the same
    ledger and the same name map.  Sales that the sales cleaner rejects or
    removes as duplicates count in the median like any other. *)
Theorem transform_products_reads_two_sales_columns :
  forall (P : Pandas) (dp : list RawProduct) (ds ds' : list RawSale),
    map (fun r => (rs_product_id r, rs_unit_price r)) ds
    = map (fun r => (rs_product_id r, rs_unit_price r)) ds' ->
    transform_products dp ds = transform_products dp ds'.
Proof.
  intros P dp ds ds' Hcols.
  assert (Himp : impute_prices dp ds = impute_prices dp ds').
  { rewrite !impute_prices_map. apply map_ext. intros raw.
    unfold imputed_row, impute_price.
    destruct (pr_price (prepared raw)); [reflexivity|].
    now rewrite !median_by_pid_lookup,
      (referencing_prices_columns ds ds' _ Hcols). }
  unfold transform_products. cbv zeta. now rewrite Himp.
Qed.

Lemma transform_products_reads_two_sales_columns_witness :
  transform_products (P := Decimal.instance) demo_products demo_sales
  = transform_products (P := Decimal.instance) demo_products
      [ mkRawSale None None (Some "P200") None (Some "10.00") None None;
        mkRawSale None None (Some "P200") None (Some "12.00") None None;
        mkRawSale None None (Some " P200 ") None (Some "14.00") None None;
        mkRawSale None None (Some "P200") None (Some "free") None None;
        mkRawSale None None (Some "P100") None (Some "5.00") None None ].
Proof.
  apply (transform_products_reads_two_sales_columns Decimal.instance
           demo_products demo_sales).
  reflexivity.
Defined.

(** ** The report *)

Lemma section_lines_length title qc :
  length (section_lines title qc) = (7 + note_lines (notes qc))%nat.
Proof.
  unfold section_lines, note_lines.
  destruct (notes qc) as [|n ns]; cbn [app length]; [reflexivity|].
  rewrite length_app, length_map. cbn [length]. lia.
Qed.

Lemma section_lines_note title qc n :
  In n (notes qc) -> In ("- " +:+ n) (section_lines title qc).
Proof.
  intros Hn. unfold section_lines. apply in_or_app. right.
  apply in_or_app. left.
  destruct (notes qc) as [|n0 ns]; [destruct Hn|].
  right. apply (in_map (fun n => "- " +:+ n)). exact Hn.
Qed.

Lemma section_lines_last title qc : last (section_lines title qc) = Some "".
Proof.
  unfold section_lines. now rewrite !app_assoc, last_snoc.
Qed.

(** X17.  The report has a fixed frame: a three-line header, then for
    each of the three files a title, five counters, its notes under a
    [Notes:] line when it has any, and an empty line; the run notes come
    last under their own title when there are any.  Every note of a ledger
    and every run note is printed as a line that starts with a dash, and
    the text ends with an empty line. *)
Theorem write_report_frame :
  forall (now : string) (cq pq sq : QualityCounts) (extra : list string),
    let report := write_report now cq pq sq extra in
    length report
    = (3 + (7 + note_lines (notes cq)) + (7 + note_lines (notes pq))
       + (7 + note_lines (notes sq))
       + match extra with [] => 0 | _ => 2 + length extra end)%nat
    /\ hd_error report = Some "FlexiMart ETL Data Quality Report"
    /\ last report = Some ""
    /\ (forall n,
          In n (notes cq) \/ In n (notes pq) \/ In n (notes sq) \/ In n extra ->
          In ("- " +:+ n) report).
Proof.
  intros now cq pq sq extra report. subst report. unfold write_report.
  split; [|split; [|split]].
  - rewrite !length_app, !section_lines_length. cbn [length].
    destruct extra as [|n ns]; cbn [length]; [lia|].
    rewrite length_app, length_map. cbn [length]. lia.
  - reflexivity.
  - destruct extra as [|n ns].
    + rewrite app_nil_r, !app_assoc, last_app, section_lines_last.
      reflexivity.
    + rewrite !app_assoc, app_comm_cons, !app_assoc. apply last_snoc.
  - intros n Hn.
    apply in_or_app. right.
    destruct Hn as [Hn|[Hn|[Hn|Hn]]].
    + apply in_or_app. left. now apply section_lines_note.
    + apply in_or_app. right. apply in_or_app. left.
      now apply section_lines_note.
    + do 2 (apply in_or_app; right). apply in_or_app. left.
      now apply section_lines_note.
    + do 3 (apply in_or_app; right).
      destruct extra as [|n0 ns]; [destruct Hn|].
      right. apply in_or_app. left.
      apply (in_map (fun n => "- " +:+ n)). exact Hn.
Qed.

(** ** The cleaned rows are normalised *)

Lemma strip_cell_stripped c s : strip_cell c = Some s -> strip s = s.
Proof.
  destruct c as [x|]; cbn; [|discriminate].
  intros [= <-]. apply strip_idem.
Qed.

Lemma py_str_strip_cell c : strip (py_str (strip_cell c)) = strip (py_str c).
Proof. destruct c as [x|]; cbn; [apply strip_idem|reflexivity]. Qed.

Lemma replace_empty_inv c e : replace_empty c = Some e -> c = Some e.
Proof.
  destruct c as [x|]; cbn; [|discriminate].
  destruct (is_empty x); [discriminate|]. now intros [= <-].
Qed.

Lemma normalise_city_shape c out :
  normalise_city c = Some out -> out <> "" /\ strip out = out.
Proof.
  unfold normalise_city.
  destruct (is_sentinel (strip (py_str c))) eqn:Hs; [discriminate|].
  intros [= <-]. split; [|apply strip_title_strip].
  intros He.
  assert (is_empty (title (strip (py_str c))) = true) as Hem
    by now rewrite He.
  unfold title in Hem. rewrite is_empty_title_from in Hem.
  unfold is_sentinel in Hs. now rewrite Hem in Hs.
Qed.

Lemma normalise_category_nonempty c : normalise_category c <> "".
Proof.
  unfold normalise_category, str_eqb.
  repeat case_bool_decide; try discriminate.
  destruct (strip (py_str c)) as [|a r]; discriminate.
Qed.

Lemma normalise_category_strip_cell c :
  normalise_category (strip_cell c) = normalise_category c.
Proof. unfold normalise_category. now rewrite py_str_strip_cell. Qed.

Lemma cleaned_customer_origin `{P : Pandas} has_id df c :
  In c (fst (fst (transform_customers has_id df))) ->
  exists r, In r df /\ c = customer_columns (standardise_customer r).
Proof.
  rewrite transform_customers_rows. intros Hc.
  apply in_map_iff in Hc as (x & <- & Hx).
  apply dedup_from_In in Hx as [Hx _].
  apply filter_In in Hx as [Hx _].
  apply in_map_iff in Hx as (r & <- & Hr). eauto.
Qed.

(** X18.  Every field of a cleaned customer is in its normal form: the
    phone, when present, is [+91-] and ten digits; the city, when present,
    is a non-empty text without blanks around it; the names and the email
    have no blanks around them. *)
Theorem cleaned_customer_fields_normalised :
  forall (P : Pandas) (has_id : bool) (df : list RawCustomer) (c : Customer),
    In c (fst (fst (transform_customers has_id df))) ->
    (forall p, phone c = Some p ->
       exists d10,
         p = "+91-" +:+ d10 /\ slen d10 = 10%nat /\ all_digits d10 = true)
    /\ (forall ct, city c = Some ct -> ct <> "" /\ strip ct = ct)
    /\ (forall e, email c = Some e -> strip e = e)
    /\ (forall s, first_name c = Some s -> strip s = s)
    /\ (forall s, last_name c = Some s -> strip s = s).
Proof.
  intros P has_id df c Hc.
  apply cleaned_customer_origin in Hc as (r & _ & ->).
  cbn [customer_columns standardise_customer phone city email first_name
       last_name cr_phone cr_city cr_email cr_first_name cr_last_name].
  repeat split.
  - intros p. rewrite normalise_phone_rule. apply phone_rule_shape.
  - now apply normalise_city_shape in H.
  - now apply normalise_city_shape in H.
  - intros e He. apply replace_empty_inv in He.
    now apply strip_cell_stripped in He.
  - intros s. apply strip_cell_stripped.
  - intros s. apply strip_cell_stripped.
Qed.

Lemma cleaned_customer_fields_normalised_witness :
  (forall p, phone demo_customer = Some p ->
     exists d10,
       p = "+91-" +:+ d10 /\ slen d10 = 10%nat /\ all_digits d10 = true)
  /\ (forall ct, city demo_customer = Some ct -> ct <> "" /\ strip ct = ct)
  /\ (forall e, email demo_customer = Some e -> strip e = e)
  /\ (forall s, first_name demo_customer = Some s -> strip s = s)
  /\ (forall s, last_name demo_customer = Some s -> strip s = s).
Proof.
  apply (cleaned_customer_fields_normalised Decimal.instance true
           demo_customers demo_customer).
  vm_compute. left. reflexivity.
Defined.

(** X19.  When the cleaner returns, a cleaned product has a name without
    blanks around it and a non-empty category, both taken from one row of
    the file; a missing name cell is the float NaN and is loaded as the
    name [nan]. *)
Theorem cleaned_product_name_and_category :
  forall (P : Pandas) (dp : list RawProduct) (ds : list RawSale)
         (cleaned : list (Product num)) (qc : QualityCounts)
         (m : gmap string string) (p : Product num),
    transform_products dp ds = inr (cleaned, qc, m) ->
    In p cleaned ->
    strip (product_name p) = product_name p
    /\ category p <> ""
    /\ exists raw,
         In raw dp
         /\ product_name p = strip (py_str (rp_product_name raw))
         /\ category p = normalise_category (rp_category raw)
         /\ (rp_product_name raw = None -> product_name p = "nan").
Proof.
  intros P dp ds cleaned qc m p Hret Hp.
  apply transform_products_inr in Hret as (_ & -> & _ & _).
  apply cleaned_product_origin in Hp as (raw & Hraw & -> & _).
  assert (Hn : product_name (product_columns (fst (imputed_row ds raw)))
               = strip (py_str (rp_product_name raw))).
  { cbn [product_columns product_name]. unfold imputed_row, impute_price.
    destruct (pr_price (prepared raw)); [|destruct (mjoin _)];
      cbn [fst set_price pr_product_name prepared blank_price fill_stock
           trim_product]; apply py_str_strip_cell. }
  assert (Hc : category (product_columns (fst (imputed_row ds raw)))
               = normalise_category (rp_category raw)).
  { cbn [product_columns category]. unfold imputed_row, impute_price.
    destruct (pr_price (prepared raw)); [|destruct (mjoin _)];
      cbn [fst set_price pr_category prepared blank_price fill_stock
           trim_product]; apply normalise_category_strip_cell. }
  rewrite Hn, Hc. split; [apply strip_idem|].
  split; [apply normalise_category_nonempty|].
  exists raw. repeat split; [assumption|]. now intros ->.
Qed.

Lemma cleaned_product_name_and_category_witness :
  strip "nan" = "nan"
  /\ "Fashion" <> ""
  /\ exists raw,
       In raw [mkRawProduct (Some "P1") None (Some " FASHION") (Some "3.50")
                            (Some "2")]
       /\ "nan" = strip (py_str (rp_product_name raw))
       /\ "Fashion" = normalise_category (rp_category raw)
       /\ (rp_product_name raw = None -> "nan" = "nan").
Proof.
  apply (cleaned_product_name_and_category Decimal.instance
           [mkRawProduct (Some "P1") None (Some " FASHION") (Some "3.50")
                         (Some "2")]
           [] _ _ _
           (mkProduct "nan" "Fashion" (Some (Decimal.Fin (7 # 2))) 2)
           eq_refl).
  vm_compute. left. reflexivity.
Defined.

(** ** The maps from raw identifiers *)

Section RawMap.

Context {A : Type}.
Variable key : A -> string.
Variable val : A -> option string.
Variable step : gmap string string -> A -> gmap string string.
Hypothesis step_eq :
  forall m x,
    step m x = match val x with Some v => <[key x := v]> m | None => m end.

Lemma raw_fold_sound rows m k v :
  fold_left step rows m !! k = Some v ->
  m !! k = Some v \/ exists x, In x rows /\ key x = k /\ val x = Some v.
Proof.
  revert m. induction rows as [|x r IH]; intros m; [now left|].
  cbn [fold_left]. intros H. apply IH in H as [H|(y & Hin & Hy)].
  - rewrite step_eq in H. destruct (val x) as [w|] eqn:E; [|now left].
    destruct (decide (key x = k)) as [Hk|Hne].
    + rewrite <- Hk, lookup_insert_eq in H. injection H as ->.
      right. exists x. split; [now left|]. split; [exact Hk|exact E].
    + rewrite lookup_insert_ne in H by assumption. now left.
  - right. exists y. split; [now right|exact Hy].
Qed.

Lemma raw_fold_keeps rows m k :
  is_Some (m !! k) -> is_Some (fold_left step rows m !! k).
Proof.
  revert m. induction rows as [|x r IH]; intros m Hm; [exact Hm|].
  cbn [fold_left]. apply IH. rewrite step_eq.
  destruct (val x) as [w|]; [|exact Hm].
  destruct (decide (key x = k)) as [<-|Hne].
  - rewrite lookup_insert_eq. eauto.
  - now rewrite lookup_insert_ne.
Qed.

Lemma raw_fold_dom rows m x :
  In x rows -> is_Some (val x) -> is_Some (fold_left step rows m !! key x).
Proof.
  revert m. induction rows as [|y r IH]; intros m; [intros []|].
  cbn [fold_left]. intros [->|Hin] Hv.
  - apply raw_fold_keeps. rewrite step_eq. destruct Hv as [v ->].
    rewrite lookup_insert_eq. eauto.
  - now apply IH.
Qed.

(** The last row with a key gives its value. *)
Lemma raw_fold_last l1 x l2 m v :
  val x = Some v ->
  (forall y, In y l2 -> is_Some (val y) -> key y <> key x) ->
  fold_left step (l1 ++ x :: l2) m !! key x = Some v.
Proof.
  intros Hv Hl2. rewrite fold_left_app. cbn [fold_left].
  rewrite step_eq, Hv.
  generalize (fold_left step l1 m). intros m1.
  assert (Hm : <[key x := v]> m1 !! key x = Some v) by apply lookup_insert_eq.
  revert Hm. generalize (<[key x := v]> m1). clear m1.
  induction l2 as [|y r IH]; intros m1 Hm; [exact Hm|].
  cbn [fold_left]. apply IH.
  - intros z Hz. apply Hl2. now right.
  - rewrite step_eq. destruct (val y) as [w|] eqn:E; [|exact Hm].
    rewrite lookup_insert_ne; [exact Hm|].
    apply Hl2; [now left|]. rewrite E. eauto.
Qed.

End RawMap.

Lemma raw_to_email_step (m : gmap string string) (r : CustomerRow) :
  (fun (m : gmap string string) r =>
     match cr_email r with
     | Some e => <[strip (py_str (cr_customer_id r)) := e]> m
     | None => m
     end) m r
  = match cr_email r with
    | Some v => <[strip (py_str (cr_customer_id r)) := v]> m
    | None => m
    end.
Proof. reflexivity. Qed.

Lemma raw_to_name_step (m : gmap string string) (r : ProductRow) :
  (fun (m : gmap string string) r =>
     <[strip (py_str (pr_product_id r)) := pr_product_name r]> m) m r
  = match Some (pr_product_name r) with
    | Some v => <[strip (py_str (pr_product_id r)) := v]> m
    | None => m
    end.
Proof. reflexivity. Qed.

Lemma transform_customers_map `{P : Pandas} has_id df :
  snd (transform_customers has_id df)
  = if has_id
    then build_raw_to_email
           (drop_duplicates cr_email
              (List.filter (fun r => notna (cr_email r))
                           (map standardise_customer df)))
    else ∅.
Proof. reflexivity. Qed.

(** X20.  The map from raw customer identifiers to emails is empty when
    the file has no [customer_id] column; otherwise every entry pairs the
    trimmed identifier of a row of the file with the email of that row,
    which is a cleaned customer, and the identifier of every cleaned row
    is in the map.  When the surviving rows carry distinct identifiers the
    identifier of a cleaned row maps to its own email. *)
Theorem raw_customer_map_points_to_cleaned_rows :
  forall (P : Pandas) (has_id : bool) (df : list RawCustomer),
    let cleaned := fst (fst (transform_customers has_id df)) in
    let m := snd (transform_customers has_id df) in
    let kept :=
      drop_duplicates cr_email
        (List.filter (fun r => notna (cr_email r))
                     (map standardise_customer df)) in
    (has_id = false -> m = ∅)
    /\ (forall k e,
          m !! k = Some e ->
          exists r,
            In r df
            /\ strip (py_str (rc_customer_id r)) = k
            /\ email (customer_columns (standardise_customer r)) = Some e
            /\ In (customer_columns (standardise_customer r)) cleaned)
    /\ (has_id = true ->
        forall x, In x kept ->
          is_Some (m !! strip (py_str (cr_customer_id x))))
    /\ (has_id = true ->
        forall pre x post e,
          kept = pre ++ x :: post -> cr_email x = Some e ->
          (forall y, In y post ->
             strip (py_str (cr_customer_id y))
             <> strip (py_str (cr_customer_id x))) ->
          m !! strip (py_str (cr_customer_id x)) = Some e).
Proof.
  intros P has_id df cleaned m kept. subst cleaned m kept.
  rewrite transform_customers_map, transform_customers_rows.
  split; [|split; [|split]].
  - now intros ->.
  - intros k e. destruct has_id; [|now rewrite lookup_empty].
    unfold build_raw_to_email. intros H.
    apply (raw_fold_sound (fun r => strip (py_str (cr_customer_id r)))
             cr_email _ raw_to_email_step) in H as [H|(x & Hx & Hk & He)].
    + rewrite lookup_empty in H. discriminate.
    + pose proof Hx as Hkept.
      apply dedup_from_In in Hx as [Hx _].
      apply filter_In in Hx as [Hx _].
      apply in_map_iff in Hx as (r & <- & Hr).
      exists r. split; [exact Hr|].
      split; [now rewrite <- Hk; cbn; rewrite py_str_strip_cell|].
      split; [exact He|].
      apply in_map. exact Hkept.
  - intros -> x Hx. unfold build_raw_to_email.
    apply (raw_fold_dom (fun r => strip (py_str (cr_customer_id r)))
             cr_email _ raw_to_email_step); [exact Hx|].
    apply dedup_from_In in Hx as [Hx _].
    apply filter_In in Hx as [_ Hx].
    destruct (cr_email x); [eauto|discriminate].
  - intros -> pre x post e -> He Hpost. unfold build_raw_to_email.
    apply (raw_fold_last (fun r => strip (py_str (cr_customer_id r)))
             cr_email _ raw_to_email_step); [exact He|].
    intros y Hy _. now apply Hpost.
Qed.

Lemma imputed_row_name `{P : Pandas} ds raw :
  pr_product_name (fst (imputed_row ds raw))
  = strip (py_str (rp_product_name raw)).
Proof.
  unfold imputed_row, impute_price.
  destruct (pr_price (prepared raw)); [|destruct (mjoin _)];
    cbn [fst set_price pr_product_name prepared blank_price fill_stock
         trim_product]; apply py_str_strip_cell.
Qed.

(** X21.  When the cleaner returns, the map from raw product identifiers
    to names is built from the rows that are loaded: every entry pairs the trimmed identifier of
    a row of the file with the cleaned name of that row, a row that has a
    price after imputation.  Conversely the identifier of the first priced
    row of an identifier maps to the name of that row, unless the
    identifier is the text [nan], which a row without identifier shares. *)
Theorem raw_product_map_points_to_cleaned_rows :
  forall (P : Pandas) (dp : list RawProduct) (ds : list RawSale)
         (cleaned : list (Product num)) (qc : QualityCounts)
         (m : gmap string string),
    transform_products dp ds = inr (cleaned, qc, m) ->
    (forall k n,
       m !! k = Some n ->
       exists raw,
         In raw dp
         /\ strip (py_str (rp_product_id raw)) = k
         /\ n = strip (py_str (rp_product_name raw))
         /\ notna (price_text ds raw) = true
         /\ In (product_columns (fst (imputed_row ds raw))) cleaned)
    /\ (forall pre raw post id,
          dp = pre ++ raw :: post ->
          notna (price_text ds raw) = true ->
          (forall raw', In raw' pre ->
             strip_cell (rp_product_id raw') = strip_cell (rp_product_id raw) ->
             price_text ds raw' = None) ->
          strip_cell (rp_product_id raw) = Some id -> id <> "nan" ->
          m !! id = Some (strip (py_str (rp_product_name raw)))).
Proof.
  intros P dp ds cleaned qc m Hret.
  apply transform_products_inr in Hret as (_ & -> & _ & ->).
  unfold products_frame. rewrite impute_prices_map, map_map.
  split.
  - intros k n H. unfold build_raw_to_name in H.
    apply (raw_fold_sound (fun r => strip (py_str (pr_product_id r)))
             (fun r => Some (pr_product_name r)) _ raw_to_name_step) in H
      as [H|(x & Hx & Hk & [= Hn])].
    { rewrite lookup_empty in H. discriminate. }
    pose proof Hx as Hkept.
    apply dedup_from_In in Hx as [Hx _].
    apply filter_In in Hx as [Hx Hprice].
    apply in_map_iff in Hx as (raw & <- & Hraw).
    exists raw. split; [exact Hraw|].
    rewrite imputed_row_id, py_str_strip_cell in Hk.
    rewrite imputed_row_name in Hn. rewrite imputed_row_price in Hprice.
    split; [exact Hk|]. split; [now symmetry|]. split; [exact Hprice|].
    apply in_map. exact Hkept.
  - intros pre raw post id -> Hprice Hfirst Hid Hnan.
    assert (Hkept :
      In (fst (imputed_row ds raw))
         (drop_duplicates pr_product_id
            (List.filter (fun r => notna (pr_price r))
               (map (fun x => fst (imputed_row ds x))
                    (pre ++ raw :: post))))).
    { rewrite map_app. cbn [map].
      rewrite List.filter_app. cbn [List.filter].
      rewrite imputed_row_price, Hprice.
      apply dedup_from_keeps_first; [intros []|].
      intros y Hy. apply filter_In in Hy as [Hy Hny].
      apply in_map_iff in Hy as (raw' & <- & Hraw').
      rewrite !imputed_row_id. intros E.
      rewrite imputed_row_price, (Hfirst raw' Hraw' E) in Hny.
      discriminate. }
    pose proof (dedup_from_NoDup pr_product_id []
                  (List.filter (fun r => notna (pr_price r))
                     (map (fun x => fst (imputed_row ds x))
                          (pre ++ raw :: post)))) as Hnd.
    assert (Hrows :
      forall y,
        In y (drop_duplicates pr_product_id
                (List.filter (fun r => notna (pr_price r))
                   (map (fun x => fst (imputed_row ds x))
                        (pre ++ raw :: post)))) ->
        exists raw', pr_product_id y = strip_cell (rp_product_id raw')).
    { intros y Hy. apply dedup_from_In in Hy as [Hy _].
      apply filter_In in Hy as [Hy _].
      apply in_map_iff in Hy as (raw' & <- & _).
      exists raw'. apply imputed_row_id. }
    fold (drop_duplicates pr_product_id
            (List.filter (fun r => notna (pr_price r))
               (map (fun x => fst (imputed_row ds x))
                    (pre ++ raw :: post)))) in Hnd.
    revert Hkept Hnd Hrows.
    generalize (drop_duplicates pr_product_id
                  (List.filter (fun r => notna (pr_price r))
                     (map (fun x => fst (imputed_row ds x))
                          (pre ++ raw :: post)))).
    intros kept Hkept Hnd Hrows.
    apply in_split in Hkept as (l1 & l2 & ->).
    assert (Hkey : strip (py_str (pr_product_id (fst (imputed_row ds raw))))
                   = id).
    { rewrite imputed_row_id, Hid. cbn [py_str].
      now apply (strip_cell_stripped (rp_product_id raw)). }
    rewrite <- Hkey at 1. rewrite <- (imputed_row_name ds raw).
    unfold build_raw_to_name.
    apply (raw_fold_last (fun r => strip (py_str (pr_product_id r)))
             (fun r => Some (pr_product_name r)) _ raw_to_name_step);
      [reflexivity|].
    intros y Hy _ Ey. rewrite Hkey in Ey.
    rewrite map_app in Hnd. cbn [map] in Hnd.
    apply NoDup_remove_2 in Hnd. apply Hnd, in_or_app. right.
    rewrite imputed_row_id, Hid.
    assert (Hy2 : In y (l1 ++ fst (imputed_row ds raw) :: l2))
      by (apply in_or_app; right; now right).
    destruct (Hrows y Hy2) as [raw' Hy'].
    replace (Some id) with (pr_product_id y); [now apply in_map|].
    rewrite Hy' in *. destruct (strip_cell (rp_product_id raw')) as [s'|] eqn:Es.
    + cbn [py_str] in Ey. rewrite (strip_cell_stripped _ _ Es) in Ey.
      now subst s'.
    + change (strip (py_str None)) with "nan" in Ey. subst id.
      now destruct Hnan.
Qed.

Lemma raw_product_map_points_to_cleaned_rows_witness :
  exists cleaned qc m,
    transform_products (P := Decimal.instance)
      ([ mkRawProduct (Some "P200 ") (Some "Widget") (Some "electronics")
                      (Some "") (Some "") ]
       ++ mkRawProduct (Some " P200") (Some " Gadget ") (Some "fashion")
                       (Some "3.50") (Some "4") :: [])
      []
    = inr (cleaned, qc, m)
    /\ m !! "P200" = Some (strip (py_str (Some " Gadget "))).
Proof.
  eexists _, _, _. split; [reflexivity|].
  apply (proj2 (raw_product_map_points_to_cleaned_rows Decimal.instance
                  ([ mkRawProduct (Some "P200 ") (Some "Widget")
                                  (Some "electronics") (Some "") (Some "") ]
                   ++ mkRawProduct (Some " P200") (Some " Gadget ")
                                   (Some "fashion") (Some "3.50") (Some "4")
                      :: [])
                  [] _ _ _ eq_refl)
           [ mkRawProduct (Some "P200 ") (Some "Widget") (Some "electronics")
                          (Some "") (Some "") ]
           (mkRawProduct (Some " P200") (Some " Gadget ") (Some "fashion")
                         (Some "3.50") (Some "4"))
           [] "P200" eq_refl).
  - vm_compute. reflexivity.
  - intros raw' [<-|[]] _. vm_compute. reflexivity.
  - reflexivity.
  - discriminate.
Defined.

(** ** The median of the referencing prices *)

(** X22.  A product without a price is imputed with the median of the
    numeric unit prices of the sales of its identifier, printed with two
    decimals: the price of middle rank when their number is odd, the mean
    of the two prices of middle rank when it is even.  The price stays
    absent when there is no such price, or when that mean is NaN, and the
    row is then not counted as filled; with finite prices it is absent
    exactly when no sale of the identifier has a numeric unit price. *)
Theorem missing_price_imputed_iff_priced_sale :
  forall (P : Pandas) (ds : list RawSale) (raw : RawProduct),
    price_missing raw = true ->
    let prices := referencing_prices ds (product_key raw) in
    let row := fst (imputed_row ds raw) in
    let filled := snd (imputed_row ds raw) in
    (forall txt,
       pr_price row = Some txt ->
       filled = true
       /\ exists med, is_median prices med /\ txt = num_fmt2 med)
    /\ (pr_price row = None ->
        filled = false
        /\ (prices = []
            \/ (Nat.odd (length prices) = false
                /\ exists a b,
                     kth_smallest (length prices / 2 - 1) a prices
                     /\ kth_smallest (length prices / 2) b prices
                     /\ num_mean2 a b = None)))
    /\ (List.Forall (fun v => num_finite v = true) prices ->
        (pr_price row = None <-> prices = [])).
Proof.
  intros P ds raw Hmiss prices row filled. subst prices row filled.
  destruct (imputed_row_median ds raw) as [_ Hmissing].
  cbv zeta in Hmissing.
  destruct (Hmissing Hmiss) as (H1 & H2 & H3 & H4).
  split; [exact H1|]. split; [exact H2|].
  intros Hfin. split; [|exact H3].
  intros Hnone.
  destruct (referencing_prices ds (product_key raw)) as [|v vs] eqn:E;
    [reflexivity|].
  destruct (H4 ltac:(discriminate) Hfin) as [txt Htxt]. congruence.
Qed.

Lemma missing_price_imputed_iff_priced_sale_witness :
  snd (imputed_row (P := Decimal.instance) demo_unsorted_sales
         (mkRawProduct (Some "P200") (Some "Widget") (Some "electronics")
                       (Some "") (Some ""))) = true
  /\ exists med,
       is_median (P := Decimal.instance)
         (referencing_prices (P := Decimal.instance) demo_unsorted_sales
            (product_key (mkRawProduct (Some "P200") (Some "Widget")
                                       (Some "electronics") (Some "")
                                       (Some ""))))
         med
       /\ "12.00" = Decimal.fmt2_ext med.
Proof.
  apply (proj1 (missing_price_imputed_iff_priced_sale Decimal.instance
                  demo_unsorted_sales
                  (mkRawProduct (Some "P200") (Some "Widget")
                                (Some "electronics") (Some "") (Some ""))
                  eq_refl)
           "12.00").
  reflexivity.
Defined.

(** ** A customers file without identifiers *)

Lemma count_all {A} (p : A -> bool) (l : list A) :
  (forall x, p x = true) -> count p l = len l.
Proof.
  intros Hp. unfold count. f_equal.
  induction l as [|x r IH]; cbn [List.filter]; [reflexivity|].
  now rewrite Hp, IH.
Qed.

(** X23.  When the customers file has no [customer_id] column the map
    from raw identifiers is empty, so a fault-free run whose product
    cleaner returns loads the customers and the products but not a single
    sale: every cleaned sale is counted as dropped at load, and the report
    says that no order and no order item was inserted. *)
Theorem no_customer_id_column_loads_no_sale :
  forall (P : Pandas) (faults : nat -> option string)
         (dc : list RawCustomer) (dp : list RawProduct) (ds : list RawSale)
         (pc : list (Product num)) (pqc : QualityCounts)
         (m : gmap string string) (st0 : Store num),
    (forall n, faults n = None) ->
    transform_products dp ds = inr (pc, pqc, m) ->
    let sc := fst (transform_sales ds) in
    exists cq pq sq,
      main faults (mkFiles (Some (false, dc)) (Some dp) (Some ds)) st0
      = Written cq pq sq
          ((if len sc =? 0 then [] else [note_unmapped (len sc)])
           ++ ["Orders inserted: 0"; "Order items inserted: 0"])
      /\ loaded cq = len (fst (fst (transform_customers false dc)))
      /\ loaded pq = len pc
      /\ loaded sq = 0
      /\ rows_dropped sq = rows_dropped (snd (transform_sales ds)) + len sc.
Proof.
  intros P faults dc dp ds pc pqc m st0 Hf Hret sc.
  assert (Hnone : forall ec rp np r,
            reconcile (snd (transform_customers false dc)) ec rp np r = None).
  { intros ec rp np r. rewrite (transform_customers_map false dc).
    unfold reconcile. now rewrite lookup_empty. }
  destruct (main_returns faults Hf false dc dp ds pc pqc m st0 Hret)
    as (cq & pq & sq & extra & Hmain).
  { intros r _ Hr. now rewrite Hnone in Hr. }
  rewrite Hmain.
  apply (main_written faults Hf) in Hmain as (pc' & pqc' & m' & Hret' & Hmain).
  rewrite Hret in Hret'. injection Hret' as <- <- <-.
  cbv zeta in Hmain. fold sc in Hmain.
  assert (Hun : forall ec rp np,
            unmapped (snd (transform_customers false dc)) ec rp np sc
            = len sc).
  { intros ec rp np. unfold unmapped. apply count_all. intros r.
    now rewrite Hnone. }
  rewrite !Hun, Z.sub_diag in Hmain.
  destruct Hmain as (-> & -> & -> & ->).
  eexists _, _, _. split.
  - f_equal. rewrite <- app_assoc. reflexivity.
  - cbn [set_loaded loaded]. split; [reflexivity|]. split; [reflexivity|].
    destruct (len sc =? 0) eqn:E;
      cbn [set_loaded add_dropped loaded rows_dropped];
      split; try reflexivity.
    apply Z.eqb_eq in E. lia.
Qed.

Lemma no_customer_id_column_loads_no_sale_witness :
  exists cq pq sq,
    main (P := Decimal.instance) (fun _ => None)
      (mkFiles (Some (false, demo_customers)) (Some demo_products)
               (Some demo_sales)) empty_store
    = Written cq pq sq
        ((if len (fst (transform_sales (P := Decimal.instance) demo_sales))
             =? 0
          then []
          else [note_unmapped
                  (len (fst (transform_sales (P := Decimal.instance)
                               demo_sales)))])
         ++ ["Orders inserted: 0"; "Order items inserted: 0"])
    /\ loaded cq
       = len (fst (fst (transform_customers (P := Decimal.instance) false
                          demo_customers)))
    /\ loaded pq = 2
    /\ loaded sq = 0
    /\ rows_dropped sq
       = rows_dropped (snd (transform_sales (P := Decimal.instance)
                              demo_sales))
         + len (fst (transform_sales (P := Decimal.instance) demo_sales)).
Proof.
  apply (no_customer_id_column_loads_no_sale Decimal.instance (fun _ => None)
           demo_customers demo_products demo_sales _ _ _ empty_store
           (fun _ => eq_refl) eq_refl).
Defined.

(** ** What the reconciler returns, faults or not *)

(** X24.  Whatever the storage does, when [insert_orders_and_items]
    returns, its three counts add up: as many items as orders, and orders
    plus dropped rows are the rows it was given. *)
Theorem reconciler_counts_add_up :
  forall (P : Pandas) (faults : nat -> option string)
         (rc : gmap string string) (ec : gmap string Z)
         (rp : gmap string string) (np : gmap string Z)
         (sales : list (Sale num)) (st st' : Store num) (o i d : Z),
    insert_orders_and_items faults rc ec rp np sales st = Ok (o, i, d) st' ->
    o = i /\ o + d = len sales /\ 0 <= o /\ 0 <= d.
Proof.
  intros P faults rc ec rp np sales st st' o i d H.
  unfold insert_orders_and_items in H.
  apply bind_Ok in H as ([[o1 i1] d1] & st1 & Hloop & H).
  apply bind_Ok in H as (_ & st2 & _ & H).
  injection H as <- <- <- _.
  apply insert_orders_loop_count in Hloop. lia.
Qed.

Lemma reconciler_counts_add_up_witness :
  1 = 1 /\ 1 + 1 = len [demo_sale_widget; demo_sale_blank_name]
  /\ 0 <= 1 /\ 0 <= 1.
Proof.
  apply (reconciler_counts_add_up Decimal.instance (fun _ => None)
           demo_raw_to_email demo_email_to_key demo_raw_to_name
           demo_name_to_key [demo_sale_widget; demo_sale_blank_name]
           empty_store
           (mkStore truncated truncated
              (inserted (mkOrder 1 (Some (mkdate 2024 1 16)) (Some (Decimal.Fin (24 # 1)))
                                 (Some "Pending")) truncated)
              (inserted (mkOrderItem 1 2 2 (Some (Decimal.Fin (12 # 1))) (Some (Decimal.Fin (24 # 1))))
                        truncated)
              3)).
  vm_compute. reflexivity.
Defined.
